(** * bolt.diy: request assembly ([stream-text.ts]), the settings store
    ([stores/settings.ts]) and the model selector ([ModelSelector.tsx])

    A shallow embedding of the three TypeScript sources and the properties
    their specification states about them.

    Conventions.
    - A JavaScript string is the list of its UTF-16 code units ([list N]);
      [js "..."] writes an ASCII literal, and the quote, backslash and
      newline characters are written by code ([dq], [bs], [nl]).
    - [undefined] is [None]; an optional property [p?: T] is [option T].
    - A thrown exception is [Throw]; the log calls of the sources are
      collected, in order, next to the result (the monad [M]).
    - Collaborators that the sources import but do not define (the provider
      registry, the prompt library, the SDK) are the fields of the class
      [Host]. *)

From Stdlib Require Import ZArith List String Ascii DecimalString Lia.
From stdpp Require Import base numbers option list strings gmap.

Set Default Proof Using "Type".
Local Open Scope Z_scope.

(* ===================================================================== *)
(** * JavaScript strings                                                  *)
(* ===================================================================== *)

Abbreviation jsstring := (list N).

Definition js (s : string) : jsstring :=
  map N_of_ascii (list_ascii_of_string s).

Definition dq : jsstring := [34%N].   (* the double quote *)
Definition bs : jsstring := [92%N].   (* the backslash *)
Definition nl : jsstring := [10%N].   (* the line feed *)

(** [a === b] on strings. *)
Definition str_eqb (a b : jsstring) : bool := bool_decide (a = b).

(** Truthiness of a string: only the empty string is falsy. *)
Definition str_truthy (s : jsstring) : bool :=
  match s with [] => false | _ => true end.

(** [a || b] on strings. *)
Definition str_or (a b : jsstring) : jsstring :=
  if str_truthy a then a else b.

(** [(o || d)] for an optional string [o]. *)
Definition opt_str_or (o : option jsstring) (d : jsstring) : jsstring :=
  match o with Some s => str_or s d | None => d end.

(** [xs.join(sep)]. *)
Fixpoint join (sep : jsstring) (xs : list jsstring) : jsstring :=
  match xs with
  | [] => []
  | [x] => x
  | x :: rest => x ++ sep ++ join sep rest
  end.

(** [p] is a prefix of [s]. *)
Fixpoint is_prefix (p s : jsstring) : bool :=
  match p, s with
  | [], _ => true
  | _ :: _, [] => false
  | a :: p', b :: s' => (a =? b)%N && is_prefix p' s'
  end.

(** Split [s] at the first occurrence of [p]: the text before it and the
    text after it. *)
Fixpoint cut (p s : jsstring) : option (jsstring * jsstring) :=
  match s with
  | [] => if is_prefix p [] then Some ([], []) else None
  | c :: s' =>
      if is_prefix p s then Some ([], drop (length p) s)
      else match cut p s' with
           | Some (pre, post) => Some (c :: pre, post)
           | None => None
           end
  end.

(** [s.includes(p)]. *)
Definition includes (s p : jsstring) : bool :=
  match cut p s with Some _ => true | None => false end.

(** Number of positions of [s] at which [p] occurs. *)
Fixpoint occurrences (p s : jsstring) : nat :=
  match s with
  | [] => if is_prefix p [] then 1%nat else 0%nat
  | _ :: s' => ((if is_prefix p s then 1 else 0) + occurrences p s')%nat
  end.

(** ** Regular expressions of the form [/OPEN.*?CLOSE/s]

    Both message patterns of [streamText] are a literal, a lazy run of any
    characters, and a literal.  The leftmost match starts at the first
    occurrence of [OPEN] that has a [CLOSE] behind it, and the lazy
    quantifier stops at the first such [CLOSE]; as every later [OPEN] has
    fewer characters behind it, that is the first occurrence of [OPEN]. *)

(** The leftmost match: the text before it and the text after it. *)
Definition lazy_match (o c s : jsstring) : option (jsstring * jsstring) :=
  match cut o s with
  | Some (pre, rest) =>
      match cut c rest with
      | Some (_, post) => Some (pre, post)
      | None => None
      end
  | None => None
  end.

(** [s.replace(/o.*?c/s, r)]: the first match only. *)
Definition replace_first (o c r s : jsstring) : jsstring :=
  match lazy_match o c s with
  | Some (pre, post) => pre ++ r ++ post
  | None => s
  end.

(** [s.replace(/o[\s\S]*?c/g, r)]: every match, left to right, the search
    resuming behind the previous match.  [n] bounds the number of matches. *)
Fixpoint replace_all_upto (n : nat) (o c r s : jsstring) : jsstring :=
  match n with
  | O => s
  | S n' =>
      match lazy_match o c s with
      | Some (pre, post) => pre ++ r ++ replace_all_upto n' o c r post
      | None => s
      end
  end.

Definition replace_all (o c r s : jsstring) : jsstring :=
  replace_all_upto (length s) o c r s.

(** ** [String.prototype.trim]

    White space and line terminators of ECMAScript: TAB, LF, VT, FF, CR,
    SP, NBSP, U+1680, U+2000..U+200A, LS, PS, U+202F, U+205F, U+3000 and
    the byte order mark. *)
Definition is_ws (c : N) : bool :=
  ((9 <=? c) && (c <=? 13) || (c =? 32) || (c =? 160) || (c =? 5760)
   || (8192 <=? c) && (c <=? 8202) || (c =? 8232) || (c =? 8233)
   || (c =? 8239) || (c =? 8287) || (c =? 12288) || (c =? 65279))%N.

Fixpoint trim_start (s : jsstring) : jsstring :=
  match s with
  | [] => []
  | c :: s' => if is_ws c then trim_start s' else s
  end.

Definition trim_end (s : jsstring) : jsstring := rev (trim_start (rev s)).

Definition trim (s : jsstring) : jsstring := trim_end (trim_start s).

(** [xs.slice(k)] for an integer [k]: a negative [k] counts from the end. *)
Definition slice_from {A} (k : Z) (xs : list A) : list A :=
  let len := Z.of_nat (length xs) in
  let start := if k <? 0 then Z.max (len + k) 0 else Z.min k len in
  drop (Z.to_nat start) xs.

(* ===================================================================== *)
(** * Data                                                                *)
(* ===================================================================== *)

(** A value read by [JSON.parse], or any plain object of the sources whose
    shape is not fixed ([any]).  A number is kept as the decimal
    [mantissa * 10 ^ exponent] of its literal; rounding to a double is not
    modelled.  An object lists its properties in enumeration order. *)
#[warning="-register-all"]
Inductive JSON :=
| JNull
| JBool (b : bool)
| JNum (mantissa exponent : Z)
| JStr (s : jsstring)
| JArr (items : list JSON)
| JObj (props : list (jsstring * JSON)).

(** Look a key up in a list of properties. *)
Fixpoint assoc {A} (k : jsstring) (kvs : list (jsstring * A)) : option A :=
  match kvs with
  | [] => None
  | (k', v) :: rest => if str_eqb k' k then Some v else assoc k rest
  end.

(** [ModelInfo] of [~/lib/modules/llm/types]. *)
Record ModelInfo := {
  mi_name : jsstring;
  mi_label : jsstring;
  mi_provider : jsstring;
  maxTokenAllowed : option Z;
}.

(** A provider of the registry, with the fields the sources read.  The
    declaration ([ProviderInfo], [IProviderConfig]) is not part of the
    sources, so every field but the name is optional. *)
Record Provider := {
  p_name : jsstring;
  staticModels : option (list ModelInfo);
  defaultModel : option jsstring;
  p_models : option (list ModelInfo);
  isConfigurable : option bool;
}.

#[global] Instance ModelInfo_eq_dec : EqDecision ModelInfo.
Proof. solve_decision. Defined.

#[global] Instance Provider_eq_dec : EqDecision Provider.
Proof. solve_decision. Defined.

Inductive Role := user | assistant | system | data.

#[global] Instance Role_eq_dec : EqDecision Role.
Proof. solve_decision. Defined.

(** [Omit<Message, 'id'>] of the SDK: the role, the content, and the other
    properties, which [{ ...message, content }] copies. *)
Record Message := {
  role : Role;
  content : jsstring;
  other : list (jsstring * JSON);
}.

Definition with_content (m : Message) (c : jsstring) : Message :=
  {| role := role m; content := c; other := other m |}.

(** An entry of a [FileMap] ([Dirent | undefined]). *)
Record Dirent := {
  d_content : jsstring;
  isLocked : option bool;
}.

(** A [FileMap], as [Object.entries] enumerates it. *)
Abbreviation FileMap := (list (jsstring * option Dirent)).

Inductive ChatMode := discuss | build | patch.

Record SupabaseConnection := {
  isConnected : bool;
  hasSelectedProject : bool;
  credentials : option JSON;
}.

(** [StreamingOptions]: the Supabase connection, and the call settings of
    the SDK that the final spread [...options] lays over the arguments
    [streamText] computed.  [Some v] is a property that is present with
    value [v] (which may itself be [undefined]). *)
Record StreamingOptions := {
  supabaseConnection : option SupabaseConnection;
  o_system : option (option jsstring);
  o_maxTokens : option (option Z);
  o_messages : option (option (list Message));
}.

(** What [streamText] hands on to the registry untouched. *)
Record Credentials := {
  c_apiKeys : option (list (jsstring * jsstring));
  c_providerSettings : option (list (jsstring * JSON));
  c_serverEnv : option (list (jsstring * jsstring));
}.

(** The argument of [streamText]. *)
Record Props := {
  messages : list Message;
  env : option (list (jsstring * jsstring));
  options : option StreamingOptions;
  apiKeys : option (list (jsstring * jsstring));
  files : option FileMap;
  providerSettings : option (list (jsstring * JSON));
  promptId : option jsstring;
  contextOptimization : option bool;
  contextFiles : option FileMap;
  summary : option jsstring;
  messageSliceId : option Z;
  chatMode : option ChatMode;
  designScheme : option JSON;
}.

(** The second argument of [PromptLibrary.getPropmtFromLibrary]. *)
Record PromptOptions := {
  po_cwd : jsstring;
  po_allowedHtmlElements : list jsstring;
  po_modificationTagName : jsstring;
  po_designScheme : option JSON;
  po_supabase : SupabaseConnection;
}.

(* ===================================================================== *)
(** * Logs and exceptions                                                 *)
(* ===================================================================== *)

(** One constructor for each log call of the sources, with the values its
    message interpolates. *)
Inductive LogEntry :=
| WarnModelNotFound (currentModel providerName fallback : jsstring)
| InfoMaxTokens (model : jsstring) (dynamicMaxTokens : Z)
    (allowed : option Z) (max_tokens : Z)
| InfoSendingCall (providerName model : jsstring)
| LogNoLockedFiles
| ErrorParsingProviderSettings.

Definition is_warning (e : LogEntry) : bool :=
  match e with WarnModelNotFound _ _ _ => true | _ => false end.

(** [new Error(message)], or the rejection of a collaborator. *)
Inductive Error := MkError (message : jsstring).

Inductive result (A : Type) :=
| Ok (a : A)
| Throw (e : Error).
Arguments Ok {A} a.
Arguments Throw {A} e.

(** A computation that logs and may throw. *)
Definition M (A : Type) : Type := list LogEntry * result A.

Definition ret {A} (a : A) : M A := ([], Ok a).

Definition bind {A B} (m : M A) (k : A -> M B) : M B :=
  match m with
  | (l, Ok a) => let (l', r) := k a in (l ++ l', r)
  | (l, Throw e) => (l, Throw e)
  end.

Definition log (e : LogEntry) : M unit := ([e], Ok tt).

Definition throw {A} (e : Error) : M A := ([], Throw e).

Definition lift {A} (r : result A) : M A := ([], r).

Notation "'let*' x ':=' m 'in' k" := (bind m (fun x => k))
  (at level 10, x pattern, m at level 100, k at level 200).

Definition logs {A} (m : M A) : list LogEntry := fst m.
Definition outcome {A} (m : M A) : result A := snd m.

(* ===================================================================== *)
(** * Collaborators                                                       *)
(* ===================================================================== *)

(** The result of [extractPropertiesFromMessage] ([./utils]). *)
Record Extracted := {
  ex_model : jsstring;
  ex_provider : jsstring;
  ex_content : jsstring;
}.

(** What the sources import and do not define: the constants of
    [~/utils/constants] and [./constants], the helpers of [./utils], the
    prompt library, the provider registry and the SDK's message converter.
    [getModelListFromProvider] is awaited by [streamText]; a rejection is
    a [Throw]. *)
Class Host := {
  DEFAULT_MODEL : jsstring;
  DEFAULT_PROVIDER : Provider;
  PROVIDER_LIST : list Provider;
  MODIFICATIONS_TAG_NAME : jsstring;
  WORK_DIR : jsstring;
  MAX_TOKENS : Z;
  allowedHTMLElements : list jsstring;
  extractPropertiesFromMessage : Message -> Extracted;
  getModelListFromProvider : Provider -> Credentials -> result (list ModelInfo);
  getPropmtFromLibrary : jsstring -> PromptOptions -> option jsstring;
  getSystemPrompt : jsstring;
  discussPrompt : jsstring;
  createFilesContext : FileMap -> bool -> jsstring;
  convertToCoreMessages : list Message -> list Message;
}.

(** Modelled from the spec: [LLMManager.getStaticModelListFromProvider] is
    not part of the sources; section 4.1 (step 2) has the resolver search
    "the provider's static model list", the list that step 3 puts first in
    the combined list. *)
Definition getStaticModelListFromProvider (p : Provider) : list ModelInfo :=
  default [] (staticModels p).

(* ===================================================================== *)
(** * [stream-text.ts]                                                    *)
(* ===================================================================== *)

(** The template literal of [getPatchPrompt], line by line. *)
Definition patchPromptLines (modificationTagName cwd : jsstring)
  : list jsstring :=
  [
    js "You are an expert AI programmer specializing in code modification. Your task is to act as an automated code editing tool.";
    js "You will be given a user request and the content of relevant files.";
    js "Your SOLE an ONLY output format MUST be a unified diff format, contained within a specific XML-like tag.";
    [];
    js "You MUST follow these rules:";
    js "1.  Analyze the user's request to understand the required changes.";
    js "2.  Analyze the provided file content within the 'CONTEXT BUFFER'.";
    js "3.  Generate a set of changes in the unified diff format.";
    js "4.  Wrap the entire response in a <" ++ modificationTagName ++ js "> tag.";
    js "5.  Inside this tag, each file modification must be wrapped in a <diff path=" ++ dq ++ js "path/to/file" ++ dq ++ js "> tag.";
    js "6.  The content inside the <diff> tag must be a valid unified diff, starting with '@@ ... @@'.";
    js "7.  DO NOT include the '---' or '+++' file headers in the diff content. The patch application system will handle this.";
    js "8.  DO NOT output any conversational text, explanations, or code blocks. Your response must ONLY be the diff itself.";
    [];
    js "Here is an example of a PERFECT response:";
    [];
    js "<" ++ modificationTagName ++ js ">";
    js "<diff path=" ++ dq ++ js "src/components/ui/Button.tsx" ++ dq ++ js ">";
    js "@@ -10,7 +10,7 @@";
    js "   return (";
    js "     <button";
    js "       className={cn(buttonVariants({ variant, size, className }))}";
    js "-      ref={ref}";
    js "+      ref={ref} // Add a reference to the button";
    js "       {...props}";
    js "     />";
    js "   );";
    js "</diff>";
    js "</" ++ modificationTagName ++ js ">";
    [];
    js "Begin! The user's files are located in the '" ++ cwd ++ js "' directory."
  ].

(** [getPatchPrompt] (lines 35-67): the lines of the template literal, with
    a line feed between them. *)
Definition getPatchPrompt (modificationTagName cwd : jsstring) : jsstring :=
  join nl (patchPromptLines modificationTagName cwd).

(** The three patterns of the assistant branch. *)
Definition boltThought_open : jsstring :=
  js "<div class=" ++ bs ++ dq ++ js "__boltThought__" ++ bs ++ dq ++ js ">".
Definition boltThought_close : jsstring := js "</div>".
Definition think_open : jsstring := js "<think>".
Definition think_close : jsstring := js "</think>".
Definition lockfile_open : jsstring :=
  js "<boltAction type=" ++ dq ++ js "file" ++ dq ++ js " filePath=" ++ dq
     ++ js "package-lock.json" ++ dq ++ js ">".
Definition lockfile_close : jsstring := js "</boltAction>".
Definition lockfile_placeholder : jsstring :=
  js "[package-lock.json content removed]".

(** The assistant branch of the [messages.map] callback (lines 116-125). *)
Definition cleanAssistantContent (c : jsstring) : jsstring :=
  let c := replace_first boltThought_open boltThought_close [] c in
  let c := replace_first think_open think_close [] c in
  let c := replace_all lockfile_open lockfile_close lockfile_placeholder c in
  trim c.

(** The variables [currentModel] and [currentProvider], which the callback
    of [messages.map] assigns. *)
Record Current := {
  currentModel : jsstring;
  currentProvider : jsstring;
}.

Section StreamText.
Context {host : Host}.

(** One call of the [messages.map] callback (lines 108-131). *)
Definition processMessage (cur : Current) (m : Message) : Current * Message :=
  match role m with
  | user =>
      let e := extractPropertiesFromMessage m in
      ({| currentModel := ex_model e; currentProvider := ex_provider e |},
       with_content m (ex_content e))
  | assistant => (cur, with_content m (cleanAssistantContent (content m)))
  | _ => (cur, m)
  end.

(** [messages.map], front to back, threading the two variables. *)
Fixpoint processMessages (cur : Current) (ms : list Message)
  : Current * list Message :=
  match ms with
  | [] => (cur, [])
  | m :: rest =>
      let (cur1, m') := processMessage cur m in
      let (cur2, rest') := processMessages cur1 rest in
      (cur2, m' :: rest')
  end.

Definition initialCurrent : Current :=
  {| currentModel := DEFAULT_MODEL; currentProvider := p_name DEFAULT_PROVIDER |}.

(** Line 133. *)
Definition resolveProvider (name : jsstring) : Provider :=
  default DEFAULT_PROVIDER
    (find (fun p => str_eqb (p_name p) name) PROVIDER_LIST).

Definition findModel (name : jsstring) (l : list ModelInfo) : option ModelInfo :=
  find (fun m => str_eqb (mi_name m) name) l.

Definition noModelsFound (p : Provider) : Error :=
  MkError (js "No models found for provider " ++ p_name p).

(** Reading a property of [undefined]. *)
Definition typeError : Error := MkError (js "TypeError").

(** Lines 134-159. *)
Definition resolveModel (creds : Credentials) (provider : Provider)
    (currentModel : jsstring) : M ModelInfo :=
  let staticModelList := getStaticModelListFromProvider provider in
  match findModel currentModel staticModelList with
  | Some modelDetails => ret modelDetails
  | None =>
      let* fetched := lift (getModelListFromProvider provider creds) in
      let modelsList := default [] (staticModels provider) ++ fetched in
      if bool_decide (length modelsList = 0%nat) then
        throw (noModelsFound provider)
      else
        match findModel currentModel modelsList with
        | Some modelDetails => ret modelDetails
        | None =>
            match head modelsList with
            | Some first =>
                let* _ := log (WarnModelNotFound currentModel (p_name provider)
                                 (mi_name first)) in
                ret first
            | None => throw typeError
            end
        end
  end.

(** Line 161: [modelDetails?.maxTokenAllowed || MAX_TOKENS]. *)
Definition dynamicMaxTokens (modelDetails : ModelInfo) : Z :=
  match maxTokenAllowed modelDetails with
  | Some n => if n =? 0 then MAX_TOKENS else n
  | None => MAX_TOKENS
  end.

(** [options?.supabaseConnection], read as lines 188-190 do. *)
Definition supabaseOf (o : option StreamingOptions) : SupabaseConnection :=
  match o ≫= supabaseConnection with
  | Some c => c
  | None => {| isConnected := false; hasSelectedProject := false;
               credentials := None |}
  end.

(** Lines 169-194. *)
Definition selectSystemPrompt (props : Props) : jsstring :=
  match chatMode props with
  | Some patch => getPatchPrompt MODIFICATIONS_TAG_NAME WORK_DIR
  | Some discuss => discussPrompt
  | Some build | None =>
      default getSystemPrompt
        (getPropmtFromLibrary
           (opt_str_or (promptId props) (js "default"))
           {| po_cwd := WORK_DIR;
              po_allowedHtmlElements := allowedHTMLElements;
              po_modificationTagName := MODIFICATIONS_TAG_NAME;
              po_designScheme := designScheme props;
              po_supabase := supabaseOf (options props) |})
  end.

(** The template of line 201. *)
Definition contextBufferBlock (codeContext : jsstring) : jsstring :=
  nl ++ nl ++ js "Below is the artifact containing the context loaded into context buffer for you to have knowledge of and might need changes to fullfill current user request."
     ++ nl ++ js "CONTEXT BUFFER:" ++ nl ++ js "---" ++ nl ++ codeContext
     ++ nl ++ js "---".

(** The template of line 204. *)
Definition chatSummaryBlock (summary : jsstring) : jsstring :=
  nl ++ nl ++ js "_below is the chat history till now_" ++ nl
     ++ js "CHAT SUMMARY:" ++ nl ++ js "---" ++ nl ++ summary ++ nl ++ js "---".

(** Lines 209-212: [pop] the last message and keep it alone. *)
Definition keepLast (ms : list Message) : list Message :=
  match last ms with
  | Some lastMessage => [lastMessage]
  | None => ms
  end.

(** The test of line 198. *)
Definition contextEnabled (props : Props) : option FileMap :=
  match chatMode props, contextFiles props, contextOptimization props with
  | Some build, Some cf, Some true => Some cf
  | Some patch, Some cf, Some true => Some cf
  | _, _, _ => None
  end.

(** [if (summary)] of line 203: the summary when it is a non-empty string. *)
Definition truthySummary (props : Props) : option jsstring :=
  match summary props with
  | Some s => if str_truthy s then Some s else None
  | None => None
  end.

(** [if (props.messageSliceId)] of line 206: the index when it is a
    number other than zero. *)
Definition truthySliceId (props : Props) : option Z :=
  match messageSliceId props with
  | Some k => if k =? 0 then None else Some k
  | None => None
  end.

(** Lines 198-215, on the pair of [systemPrompt] and [processedMessages]. *)
Definition appendContext (props : Props)
    (st : jsstring * list Message) : jsstring * list Message :=
  let (systemPrompt, processedMessages) := st in
  match contextEnabled props with
  | Some cf =>
      let codeContext := createFilesContext cf true in
      let systemPrompt := systemPrompt ++ contextBufferBlock codeContext in
      match truthySummary props with
      | Some s =>
          let systemPrompt := systemPrompt ++ chatSummaryBlock s in
          match truthySliceId props with
          | Some k => (systemPrompt, slice_from k processedMessages)
          | None => (systemPrompt, keepLast processedMessages)
          end
      | None => (systemPrompt, processedMessages)
      end
  | None => (systemPrompt, processedMessages)
  end.

(** [Set.prototype.add] on a set kept in insertion order. *)
Definition set_add (x : jsstring) (s : list jsstring) : list jsstring :=
  if bool_decide (x ∈ s) then s else s ++ [x].

(** [fileDetails?.isLocked] as a condition. *)
Definition entryLocked (d : option Dirent) : bool :=
  match d with
  | Some d => match isLocked d with Some b => b | None => false end
  | None => false
  end.

(** Lines 217-225: the set, as [Array.from] lists it. *)
Definition effectiveLockedFilePaths (files : option FileMap) : list jsstring :=
  match files with
  | Some entries =>
      fold_left
        (fun s (e : jsstring * option Dirent) =>
           if entryLocked e.2 then set_add e.1 s else s)
        entries []
  | None => []
  end.

(** The template of line 231. *)
Definition lockedFilesBlock (paths : list jsstring) : jsstring :=
  nl ++ nl ++ js "IMPORTANT: The following files are locked and MUST NOT be modified in any way. Do not suggest or make any changes to these files. You can proceed with the request but DO NOT make any changes to these files specifically:"
     ++ nl ++ join nl (map (fun filePath => js "- " ++ filePath) paths)
     ++ nl ++ js "---".

(** Lines 227-234. *)
Definition appendLockedFiles (props : Props) (systemPrompt : jsstring)
  : M jsstring :=
  let paths := effectiveLockedFilePaths (files props) in
  if bool_decide (0 < length paths)%nat then
    ret (systemPrompt ++ lockedFilesBlock paths)
  else
    let* _ := log LogNoLockedFiles in
    ret systemPrompt.

(** The local variables of [streamText] when it reaches the call of the
    SDK (line 238). *)
Record Locals := {
  l_current : Current;
  l_provider : Provider;
  l_modelDetails : ModelInfo;
  l_dynamicMaxTokens : Z;
  l_systemPrompt : jsstring;
  l_processedMessages : list Message;
}.

Definition credentialsOf (props : Props) : Credentials :=
  {| c_apiKeys := apiKeys props;
     c_providerSettings := providerSettings props;
     c_serverEnv := env props |}.

(** Lines 161-236: what [streamText] does once the model is resolved. *)
Definition assemble (props : Props) (cur : Current)
    (processedMessages : list Message) (provider : Provider)
    (modelDetails : ModelInfo) : M Locals :=
  let maxTokens := dynamicMaxTokens modelDetails in
  let* _ := log (InfoMaxTokens (mi_name modelDetails) maxTokens
                   (maxTokenAllowed modelDetails) MAX_TOKENS) in
  let systemPrompt := selectSystemPrompt props in
  let (systemPrompt, processedMessages) :=
    appendContext props (systemPrompt, processedMessages) in
  let* systemPrompt := appendLockedFiles props systemPrompt in
  let* _ := log (InfoSendingCall (p_name provider) (mi_name modelDetails)) in
  ret {| l_current := cur;
         l_provider := provider;
         l_modelDetails := modelDetails;
         l_dynamicMaxTokens := maxTokens;
         l_systemPrompt := systemPrompt;
         l_processedMessages := processedMessages |}.

(** Lines 106-236. *)
Definition streamText_locals (props : Props) : M Locals :=
  let (cur, processedMessages) := processMessages initialCurrent (messages props) in
  let provider := resolveProvider (currentProvider cur) in
  let* modelDetails :=
    resolveModel (credentialsOf props) provider (currentModel cur) in
  assemble props cur processedMessages provider modelDetails.

(** The argument of [provider.getModelInstance]. *)
Record ModelInstanceRequest := {
  mr_provider : Provider;
  mr_model : jsstring;
  mr_credentials : Credentials;
}.

(** The argument of the SDK's [streamText] (lines 238-249): the properties
    that [streamText] sets itself, each of which the spread can replace,
    also by [undefined]. *)
Record SdkCall := {
  sdk_model : ModelInstanceRequest;
  sdk_system : option jsstring;
  sdk_maxTokens : option Z;
  sdk_messages : option (list Message);
}.

(** [{ model, system, maxTokens, messages, ...options }]: a property of
    [options] replaces the one written before the spread. *)
Definition sdkCall (props : Props) (l : Locals) : SdkCall :=
  let o := options props in
  {| sdk_model :=
       {| mr_provider := l_provider l;
          mr_model := mi_name (l_modelDetails l);
          mr_credentials := credentialsOf props |};
     sdk_system := default (Some (l_systemPrompt l)) (o ≫= o_system);
     sdk_maxTokens := default (Some (l_dynamicMaxTokens l)) (o ≫= o_maxTokens);
     sdk_messages :=
       default (Some (convertToCoreMessages (l_processedMessages l)))
         (o ≫= o_messages) |}.

(** [streamText]: the call it makes. *)
Definition streamText (props : Props) : M SdkCall :=
  let* l := streamText_locals props in
  ret (sdkCall props l).

End StreamText.

(* ===================================================================== *)
(** * The settings store ([stores/settings.ts])                           *)
(* ===================================================================== *)

(** What the store reads from its environment: whether it runs in a
    browser ([typeof window !== 'undefined']), [JSON.parse] ([None] when it
    throws a [SyntaxError]) and the constant [DEFAULT_TAB_CONFIG] of
    [~/components/@settings/core/constants]. *)
Class Browser := {
  isBrowser : bool;
  JSON_parse : jsstring -> option JSON;
  DEFAULT_TAB_CONFIG : list JSON;
}.

(** ** Values of type [any] *)

(** Truthiness of a parsed value. *)
Definition truthy (v : JSON) : bool :=
  match v with
  | JNull => false
  | JBool b => b
  | JNum m _ => negb (m =? 0)
  | JStr s => str_truthy s
  | JArr _ | JObj _ => true
  end.

(** [v?.k]: [undefined] for [null] and for a value without the property.
    (No key that the sources read is a built-in property of a string or of
    an array.) *)
Definition get_opt (k : jsstring) (v : JSON) : option JSON :=
  match v with
  | JObj props => assoc k props
  | _ => None
  end.

(** [v.k]: reading a property of [null] throws. *)
Definition get (k : jsstring) (v : JSON) : result (option JSON) :=
  match v with
  | JNull => Throw typeError
  | _ => Ok (get_opt k v)
  end.

(** The decimal numeral of an array index. *)
Definition index_key (i : nat) : jsstring :=
  js (NilZero.string_of_uint (Nat.to_uint i)).

(** [Object.entries(v)]. *)
Definition object_entries (v : JSON) : result (list (jsstring * JSON)) :=
  match v with
  | JNull => Throw typeError
  | JObj props => Ok props
  | JArr items => Ok (imap (fun i x => (index_key i, x)) items)
  | JStr s => Ok (imap (fun i c => (index_key i, JStr [c])) s)
  | JBool _ | JNum _ _ => Ok []
  end.

(** Assigning a property: an existing key keeps its place. *)
Fixpoint set_prop (k : jsstring) (v : JSON) (props : list (jsstring * JSON))
  : list (jsstring * JSON) :=
  match props with
  | [] => [(k, v)]
  | (k', v') :: rest =>
      if str_eqb k' k then (k', v) :: rest else (k', v') :: set_prop k v rest
  end.

(** What a plain object inherits from [Object.prototype] (ECMAScript
    20.1.3 and B.2.2): [__proto__] reads the prototype itself, and each
    of the other names holds a function. *)
Definition PROTO : jsstring := js "__proto__".

Definition OBJECT_PROTOTYPE_FUNCTIONS : list jsstring :=
  [js "constructor"; js "hasOwnProperty"; js "isPrototypeOf";
   js "propertyIsEnumerable"; js "toLocaleString"; js "toString";
   js "valueOf"; js "__defineGetter__"; js "__defineSetter__";
   js "__lookupGetter__"; js "__lookupSetter__"].

Module Settings.

(** A property [settings] that a value has besides what its tree shows.
    Stored settings can route an assignment through [Object.prototype]
    (see [applySaved]); the object it reaches may then refer to itself,
    and an array may get a named property. *)
Inductive Extra :=
| SelfAt (i : nat)          (* an object: its [i]th own property, [settings], is the object itself *)
| OnArray (x : option JSON). (* an array: its property [settings] is [x], or the array itself *)

(** [IProviderConfig]: a provider and its [settings]: the value as a
    tree, and what the tree cannot show. *)
Record IProviderConfig := {
  pc_provider : Provider;
  pc_settings : option JSON;
  pc_extra : option Extra;
}.

(** [localStorage], and [ProviderSetting = Record<string, IProviderConfig>]. *)
Abbreviation Storage := (gmap (list N) (list N)).
Abbreviation ProviderSetting := (gmap (list N) IProviderConfig).

Definition LOCAL_PROVIDERS : list jsstring :=
  [js "OpenAILike"; js "LMStudio"; js "Ollama"].

Definition PROVIDER_SETTINGS_KEY : jsstring := js "provider_settings".
Definition SELECTED_PROVIDER : jsstring := js "selectedProvider".
Definition SELECTED_MODEL : jsstring := js "selectedModel".
Definition TAB_CONFIGURATION : jsstring := js "bolt_tab_configuration".
Definition LATEST_BRANCH : jsstring := js "isLatestBranch".
Definition AUTO_SELECT_TEMPLATE : jsstring := js "autoSelectTemplate".
Definition CONTEXT_OPTIMIZATION : jsstring := js "contextOptimizationEnabled".
Definition EVENT_LOGS : jsstring := js "isEventLogsEnabled".
Definition PROMPT_ID : jsstring := js "promptId".
Definition DEVELOPER_MODE : jsstring := js "isDeveloperMode".

Record TabWindowConfig := {
  userTabs : list JSON;
  developerTabs : list JSON;
}.

Record InitialSettings := {
  latestBranch : bool;
  autoSelectTemplate : bool;
  contextOptimization : bool;
  eventLogs : bool;
  promptId : jsstring;
  developerMode : bool;
  selectedProviderName : jsstring;
  selectedModelName : jsstring;
}.

(** [SettingsState]. *)
Record SettingsState := {
  providers : list Provider;
  models : gmap (list N) (list ModelInfo);
  selectedProvider : option Provider;
  selectedModel : jsstring;
  providerSettings : ProviderSetting;
}.

(** The store together with the storage its listener writes. *)
Record World := {
  storage : Storage;
  store : SettingsState;
}.

Section Store.
Context {host : Host} {browser : Browser}.

(** Lines 61-69: the defaults, one entry for each provider of the registry. *)
Definition defaultProviderSettings : ProviderSetting :=
  fold_left
    (fun (acc : ProviderSetting) provider =>
       <[p_name provider :=
           {| pc_provider := provider;
              pc_settings :=
                Some (JObj [(js "enabled",
                             JBool (negb (bool_decide
                                            (p_name provider ∈ LOCAL_PROVIDERS))))]);
              pc_extra := None |}]>
         acc)
    PROVIDER_LIST ∅.

(** [value.settings] for a parsed [value]: its own property, or what it
    inherits from [Object.prototype]. *)
Inductive Read :=
| Own (x : JSON)
| Inherited.

Definition readSettings (value : JSON) : result Read :=
  match value with
  | JNull => Throw typeError
  | JObj props =>
      Ok match assoc (js "settings") props with
         | Some x => Own x
         | None => Inherited
         end
  | _ => Ok Inherited
  end.

(** The object that [Object.prototype.settings] holds. *)
Record Shared := {
  sh_value : JSON;
  sh_extra : option Extra;
}.

(** The state of the [forEach] of lines 76-80: [initialSettings], the
    property [settings] of [Object.prototype] ([None]: it has none, or it
    is [undefined]; a page starts without one), and the providers whose
    [settings] is the very object that property holds. *)
Record Applying := {
  ap_settings : ProviderSetting;
  ap_inherited : option Shared;
  ap_aliases : list jsstring;
}.

(** [initialSettings[key].settings = value.settings] on an entry of
    [initialSettings] itself. *)
Definition assignEntry (key : jsstring) (cfg : IProviderConfig) (r : Read)
    (st : Applying) : Applying :=
  let others := List.filter (fun k => negb (str_eqb k key)) (ap_aliases st) in
  match r, ap_inherited st with
  | Own x, _ =>
      {| ap_settings :=
           <[key := {| pc_provider := pc_provider cfg;
                       pc_settings := Some x; pc_extra := None |}]> (ap_settings st);
         ap_inherited := ap_inherited st;
         ap_aliases := others |}
  | Inherited, Some shared =>
      {| ap_settings :=
           <[key := {| pc_provider := pc_provider cfg;
                       pc_settings := Some (sh_value shared);
                       pc_extra := sh_extra shared |}]> (ap_settings st);
         ap_inherited := ap_inherited st;
         ap_aliases := key :: others |}
  | Inherited, None =>
      {| ap_settings :=
           <[key := {| pc_provider := pc_provider cfg;
                       pc_settings := None; pc_extra := None |}]> (ap_settings st);
         ap_inherited := ap_inherited st;
         ap_aliases := others |}
  end.

(** The place of the first property named [k], or the number of
    properties when there is none; and the properties without it. *)
Fixpoint index_of_key (k : jsstring) (props : list (jsstring * JSON)) : nat :=
  match props with
  | [] => 0
  | (k', _) :: rest => if str_eqb k' k then 0 else S (index_of_key k rest)
  end.

Fixpoint remove_key (k : jsstring) (props : list (jsstring * JSON))
  : list (jsstring * JSON) :=
  match props with
  | [] => []
  | (k', v') :: rest =>
      if str_eqb k' k then rest else (k', v') :: remove_key k rest
  end.

(** [shared.settings = value.settings], where [shared] is what
    [Object.prototype.settings] holds: an object or an array gets the
    property (the module is in strict mode, so a primitive throws). *)
Definition assignShared (shared : Shared) (r : Read) : result Shared :=
  match sh_value shared with
  | JObj props =>
      match r, sh_extra shared with
      | Own x, Some (SelfAt i) =>
          Ok {| sh_value := JObj (take i props ++ (js "settings", x) :: drop i props);
                sh_extra := None |}
      | Own x, _ =>
          Ok {| sh_value := JObj (set_prop (js "settings") x props);
                sh_extra := None |}
      | Inherited, Some (SelfAt i) => Ok shared
      | Inherited, _ =>
          Ok {| sh_value := JObj (remove_key (js "settings") props);
                sh_extra := Some (SelfAt (index_of_key (js "settings") props)) |}
      end
  | JArr items =>
      Ok {| sh_value := JArr items;
            sh_extra := Some (OnArray match r with
                                      | Own x => Some x
                                      | Inherited => None
                                      end) |}
  | _ => Throw typeError
  end.

(** The shared object has changed: every provider whose [settings] it is
    sees the change. *)
Definition retarget (shared : Shared) (st : Applying) : Applying :=
  {| ap_settings :=
       map_imap
         (fun k cfg =>
            Some (if bool_decide (k ∈ ap_aliases st)
                  then {| pc_provider := pc_provider cfg;
                          pc_settings := Some (sh_value shared);
                          pc_extra := sh_extra shared |}
                  else cfg))
         (ap_settings st);
     ap_inherited := Some shared;
     ap_aliases := ap_aliases st |}.

(** Lines 76-80: the [forEach] over the parsed entries.  It assigns in
    place, so what it did before an exception stays done.
    [initialSettings[key]] finds an entry of [initialSettings], and
    otherwise what a plain object inherits: [Object.prototype] itself
    under [__proto__], a function under the name of one of its methods,
    and under [settings] what an earlier [__proto__] entry has put
    there. *)
Fixpoint applySavedFrom (entries : list (jsstring * JSON)) (st : Applying)
  : Applying * option Error :=
  match entries with
  | [] => (st, None)
  | (key, value) :: rest =>
      match ap_settings st !! key with
      | Some cfg =>
          match readSettings value with
          | Ok r => applySavedFrom rest (assignEntry key cfg r st)
          | Throw e => (st, Some e)
          end
      | None =>
          if str_eqb key PROTO then
            match readSettings value with
            | Ok (Own x) =>
                applySavedFrom rest
                  {| ap_settings := ap_settings st;
                     ap_inherited := Some {| sh_value := x; sh_extra := None |};
                     ap_aliases := [] |}
            | Ok Inherited => applySavedFrom rest st
            | Throw e => (st, Some e)
            end
          else if bool_decide (key ∈ OBJECT_PROTOTYPE_FUNCTIONS) then
            match readSettings value with
            | Ok _ => applySavedFrom rest st
            | Throw e => (st, Some e)
            end
          else if str_eqb key (js "settings") then
            match ap_inherited st with
            | Some shared =>
                if truthy (sh_value shared) then
                  match readSettings value with
                  | Ok r =>
                      match assignShared shared r with
                      | Ok shared' => applySavedFrom rest (retarget shared' st)
                      | Throw e => (st, Some e)
                      end
                  | Throw e => (st, Some e)
                  end
                else applySavedFrom rest st
            | None => applySavedFrom rest st
            end
          else applySavedFrom rest st
      end
  end.

Definition applySaved (entries : list (jsstring * JSON)) (acc : ProviderSetting)
  : ProviderSetting * option Error :=
  let (st, e) :=
    applySavedFrom entries
      {| ap_settings := acc; ap_inherited := None; ap_aliases := [] |} in
  (ap_settings st, e).

(** Lines 60-87. *)
Definition getInitialProviderSettings (ls : Storage) : M ProviderSetting :=
  let initialSettings := defaultProviderSettings in
  if isBrowser then
    match ls !! PROVIDER_SETTINGS_KEY with
    | Some savedSettings =>
        if str_truthy savedSettings then
          match JSON_parse savedSettings with
          | Some parsed =>
              match object_entries parsed with
              | Ok entries =>
                  match applySaved entries initialSettings with
                  | (settings, None) => ret settings
                  | (settings, Some _) =>
                      let* _ := log ErrorParsingProviderSettings in
                      ret settings
                  end
              | Throw _ =>
                  let* _ := log ErrorParsingProviderSettings in
                  ret initialSettings
              end
          | None =>
              let* _ := log ErrorParsingProviderSettings in
              ret initialSettings
          end
        else ret initialSettings
    | None => ret initialSettings
    end
  else ret initialSettings.

(** Lines 119-120. *)
Definition getStoredBoolean (ls : Storage) (key : jsstring) (defaultValue : bool)
  : bool :=
  if isBrowser then bool_decide (ls !! key = Some (js "true")) else defaultValue.

Definition getStoredString (ls : Storage) (key defaultValue : jsstring)
  : jsstring :=
  if isBrowser then opt_str_or (ls !! key) defaultValue else defaultValue.

(** Lines 118-131. *)
Definition getInitialSettings (ls : Storage) : InitialSettings :=
  {| latestBranch := getStoredBoolean ls LATEST_BRANCH false;
     autoSelectTemplate := getStoredBoolean ls AUTO_SELECT_TEMPLATE true;
     contextOptimization := getStoredBoolean ls CONTEXT_OPTIMIZATION true;
     eventLogs := getStoredBoolean ls EVENT_LOGS true;
     promptId := getStoredString ls PROMPT_ID (js "default");
     developerMode := getStoredBoolean ls DEVELOPER_MODE false;
     selectedProviderName :=
       getStoredString ls SELECTED_PROVIDER
         (opt_str_or (p_name <$> head PROVIDER_LIST) []);
     selectedModelName :=
       getStoredString ls SELECTED_MODEL
         (opt_str_or (head PROVIDER_LIST ≫= defaultModel) []) |}.

(** Lines 143-149: the initial value of [settingsStore]. *)
Definition initialStore (ls : Storage) : SettingsState :=
  let initialSettings := getInitialSettings ls in
  {| providers := PROVIDER_LIST;
     models := ∅;
     selectedProvider :=
       find (fun p => str_eqb (p_name p) (selectedProviderName initialSettings))
            PROVIDER_LIST;
     selectedModel := selectedModelName initialSettings;
     providerSettings := default ∅ (match outcome (getInitialProviderSettings ls) with
                                    | Ok s => Some s
                                    | Throw _ => None
                                    end) |}.

Definition initialWorld (ls : Storage) : World :=
  {| storage := ls; store := initialStore ls |}.

(** Lines 151-160: the listener. *)
Definition listener (ls : Storage) (currentValue : SettingsState) : Storage :=
  if isBrowser then
    let ls :=
      match selectedProvider currentValue with
      | Some p => <[SELECTED_PROVIDER := p_name p]> ls
      | None => ls
      end in
    if str_truthy (selectedModel currentValue)
    then <[SELECTED_MODEL := selectedModel currentValue]> ls
    else ls
  else ls.

(** [settingsStore.setKey('selectedProvider', provider)]: nanostores keeps
    the value and calls the listeners when the new value differs from the
    old one.  (Providers are compared by their fields; the sources only ever
    store members of [PROVIDER_LIST].) *)
Definition setSelectedProvider (p : Provider) (w : World) : World :=
  if bool_decide (selectedProvider (store w) = Some p) then w
  else
    let st := {| providers := providers (store w);
                 models := models (store w);
                 selectedProvider := Some p;
                 selectedModel := selectedModel (store w);
                 providerSettings := providerSettings (store w) |} in
    {| storage := listener (storage w) st; store := st |}.

(** [settingsStore.setKey('selectedModel', modelName)]. *)
Definition setSelectedModel (modelName : jsstring) (w : World) : World :=
  if bool_decide (selectedModel (store w) = modelName) then w
  else
    let st := {| providers := providers (store w);
                 models := models (store w);
                 selectedProvider := selectedProvider (store w);
                 selectedModel := modelName;
                 providerSettings := providerSettings (store w) |} in
    {| storage := listener (storage w) st; store := st |}.

(** [tab.window === name] in the callbacks of [filter]. *)
Definition tabInWindow (name : jsstring) (tab : JSON) : result bool :=
  match get (js "window") tab with
  | Ok (Some (JStr w)) => Ok (str_eqb w name)
  | Ok _ => Ok false
  | Throw e => Throw e
  end.

(** [tabs.filter(tab => tab.window === name)]. *)
Fixpoint filterTabs (name : jsstring) (tabs : list JSON) : result (list JSON) :=
  match tabs with
  | [] => Ok []
  | tab :: rest =>
      match tabInWindow name tab with
      | Ok b =>
          match filterTabs name rest with
          | Ok rest' => Ok (if b then tab :: rest' else rest')
          | Throw e => Throw e
          end
      | Throw e => Throw e
      end
  end.

(** [parsed.k.filter(tab => tab.window === name)]: only an array has a
    [filter]. *)
Definition filterProperty (k name : jsstring) (parsed : JSON)
  : result (list JSON) :=
  match get k parsed with
  | Ok (Some (JArr tabs)) => filterTabs name tabs
  | Ok _ => Throw typeError
  | Throw e => Throw e
  end.

(** Lines 190-193.  The entries of [DEFAULT_TAB_CONFIG] are typed tab
    records, none of them [null], so the callback does not throw there. *)
Definition inWindow (name : jsstring) (tab : JSON) : bool :=
  match tabInWindow name tab with
  | Ok b => b
  | Throw _ => false
  end.

Definition defaultTabConfiguration : TabWindowConfig :=
  {| userTabs := List.filter (inWindow (js "user")) DEFAULT_TAB_CONFIG;
     developerTabs := List.filter (inWindow (js "developer")) DEFAULT_TAB_CONFIG |}.

(** The body of the [try] of lines 196-202, behind the two early returns. *)
Definition parsedTabConfiguration (parsed : JSON) : result TabWindowConfig :=
  match filterProperty (js "userTabs") (js "user") parsed with
  | Ok u =>
      match filterProperty (js "developerTabs") (js "developer") parsed with
      | Ok d => Ok {| userTabs := u; developerTabs := d |}
      | Throw e => Throw e
      end
  | Throw e => Throw e
  end.

(** Lines 189-206.  The [catch] returns the default and logs nothing. *)
Definition getInitialTabConfiguration (ls : Storage) : M TabWindowConfig :=
  let defaultConfig := defaultTabConfiguration in
  if isBrowser then
    match ls !! TAB_CONFIGURATION with
    | Some saved =>
        if str_truthy saved then
          match JSON_parse saved with
          | Some parsed =>
              match parsedTabConfiguration parsed with
              | Ok config => ret config
              | Throw _ => ret defaultConfig
              end
          | None => ret defaultConfig
          end
        else ret defaultConfig
    | None => ret defaultConfig
    end
  else ret defaultConfig.

End Store.
End Settings.

(* ===================================================================== *)
(** * The model selector ([ModelSelector.tsx])                            *)
(* ===================================================================== *)

Module Selector.
Import Settings.

(** What the component asks of its parent. *)
Inductive Signal := FetchModels (provider : Provider).

(** What can happen to the store while the selector is shown: a click on
    a listed provider (line 125), a click on a listed model (line 165), and
    the parent's answer to [onFetchModels], a new value of the [models]
    key.  (The parent is not part of the sources.) *)
Inductive Event :=
| ClickProvider (p : Provider)
| ClickModel (m : ModelInfo)
| ModelsLoaded (ms : gmap (list N) (list ModelInfo)).

Section UI.
Context {host : Host} {browser : Browser}.

(** Line 37: [provider.defaultModel || provider.models?.[0]?.name || '']. *)
Definition modelForProvider (provider : Provider) : jsstring :=
  opt_str_or (defaultModel provider)
    (opt_str_or (mi_name <$> (p_models provider ≫= head)) []).

(** Lines 35-41. *)
Definition handleProviderSelect (provider : Provider) (w : World)
  : World * list Signal :=
  let w := setSelectedProvider provider w in
  let w := setSelectedModel (modelForProvider provider) w in
  (w, [FetchModels provider]).

(** Lines 43-47. *)
Definition handleModelSelect (modelName : jsstring) (w : World) : World :=
  setSelectedModel modelName w.

Definition truthy_opt (v : option JSON) : bool :=
  match v with Some v => truthy v | None => false end.

(** Lines 56-59, as a condition.  The last operand reads a property of
    [providerSettings[providerName]] without [?.]. *)
Definition isProviderConfigured (ps : ProviderSetting) (providerName : jsstring)
  : result bool :=
  let settings := ps !! providerName in
  let inner := settings ≫= pc_settings in
  if truthy_opt (inner ≫= get_opt (js "apiKey")) then Ok true
  else if truthy_opt (inner ≫= get_opt (js "isConfigured")) then Ok true
  else match settings with
       | Some cfg => Ok (negb (default false (isConfigurable (pc_provider cfg))))
       | None => Throw typeError
       end.

(** Lines 66-74 with an empty search text, which lists every model. *)
Definition currentModels (st : SettingsState) : list ModelInfo :=
  let providerName := opt_str_or (p_name <$> selectedProvider st) [] in
  default [] (models st !! providerName).

(** The parent writes the [models] key; the listener of the store runs. *)
Definition setModels (ms : gmap (list N) (list ModelInfo)) (w : World) : World :=
  let st := {| providers := providers (store w);
               models := ms;
               selectedProvider := selectedProvider (store w);
               selectedModel := selectedModel (store w);
               providerSettings := providerSettings (store w) |} in
  {| storage := listener (storage w) st; store := st |}.

(** One event.  [None]: the event cannot happen in this state (the entry
    is not listed, or the model button is disabled, line 145).  With an
    empty search text every provider of the store is listed (lines 61-64);
    a click on a provider that is not configured does nothing (line 125). *)
Definition ui_step (w : World) (e : Event) : option World :=
  match e with
  | ClickProvider p =>
      if bool_decide (p ∈ providers (store w)) then
        match isProviderConfigured (providerSettings (store w)) (p_name p) with
        | Ok true => Some (handleProviderSelect p w).1
        | _ => Some w
        end
      else None
  | ClickModel m =>
      match selectedProvider (store w) with
      | Some _ =>
          if bool_decide (m ∈ currentModels (store w))
          then Some (handleModelSelect (mi_name m) w)
          else None
      | None => None
      end
  | ModelsLoaded ms => Some (setModels ms w)
  end.

Fixpoint run (w : World) (es : list Event) : option World :=
  match es with
  | [] => Some w
  | e :: rest =>
      match ui_step w e with
      | Some w' => run w' rest
      | None => None
      end
  end.

(** The states of the store that a session can reach from the storage
    [ls] it starts with. *)
Definition reachable (ls : Storage) (w : World) : Prop :=
  exists es, run (initialWorld ls) es = Some w.

(** The models the store can offer for a provider: its static models and
    the list the store holds under its name. *)
Definition modelNamesOf (st : SettingsState) (p : Provider) : list jsstring :=
  map mi_name (default [] (staticModels p) ++ default [] (models st !! p_name p)).

(** Section 3, as it is stated: a provider and a model are selected, and
    the model is one of the provider's. *)
Definition selection_invariant (st : SettingsState) : Prop :=
  exists p, selectedProvider st = Some p
            /\ selectedModel st <> []
            /\ selectedModel st ∈ modelNamesOf st p.

(** The providers of the store are those of the registry, and a selected
    provider is one of them. *)
Definition registry_selection (w : World) : Prop :=
  providers (store w) = PROVIDER_LIST
  /\ forall p, selectedProvider (store w) = Some p -> p ∈ PROVIDER_LIST.

End UI.
End Selector.

(* ===================================================================== *)
(** * The statements of the specification                                 *)
(* ===================================================================== *)

(** ** Resolver inputs *)

Section Statements.
Context {host : Host}.

(** The directives of the last message with role [user] of [ms], and
    [cur] when there is none. *)
Definition directivesFrom (cur : Current) (ms : list Message) : Current :=
  match last (filter (fun m => role m = user) ms) with
  | Some m =>
      {| currentModel := ex_model (extractPropertiesFromMessage m);
         currentProvider := ex_provider (extractPropertiesFromMessage m) |}
  | None => cur
  end.

Definition directivesOf (ms : list Message) : Current :=
  directivesFrom initialCurrent ms.

(** The token cap: [maxTokenAllowed] when it is present and not zero,
    [MAX_TOKENS] otherwise. *)
Definition tokenCap (modelDetails : ModelInfo) : Z :=
  match maxTokenAllowed modelDetails with
  | Some n => if bool_decide (n = 0) then MAX_TOKENS else n
  | None => MAX_TOKENS
  end.

(** The prompt and the history that [streamText] has before lines 198-215. *)
Definition beforeContext (props : Props) : jsstring * list Message :=
  (selectSystemPrompt props, (processMessages initialCurrent (messages props)).2).

End Statements.

(** ** Locked files *)

(** [path] is the key of an entry of [entries] that is flagged locked. *)
Definition lockedPath (entries : FileMap) (path : jsstring) : Prop :=
  exists d, (path, d) ∈ entries /\ entryLocked d = true.

(** ** Thought and lock-file markers *)

(** None of the three patterns matches in [c]. *)
Definition marker_free (c : jsstring) : Prop :=
  lazy_match boltThought_open boltThought_close c = None
  /\ lazy_match think_open think_close c = None
  /\ lazy_match lockfile_open lockfile_close c = None.

(** ** The modification tag in the patch prompt *)

Definition tag_open (tag : jsstring) : jsstring := js "<" ++ tag ++ js ">".
Definition tag_close (tag : jsstring) : jsstring := js "</" ++ tag ++ js ">".

(** Letters, digits, [_] and [-]: the characters of a tag name. *)
Definition is_name_char (c : N) : bool :=
  ((48 <=? c) && (c <=? 57) || (65 <=? c) && (c <=? 90)
   || (97 <=? c) && (c <=? 122) || (c =? 95) || (c =? 45))%N.

(** The name characters [s] starts with, and what follows them. *)
Fixpoint name_prefix (s : jsstring) : jsstring :=
  match s with
  | c :: s' => if is_name_char c then c :: name_prefix s' else []
  | [] => []
  end.

Fixpoint after_name (s : jsstring) : jsstring :=
  match s with
  | c :: s' => if is_name_char c then after_name s' else s
  | [] => []
  end.

(** ** Malformed stored JSON, as section 7 states it: the computation
    ends with the default value and has logged the error. *)
Definition recovered_and_logged {A} (m : M A) (defaultValue : A) : Prop :=
  outcome m = Ok defaultValue /\ logs m <> [].

(* ===================================================================== *)
(** * A registry and requests to evaluate the definitions on              *)
(* ===================================================================== *)

Module Demo.

Definition gpt4o : ModelInfo :=
  {| mi_name := js "gpt-4o"; mi_label := js "GPT-4o";
     mi_provider := js "OpenAI"; maxTokenAllowed := Some 16384 |}.

Definition gpt4turbo : ModelInfo :=
  {| mi_name := js "gpt-4-turbo"; mi_label := js "GPT-4 Turbo";
     mi_provider := js "OpenAI"; maxTokenAllowed := None |}.

Definition llama3 : ModelInfo :=
  {| mi_name := js "llama3"; mi_label := js "Llama 3";
     mi_provider := js "Ollama"; maxTokenAllowed := Some 0 |}.

Definition openai : Provider :=
  {| p_name := js "OpenAI"; staticModels := Some [gpt4o; gpt4turbo];
     defaultModel := None; p_models := None; isConfigurable := None |}.

Definition ollama : Provider :=
  {| p_name := js "Ollama"; staticModels := Some [];
     defaultModel := None; p_models := None; isConfigurable := None |}.

(** A stand-in for [extractPropertiesFromMessage]: the content is
    [model|provider|text]. *)
Definition extract (m : Message) : Extracted :=
  match cut (js "|") (content m) with
  | Some (model, rest) =>
      match cut (js "|") rest with
      | Some (provider, text) =>
          {| ex_model := model; ex_provider := provider; ex_content := text |}
      | None =>
          {| ex_model := js "gpt-4o"; ex_provider := js "OpenAI";
             ex_content := content m |}
      end
  | None =>
      {| ex_model := js "gpt-4o"; ex_provider := js "OpenAI";
         ex_content := content m |}
  end.

(** A registry in which Ollama answers with one model when it is given a
    server environment and with none otherwise. *)
Definition host : Host :=
  {| DEFAULT_MODEL := js "gpt-4o";
     DEFAULT_PROVIDER := openai;
     PROVIDER_LIST := [openai; ollama];
     MODIFICATIONS_TAG_NAME := js "bolt_file_modifications";
     WORK_DIR := js "/home/project";
     MAX_TOKENS := 8000;
     allowedHTMLElements := [js "div"; js "span"];
     extractPropertiesFromMessage := extract;
     getModelListFromProvider := fun p creds =>
       if str_eqb (p_name p) (js "Ollama") then
         match c_serverEnv creds with
         | Some _ => Ok [llama3]
         | None => Ok []
         end
       else Ok [];
     getPropmtFromLibrary := fun id _ =>
       if str_eqb id (js "default") then Some (js "LIBRARY PROMPT") else None;
     getSystemPrompt := js "BASELINE PROMPT";
     discussPrompt := js "DISCUSS PROMPT";
     createFilesContext := fun fm _ => join nl (map fst fm);
     convertToCoreMessages := fun ms => ms |}.

(** A stand-in for [JSON.parse] that reads the documents [{}] and [null]
    and throws on anything else. *)
Definition parse (s : jsstring) : option JSON :=
  if str_eqb s (js "{}") then Some (JObj [])
  else if str_eqb s (js "null") then Some JNull
  else None.

Definition userTab : JSON :=
  JObj [(js "id", JStr (js "profile")); (js "window", JStr (js "user"))].
Definition developerTab : JSON :=
  JObj [(js "id", JStr (js "debug")); (js "window", JStr (js "developer"))].

Definition browser : Browser :=
  {| isBrowser := true; JSON_parse := parse;
     DEFAULT_TAB_CONFIG := [userTab; developerTab] |}.

Definition msg (r : Role) (c : string) : Message :=
  {| role := r; content := js c; other := [] |}.

Definition file (locked : bool) : option Dirent :=
  Some {| d_content := js "x"; isLocked := Some locked |}.

(** A request in build mode without files or options. *)
Definition request (ms : list Message) : Props :=
  {| messages := ms; env := None; options := None; apiKeys := None;
     files := None; providerSettings := None; promptId := None;
     contextOptimization := None; contextFiles := None; summary := None;
     messageSliceId := None; chatMode := Some build; designScheme := None |}.

Definition with_files (fm : FileMap) (p : Props) : Props :=
  {| messages := messages p; env := env p; options := options p;
     apiKeys := apiKeys p; files := Some fm;
     providerSettings := providerSettings p; promptId := promptId p;
     contextOptimization := contextOptimization p;
     contextFiles := contextFiles p; summary := summary p;
     messageSliceId := messageSliceId p; chatMode := chatMode p;
     designScheme := designScheme p |}.

Definition with_context (cf : FileMap) (s : option jsstring) (k : option Z)
    (p : Props) : Props :=
  {| messages := messages p; env := env p; options := options p;
     apiKeys := apiKeys p; files := files p;
     providerSettings := providerSettings p; promptId := promptId p;
     contextOptimization := Some true;
     contextFiles := Some cf; summary := s;
     messageSliceId := k; chatMode := chatMode p;
     designScheme := designScheme p |}.

Definition with_options (o : StreamingOptions) (p : Props) : Props :=
  {| messages := messages p; env := env p; options := Some o;
     apiKeys := apiKeys p; files := files p;
     providerSettings := providerSettings p; promptId := promptId p;
     contextOptimization := contextOptimization p;
     contextFiles := contextFiles p; summary := summary p;
     messageSliceId := messageSliceId p; chatMode := chatMode p;
     designScheme := designScheme p |}.

Definition conversation : list Message :=
  [ msg user "gpt-4o|OpenAI|make a button";
    msg assistant "  <think>plan</think>done ";
    msg system "be brief";
    msg user "gpt-5|OpenAI|make it red" ].

Definition lockedFiles : FileMap :=
  [ (js "/home/project/a.ts", file true);
    (js "/home/project/b.ts", file false);
    (js "/home/project/c.ts", file true);
    (js "/home/project/d.ts", None) ].

End Demo.

(* ===================================================================== *)
(** * The settings store: updates and tabs                                *)
(* ===================================================================== *)

Module Updates.
Import Settings.

(** [JSON.stringify] on the values of type [any]. *)
Class Serializer := {
  JSON_stringify : JSON -> jsstring;
}.

(** [JSON.stringify] on a boolean. *)
Definition stringify_bool (b : bool) : jsstring :=
  if b then js "true" else js "false".

(** The atoms of lines 162-166 and 233. *)
Record Atoms := {
  latestBranchStore : bool;
  autoSelectStarterTemplate : bool;
  enableContextOptimizationStore : bool;
  isEventLogsEnabled : bool;
  promptStore : jsstring;
  developerModeStore : bool;
}.

(** A call of one of the update functions of lines 168-187 and 234-239. *)
Inductive Update :=
| UpdateLatestBranch (enabled : bool)
| UpdateAutoSelectTemplate (enabled : bool)
| UpdateContextOptimization (enabled : bool)
| UpdateEventLogs (enabled : bool)
| UpdatePromptId (id : jsstring)
| SetDeveloperMode (value : bool).

(** Equality of two numerals. *)
Definition num_eqb (m1 e1 m2 e2 : Z) : bool :=
  let e := Z.min e1 e2 in
  (m1 * 10 ^ (e1 - e) =? m2 * 10 ^ (e2 - e))%Z.

(** [a === b] on values that may be [undefined].  Objects and arrays are
    equal to themselves only; the identifiers that the store compares
    are strings. *)
Definition strict_eq (a b : option JSON) : bool :=
  match a, b with
  | None, None => true
  | Some JNull, Some JNull => true
  | Some (JBool x), Some (JBool y) => bool_decide (x = y)
  | Some (JNum m1 e1), Some (JNum m2 e2) => num_eqb m1 e1 m2 e2
  | Some (JStr x), Some (JStr y) => str_eqb x y
  | _, _ => false
  end.

(** The value of [tabConfigurationStore] as [JSON.stringify] sees it. *)
Definition tabConfigJSON (c : TabWindowConfig) : JSON :=
  JObj [(js "userTabs", JArr (userTabs c));
        (js "developerTabs", JArr (developerTabs c))].

(** [tabs.map(tab => tab.id === id ? config : tab)] (line 212). *)
Fixpoint replaceTab (config : JSON) (id : option JSON) (tabs : list JSON)
  : result (list JSON) :=
  match tabs with
  | [] => Ok []
  | tab :: rest =>
      match get (js "id") tab with
      | Ok tabId =>
          match replaceTab config id rest with
          | Ok rest' =>
              Ok ((if strict_eq tabId id then config else tab) :: rest')
          | Throw e => Throw e
          end
      | Throw e => Throw e
      end
  end.

(** [tabs.some(tab => tab.id === id)] (line 213). *)
Fixpoint someTab (id : option JSON) (tabs : list JSON) : result bool :=
  match tabs with
  | [] => Ok false
  | tab :: rest =>
      match get (js "id") tab with
      | Ok tabId => if strict_eq tabId id then Ok true else someTab id rest
      | Throw e => Throw e
      end
  end.

(** A call of [updateTabConfiguration] or of [resetTabConfiguration]. *)
Inductive TabOp :=
| UpdateTab (config : JSON)
| ResetTabs.

(** A tab as [TabVisibilityConfig] types it: its [id] is a string and its
    [window] is ['user'] or ['developer']. *)
Definition typedTab (config : JSON) : bool :=
  match get_opt (js "id") config with
  | Some (JStr _) =>
      inWindow (js "user") config || inWindow (js "developer") config
  | _ => false
  end.

(** [tab.id === config.id]. *)
Definition sameId (config tab : JSON) : bool :=
  strict_eq (get_opt (js "id") tab) (get_opt (js "id") config).

(** A list of tabs with [config] put in: in the place of every tab that has
    its [id], and behind the others when no tab has it. *)
Definition putTab (config : JSON) (tabs : list JSON) : list JSON :=
  if existsb (sameId config) tabs
  then map (fun tab => if sameId config tab then config else tab) tabs
  else tabs ++ [config].

Section Ops.
Context {host : Host} {browser : Browser} {serializer : Serializer}.

(** The atoms as lines 162-166 and 233 create them. *)
Definition initialAtoms (ls : Storage) : Atoms :=
  let initialSettings := getInitialSettings ls in
  {| latestBranchStore := latestBranch initialSettings;
     autoSelectStarterTemplate := autoSelectTemplate initialSettings;
     enableContextOptimizationStore := contextOptimization initialSettings;
     isEventLogsEnabled := eventLogs initialSettings;
     promptStore := promptId initialSettings;
     developerModeStore := developerMode initialSettings |}.

(** Lines 168-171.  These functions write [localStorage] without a test
    of [isBrowser]; they are called from the settings panel. *)
Definition updateLatestBranch (enabled : bool) (st : Atoms * Storage)
  : Atoms * Storage :=
  let (a, ls) := st in
  ({| latestBranchStore := enabled;
      autoSelectStarterTemplate := autoSelectStarterTemplate a;
      enableContextOptimizationStore := enableContextOptimizationStore a;
      isEventLogsEnabled := isEventLogsEnabled a;
      promptStore := promptStore a;
      developerModeStore := developerModeStore a |},
   <[LATEST_BRANCH := stringify_bool enabled]> ls).

(** Lines 172-175. *)
Definition updateAutoSelectTemplate (enabled : bool) (st : Atoms * Storage)
  : Atoms * Storage :=
  let (a, ls) := st in
  ({| latestBranchStore := latestBranchStore a;
      autoSelectStarterTemplate := enabled;
      enableContextOptimizationStore := enableContextOptimizationStore a;
      isEventLogsEnabled := isEventLogsEnabled a;
      promptStore := promptStore a;
      developerModeStore := developerModeStore a |},
   <[AUTO_SELECT_TEMPLATE := stringify_bool enabled]> ls).

(** Lines 176-179. *)
Definition updateContextOptimization (enabled : bool) (st : Atoms * Storage)
  : Atoms * Storage :=
  let (a, ls) := st in
  ({| latestBranchStore := latestBranchStore a;
      autoSelectStarterTemplate := autoSelectStarterTemplate a;
      enableContextOptimizationStore := enabled;
      isEventLogsEnabled := isEventLogsEnabled a;
      promptStore := promptStore a;
      developerModeStore := developerModeStore a |},
   <[CONTEXT_OPTIMIZATION := stringify_bool enabled]> ls).

(** Lines 180-183. *)
Definition updateEventLogs (enabled : bool) (st : Atoms * Storage)
  : Atoms * Storage :=
  let (a, ls) := st in
  ({| latestBranchStore := latestBranchStore a;
      autoSelectStarterTemplate := autoSelectStarterTemplate a;
      enableContextOptimizationStore := enableContextOptimizationStore a;
      isEventLogsEnabled := enabled;
      promptStore := promptStore a;
      developerModeStore := developerModeStore a |},
   <[EVENT_LOGS := stringify_bool enabled]> ls).

(** Lines 184-187. *)
Definition updatePromptId (id : jsstring) (st : Atoms * Storage)
  : Atoms * Storage :=
  let (a, ls) := st in
  ({| latestBranchStore := latestBranchStore a;
      autoSelectStarterTemplate := autoSelectStarterTemplate a;
      enableContextOptimizationStore := enableContextOptimizationStore a;
      isEventLogsEnabled := isEventLogsEnabled a;
      promptStore := id;
      developerModeStore := developerModeStore a |},
   <[PROMPT_ID := id]> ls).

(** Lines 234-239. *)
Definition setDeveloperMode (value : bool) (st : Atoms * Storage)
  : Atoms * Storage :=
  let (a, ls) := st in
  ({| latestBranchStore := latestBranchStore a;
      autoSelectStarterTemplate := autoSelectStarterTemplate a;
      enableContextOptimizationStore := enableContextOptimizationStore a;
      isEventLogsEnabled := isEventLogsEnabled a;
      promptStore := promptStore a;
      developerModeStore := value |},
   if isBrowser then <[DEVELOPER_MODE := stringify_bool value]> ls else ls).

Definition applyUpdate (st : Atoms * Storage) (u : Update) : Atoms * Storage :=
  match u with
  | UpdateLatestBranch b => updateLatestBranch b st
  | UpdateAutoSelectTemplate b => updateAutoSelectTemplate b st
  | UpdateContextOptimization b => updateContextOptimization b st
  | UpdateEventLogs b => updateEventLogs b st
  | UpdatePromptId id => updatePromptId id st
  | SetDeveloperMode b => setDeveloperMode b st
  end.

(** Lines 209-219, on [tabConfigurationStore] and [localStorage]. *)
Definition updateTabConfiguration (config : JSON)
    (st : TabWindowConfig * Storage) : result (TabWindowConfig * Storage) :=
  let (currentConfig, ls) := st in
  match get (js "window") config with
  | Throw e => Throw e
  | Ok window =>
      let toUser := strict_eq window (Some (JStr (js "user"))) in
      let target := if toUser then userTabs currentConfig
                    else developerTabs currentConfig in
      match get (js "id") config with
      | Throw e => Throw e
      | Ok id =>
          match replaceTab config id target with
          | Throw e => Throw e
          | Ok updatedTabs =>
              match someTab id updatedTabs with
              | Throw e => Throw e
              | Ok found =>
                  let updatedTabs :=
                    if found then updatedTabs else updatedTabs ++ [config] in
                  let newConfig :=
                    if toUser
                    then {| userTabs := updatedTabs;
                            developerTabs := developerTabs currentConfig |}
                    else {| userTabs := userTabs currentConfig;
                            developerTabs := updatedTabs |} in
                  Ok (newConfig,
                      <[TAB_CONFIGURATION :=
                          JSON_stringify (tabConfigJSON newConfig)]> ls)
              end
          end
      end
  end.

(** Lines 223-230. *)
Definition resetTabConfiguration (st : TabWindowConfig * Storage)
  : TabWindowConfig * Storage :=
  let defaultConfig := defaultTabConfiguration in
  (defaultConfig,
   <[TAB_CONFIGURATION := JSON_stringify (tabConfigJSON defaultConfig)]> st.2).

(** Every tab is listed under its own window. *)
Definition windows_ok (c : TabWindowConfig) : Prop :=
  Forall (fun tab => tabInWindow (js "user") tab = Ok true) (userTabs c)
  /\ Forall (fun tab => tabInWindow (js "developer") tab = Ok true)
       (developerTabs c).

(** Calls of the update functions, one after the other. *)
Definition runUpdates (st : Atoms * Storage) (us : list Update)
  : Atoms * Storage :=
  fold_left applyUpdate us st.

(** What a page that is loaded next makes of the atoms [a]: an empty
    prompt identifier reads as ['default'] (line 120). *)
Definition afterReload (a : Atoms) : Atoms :=
  {| latestBranchStore := latestBranchStore a;
     autoSelectStarterTemplate := autoSelectStarterTemplate a;
     enableContextOptimizationStore := enableContextOptimizationStore a;
     isEventLogsEnabled := isEventLogsEnabled a;
     promptStore := str_or (promptStore a) (js "default");
     developerModeStore := developerModeStore a |}.

Definition applyTabOp (st : TabWindowConfig * Storage) (op : TabOp)
  : result (TabWindowConfig * Storage) :=
  match op with
  | UpdateTab config => updateTabConfiguration config st
  | ResetTabs => Ok (resetTabConfiguration st)
  end.

(** Calls of the two functions, one after the other; an exception ends
    the run. *)
Fixpoint runTabOps (st : TabWindowConfig * Storage) (ops : list TabOp)
  : result (TabWindowConfig * Storage) :=
  match ops with
  | [] => Ok st
  | op :: rest =>
      match applyTabOp st op with
      | Ok st' => runTabOps st' rest
      | Throw e => Throw e
      end
  end.

(** The store of the selector and what a page that is loaded next reads
    from the storage agree: on the selected provider, and on the selected
    model unless it is the empty string. *)
Definition reload_agrees (w : World) : Prop :=
  selectedProvider (initialStore (storage w)) = selectedProvider (store w)
  /\ (selectedModel (store w) <> [] ->
      selectedModel (initialStore (storage w)) = selectedModel (store w)).

End Ops.
End Updates.

(* ===================================================================== *)
(** * More sample data                                                    *)
(* ===================================================================== *)

Module Samples.

(** The registry of [Demo], with a fetch that is always rejected. *)
Definition offline : Host :=
  {| DEFAULT_MODEL := js "gpt-4o";
     DEFAULT_PROVIDER := Demo.openai;
     PROVIDER_LIST := [Demo.openai; Demo.ollama];
     MODIFICATIONS_TAG_NAME := js "bolt_file_modifications";
     WORK_DIR := js "/home/project";
     MAX_TOKENS := 8000;
     allowedHTMLElements := [js "div"; js "span"];
     extractPropertiesFromMessage := Demo.extract;
     getModelListFromProvider := fun _ _ => Throw (MkError (js "fetch failed"));
     getPropmtFromLibrary := fun _ _ => None;
     getSystemPrompt := js "BASELINE PROMPT";
     discussPrompt := js "DISCUSS PROMPT";
     createFilesContext := fun fm _ => join nl (map fst fm);
     convertToCoreMessages := fun ms => ms |}.

(** [Demo.request] with a server environment. *)
Definition with_env (e : list (jsstring * jsstring)) (p : Props) : Props :=
  {| messages := messages p; env := Some e; options := options p;
     apiKeys := apiKeys p; files := files p;
     providerSettings := providerSettings p; promptId := promptId p;
     contextOptimization := contextOptimization p;
     contextFiles := contextFiles p; summary := summary p;
     messageSliceId := messageSliceId p; chatMode := chatMode p;
     designScheme := designScheme p |}.

(** [Demo.request] with another chat mode, or none. *)
Definition with_mode (m : option ChatMode) (p : Props) : Props :=
  {| messages := messages p; env := env p; options := options p;
     apiKeys := apiKeys p; files := files p;
     providerSettings := providerSettings p; promptId := promptId p;
     contextOptimization := contextOptimization p;
     contextFiles := contextFiles p; summary := summary p;
     messageSliceId := messageSliceId p; chatMode := m;
     designScheme := designScheme p |}.

(** A printer for the sample documents: [JSON.stringify] without escapes,
    a number as its mantissa and exponent. *)
Fixpoint print_json (v : JSON) : jsstring :=
  match v with
  | JNull => js "null"
  | JBool b => Updates.stringify_bool b
  | JNum m e =>
      js (NilZero.string_of_int (Z.to_int m)) ++ js "e"
        ++ js (NilZero.string_of_int (Z.to_int e))
  | JStr s => dq ++ s ++ dq
  | JArr items =>
      js "[" ++ join (js ",") (map print_json items) ++ js "]"
  | JObj props =>
      js "{"
        ++ join (js ",")
             (map (fun kv : jsstring * JSON =>
                     dq ++ kv.1 ++ dq ++ js ":" ++ print_json kv.2) props)
        ++ js "}"
  end.

Definition settingsTab : JSON :=
  JObj [(js "id", JStr (js "settings")); (js "window", JStr (js "user"))].

(** [Demo.userTab], hidden. *)
Definition hiddenTab : JSON :=
  JObj [(js "id", JStr (js "profile")); (js "window", JStr (js "user"));
        (js "visible", JBool false)].

(** Stored provider settings: an API key for OpenAI, an entry for a
    provider that the registry does not have. *)
Definition savedProviders : list (jsstring * JSON) :=
  [ (js "OpenAI",
     JObj [(js "settings",
            JObj [(js "enabled", JBool true); (js "apiKey", JStr (js "sk-1"))])]);
    (js "Gone", JObj [(js "settings", JObj [(js "enabled", JBool true)])]) ].

(** The same with a [null] entry for Ollama behind the first entry. *)
Definition brokenProviders : list (jsstring * JSON) :=
  [ (js "OpenAI",
     JObj [(js "settings",
            JObj [(js "enabled", JBool true); (js "apiKey", JStr (js "sk-1"))])]);
    (js "Ollama", JNull);
    (js "Gone", JObj [(js "settings", JObj [(js "enabled", JBool true)])]) ].

(** Stored provider settings with a [null] entry under the name of a
    method of [Object.prototype], in front of an entry for OpenAI. *)
Definition inheritedNull : list (jsstring * JSON) :=
  [ (js "toString", JNull);
    (js "OpenAI",
     JObj [(js "settings",
            JObj [(js "enabled", JBool true); (js "apiKey", JStr (js "sk-1"))])]) ].

(** Stored provider settings with an entry under [__proto__], in front of
    an entry for OpenAI that has no [settings]. *)
Definition pollutedProviders : list (jsstring * JSON) :=
  [ (PROTO, JObj [(js "settings", JObj [(js "apiKey", JStr (js "k"))])]);
    (js "OpenAI", JObj []) ].

(** The documents that the sample [JSON.parse] reads. *)
Definition documents : list JSON :=
  [ JObj [];
    JNull;
    JObj savedProviders;
    JObj brokenProviders;
    JObj inheritedNull;
    JObj pollutedProviders;
    Updates.tabConfigJSON
      {| Settings.userTabs := [Demo.userTab];
         Settings.developerTabs := [Demo.developerTab] |};
    Updates.tabConfigJSON
      {| Settings.userTabs := [Demo.userTab; settingsTab];
         Settings.developerTabs := [Demo.developerTab] |};
    Updates.tabConfigJSON
      {| Settings.userTabs := [hiddenTab];
         Settings.developerTabs := [Demo.developerTab] |} ].

(** A stand-in for [JSON.parse]: it reads what [print_json] prints for one
    of the sample documents and throws on anything else. *)
Definition parse (s : jsstring) : option JSON :=
  find (fun d => str_eqb s (print_json d)) documents.

Definition browser : Browser :=
  {| isBrowser := true; JSON_parse := parse;
     DEFAULT_TAB_CONFIG := [Demo.userTab; Demo.developerTab] |}.

Definition serializer : Updates.Serializer :=
  {| Updates.JSON_stringify := print_json |}.

End Samples.

(* ===================================================================== *)
(** * Proofs                                                              *)
(* ===================================================================== *)

(** ** Computations that log and throw *)

Lemma bind_outcome_Ok {A B} (m : M A) (k : A -> M B) a :
  outcome m = Ok a -> outcome (bind m k) = outcome (k a).
Proof.
  destruct m as [l [a'|e]]; cbn; intros E; inversion E; subst.
  destruct (k a); reflexivity.
Qed.

Lemma bind_outcome_Throw {A B} (m : M A) (k : A -> M B) e :
  outcome m = Throw e -> outcome (bind m k) = Throw e.
Proof. destruct m as [l [a'|e']]; cbn; intros E; inversion E; subst; reflexivity. Qed.

Lemma bind_logs_Ok {A B} (m : M A) (k : A -> M B) a :
  outcome m = Ok a -> logs (bind m k) = logs m ++ logs (k a).
Proof.
  destruct m as [l [a'|e]]; cbn; intros E; inversion E; subst.
  destruct (k a); reflexivity.
Qed.

Lemma bind_Ok_inv {A B} (m : M A) (k : A -> M B) b :
  outcome (bind m k) = Ok b ->
  exists a, outcome m = Ok a /\ outcome (k a) = Ok b.
Proof.
  destruct m as [l [a|e]]; cbn; [|discriminate].
  destruct (k a) eqn:E; cbn. intros ->. exists a. rewrite E. auto.
Qed.

(** ** [find] *)

Lemma findModel_None name (l : list ModelInfo) :
  name ∉ map mi_name l -> find (fun m => str_eqb (mi_name m) name) l = None.
Proof.
  induction l as [|m l IH]; cbn; [reflexivity|].
  intros Hn. rewrite not_elem_of_cons in Hn. destruct Hn as [Hm Hl].
  unfold str_eqb at 1. rewrite bool_decide_eq_false_2 by congruence. auto.
Qed.

Section StreamTextProofs.
Context {host : Host}.

(** ** The callback of [messages.map] *)

Lemma directivesFrom_cons cur m ms :
  directivesFrom cur (m :: ms) = directivesFrom (processMessage cur m).1 ms.
Proof.
  unfold directivesFrom, processMessage.
  rewrite filter_cons.
  destruct (role m) eqn:Hr; cbn [fst]; case_decide; try congruence; try reflexivity.
  rewrite last_cons. destruct (last _); reflexivity.
Qed.

Lemma processMessages_current ms : forall cur,
  (processMessages cur ms).1 = directivesFrom cur ms.
Proof.
  induction ms as [|m ms IH]; intros cur; [reflexivity|].
  rewrite directivesFrom_cons, <- IH.
  cbn [processMessages].
  destruct (processMessage cur m) as [cur1 m']. cbn [fst].
  destruct (processMessages cur1 ms) as [cur2 rest']. reflexivity.
Qed.

(** Messages that are neither of the user nor of the assistant are not
    touched, and no message is dropped or moved. *)
Lemma processMessage_other cur m :
  role m <> user -> role m <> assistant -> processMessage cur m = (cur, m).
Proof. unfold processMessage. destruct (role m); congruence. Qed.

Lemma processMessage_role cur m : role (processMessage cur m).2 = role m.
Proof. unfold processMessage. destruct (role m) eqn:E; cbn; congruence. Qed.

Lemma processMessages_roles ms : forall cur,
  map role (processMessages cur ms).2 = map role ms.
Proof.
  induction ms as [|m ms IH]; intros cur; [reflexivity|].
  cbn [processMessages]. pose proof (processMessage_role cur m) as Hm.
  destruct (processMessage cur m) as [cur1 m']. cbn [snd] in Hm.
  specialize (IH cur1). destruct (processMessages cur1 ms) as [cur2 rest'].
  cbn in *. congruence.
Qed.

(** ** From the resolved model to the call *)

Lemma dynamicMaxTokens_tokenCap md : dynamicMaxTokens md = tokenCap md.
Proof.
  unfold dynamicMaxTokens, tokenCap. destruct (maxTokenAllowed md) as [n|]; [|done].
  destruct (Z.eqb_spec n 0); case_bool_decide; congruence.
Qed.

(** [assemble] does not throw; its logs and its result. *)
Lemma assemble_eq props cur pm provider md :
  assemble props cur pm provider md =
  let st := appendContext props (selectSystemPrompt props, pm) in
  let paths := effectiveLockedFilePaths (files props) in
  let locked := bool_decide (0 < length paths)%nat in
  (InfoMaxTokens (mi_name md) (dynamicMaxTokens md) (maxTokenAllowed md) MAX_TOKENS
     :: (if locked then [] else [LogNoLockedFiles])
     ++ [InfoSendingCall (p_name provider) (mi_name md)],
   Ok {| l_current := cur;
         l_provider := provider;
         l_modelDetails := md;
         l_dynamicMaxTokens := dynamicMaxTokens md;
         l_systemPrompt :=
           if locked then st.1 ++ lockedFilesBlock paths else st.1;
         l_processedMessages := st.2 |}).
Proof.
  unfold assemble, appendLockedFiles.
  destruct (appendContext props (selectSystemPrompt props, pm)) as [sp pm'].
  cbn [fst snd]. case_bool_decide; reflexivity.
Qed.

(** [streamText_locals], with the variables of the callback replaced by
    the directives of the last user message. *)
Lemma streamText_locals_eq props :
  streamText_locals props =
  let cur := directivesOf (messages props) in
  let provider := resolveProvider (currentProvider cur) in
  let* modelDetails :=
    resolveModel (credentialsOf props) provider (currentModel cur) in
  assemble props cur (processMessages initialCurrent (messages props)).2
    provider modelDetails.
Proof.
  unfold streamText_locals, directivesOf.
  rewrite <- processMessages_current.
  destruct (processMessages initialCurrent (messages props)); reflexivity.
Qed.

Lemma streamText_locals_Ok props l :
  outcome (streamText_locals props) = Ok l ->
  let cur := directivesOf (messages props) in
  let provider := resolveProvider (currentProvider cur) in
  exists md,
    outcome (resolveModel (credentialsOf props) provider (currentModel cur)) = Ok md
    /\ outcome (assemble props cur
                  (processMessages initialCurrent (messages props)).2 provider md)
       = Ok l.
Proof. rewrite streamText_locals_eq. cbv zeta. apply bind_Ok_inv. Qed.

Lemma streamText_outcome props l :
  outcome (streamText_locals props) = Ok l ->
  outcome (streamText props) = Ok (sdkCall props l).
Proof. intros Hl. unfold streamText. by rewrite (bind_outcome_Ok _ _ _ Hl). Qed.

(** C9.  The names the resolver is called with are the directives of the
    last message with role [user] (each user message overwrites what the
    one before it set), and [DEFAULT_MODEL] and the name of
    [DEFAULT_PROVIDER] when no message has that role: that is the value of
    [currentModel] and [currentProvider] after [messages.map], and
    [streamText] is the resolver called with it, followed by the rest of
    the function. *)
Theorem resolver_inputs_last_user (props : Props) :
  (processMessages initialCurrent (messages props)).1
  = match last (filter (fun m => role m = user) (messages props)) with
    | Some m =>
        {| currentModel := ex_model (extractPropertiesFromMessage m);
           currentProvider := ex_provider (extractPropertiesFromMessage m) |}
    | None =>
        {| currentModel := DEFAULT_MODEL;
           currentProvider := p_name DEFAULT_PROVIDER |}
    end
  /\ streamText_locals props =
     (let cur := directivesOf (messages props) in
      let provider := resolveProvider (currentProvider cur) in
      let* modelDetails :=
        resolveModel (credentialsOf props) provider (currentModel cur) in
      assemble props cur (processMessages initialCurrent (messages props)).2
        provider modelDetails).
Proof.
  split; [apply processMessages_current | apply streamText_locals_eq].
Qed.

(** C10, amended.  When [streamText] reaches the call of the SDK, the
    token cap it passes is the [maxTokens] property of the caller's
    [options] when there is one, and otherwise [maxTokenAllowed] of the
    resolved model when that is present and not zero, and [MAX_TOKENS]
    when it is absent or zero. *)
Theorem token_cap_unless_overridden (props : Props) (l : Locals) :
  outcome (streamText_locals props) = Ok l ->
  outcome (streamText props) = Ok (sdkCall props l)
  /\ sdk_maxTokens (sdkCall props l)
     = match options props ≫= o_maxTokens with
       | Some overriding => overriding
       | None =>
           Some (match maxTokenAllowed (l_modelDetails l) with
                 | Some n => if bool_decide (n = 0) then MAX_TOKENS else n
                 | None => MAX_TOKENS
                 end)
       end.
Proof.
  intros Hl. split; [by apply streamText_outcome|].
  destruct (streamText_locals_Ok _ _ Hl) as (md & _ & Ha).
  rewrite assemble_eq in Ha. cbn in Ha. injection Ha as <-.
  cbn. destruct (options props ≫= o_maxTokens); [reflexivity|].
  cbn. f_equal. apply dynamicMaxTokens_tokenCap.
Qed.

End StreamTextProofs.

Section ResolverProofs.
Context {host : Host}.

(** The resolver on a model name that none of the provider's models has. *)
Lemma resolveModel_absent creds provider name fetched :
  getModelListFromProvider provider creds = Ok fetched ->
  name ∉ map mi_name (default [] (staticModels provider) ++ fetched) ->
  resolveModel creds provider name =
  match default [] (staticModels provider) ++ fetched with
  | [] => ([], Throw (noModelsFound provider))
  | first :: _ => ([WarnModelNotFound name (p_name provider) (mi_name first)], Ok first)
  end.
Proof.
  intros Hfetch Habsent. unfold resolveModel, findModel.
  rewrite findModel_None.
  2:{ intros Hin. apply Habsent. rewrite map_app, elem_of_app. by left. }
  rewrite Hfetch. cbn.
  rewrite (findModel_None _ _ Habsent).
  destruct (default [] (staticModels provider) ++ fetched) as [|first rest];
    reflexivity.
Qed.

(** C1.  Let the model name that the messages ask for be absent from the
    combined list of the resolved provider (its static models followed by
    the models the registry fetched).  If that list is empty, [streamText]
    throws [No models found for provider] followed by the name of that
    provider.  If it is not, [streamText] does not throw: it goes on with
    the first model of the list, passes its name to the SDK, and the one
    warning it logs is that of the fallback. *)
Theorem resolver_fallback (props : Props) (fetched : list ModelInfo) :
  let cur := directivesOf (messages props) in
  let provider := resolveProvider (currentProvider cur) in
  let modelsList := default [] (staticModels provider) ++ fetched in
  getModelListFromProvider provider (credentialsOf props) = Ok fetched ->
  currentModel cur ∉ map mi_name modelsList ->
  match modelsList with
  | [] =>
      outcome (streamText props)
      = Throw (MkError (js "No models found for provider " ++ p_name provider))
  | first :: _ =>
      exists l,
        outcome (streamText_locals props) = Ok l
        /\ l_provider l = provider
        /\ l_modelDetails l = first
        /\ outcome (streamText props) = Ok (sdkCall props l)
        /\ mr_model (sdk_model (sdkCall props l)) = mi_name first
        /\ List.filter is_warning (logs (streamText props))
           = [WarnModelNotFound (currentModel cur) (p_name provider) (mi_name first)]
  end.
Proof.
  intros cur provider modelsList Hfetch Habsent.
  pose proof (resolveModel_absent _ _ _ _ Hfetch Habsent) as Hres.
  fold modelsList in Hres.
  unfold streamText. rewrite streamText_locals_eq. cbv zeta.
  fold cur provider. rewrite Hres.
  destruct modelsList as [|first rest]; [reflexivity|].
  cbv beta iota delta [bind]. rewrite assemble_eq. cbv zeta.
  eexists. split; [reflexivity|].
  cbn. repeat split; try reflexivity.
  destruct (bool_decide _); reflexivity.
Qed.

End ResolverProofs.

(** At a request whose last user message asks OpenAI for [gpt-5]: the
    call is made with [gpt-4o], the first static model. *)
Lemma resolver_fallback_witness :
  exists l,
    outcome (streamText_locals (host:=Demo.host) (Demo.request Demo.conversation)) = Ok l
    /\ l_provider l = Demo.openai
    /\ l_modelDetails l = Demo.gpt4o
    /\ outcome (streamText (host:=Demo.host) (Demo.request Demo.conversation))
       = Ok (sdkCall (host:=Demo.host) (Demo.request Demo.conversation) l)
    /\ mr_model (sdk_model (sdkCall (host:=Demo.host) (Demo.request Demo.conversation) l))
       = js "gpt-4o"
    /\ List.filter is_warning
         (logs (streamText (host:=Demo.host) (Demo.request Demo.conversation)))
       = [WarnModelNotFound (js "gpt-5") (js "OpenAI") (js "gpt-4o")].
Proof.
  apply (resolver_fallback (host:=Demo.host) (Demo.request Demo.conversation) []).
  - reflexivity.
  - apply (bool_decide_unpack _). vm_compute. exact I.
Defined.

(** Ollama has no static model and, without a server environment, the
    registry fetches none. *)
Example resolver_no_models :
  outcome (streamText (host:=Demo.host)
             (Demo.request [Demo.msg user "llama3|Ollama|hello"]))
  = Throw (MkError (js "No models found for provider Ollama")).
Proof. reflexivity. Qed.

(** At a request whose resolved model is [gpt-4o], without options. *)
Lemma token_cap_unless_overridden_witness :
  exists l,
    outcome (streamText_locals (host:=Demo.host) (Demo.request Demo.conversation)) = Ok l
    /\ outcome (streamText (host:=Demo.host) (Demo.request Demo.conversation))
       = Ok (sdkCall (host:=Demo.host) (Demo.request Demo.conversation) l)
    /\ sdk_maxTokens (sdkCall (host:=Demo.host) (Demo.request Demo.conversation) l)
       = Some 16384.
Proof.
  eexists. split; [vm_compute; reflexivity|].
  apply (token_cap_unless_overridden (host:=Demo.host)
           (Demo.request Demo.conversation)).
  vm_compute. reflexivity.
Defined.

(** C10, as it is stated, fails when the caller's options carry their own
    [maxTokens]: the spread [...options] comes last in the argument of the
    SDK.  The resolved model allows 16384 tokens and the call is made
    with a cap of 1. *)
Lemma token_cap_overridden :
  let props :=
    Demo.with_options
      {| supabaseConnection := None; o_system := None;
         o_maxTokens := Some (Some 1); o_messages := None |}
      (Demo.request Demo.conversation) in
  exists l call,
    outcome (streamText_locals (host:=Demo.host) props) = Ok l
    /\ outcome (streamText (host:=Demo.host) props) = Ok call
    /\ tokenCap (host:=Demo.host) (l_modelDetails l) = 16384
    /\ sdk_maxTokens call = Some 1
    /\ sdk_maxTokens call <> Some (tokenCap (host:=Demo.host) (l_modelDetails l)).
Proof.
  cbv zeta. eexists. eexists.
  split; [vm_compute; reflexivity|].
  split; [vm_compute; reflexivity|].
  cbn [sdk_maxTokens l_modelDetails].
  split; [reflexivity|]. split; [reflexivity|]. discriminate.
Qed.

(** ** Locked files *)

(** The loop of lines 219-225 from a set [acc]: it adds, behind [acc] and
    in the order of [entries], the locked paths that the set does not
    hold yet. *)
Lemma locked_paths_fold (entries : FileMap) : forall acc : list jsstring,
  NoDup acc ->
  let paths :=
    fold_left
      (fun s (e : jsstring * option Dirent) =>
         if entryLocked e.2 then set_add e.1 s else s)
      entries acc in
  exists extra,
    paths = acc ++ extra
    /\ NoDup paths
    /\ extra `sublist_of` map fst entries
    /\ (forall path, path ∈ paths <-> path ∈ acc \/ lockedPath entries path).
Proof.
  induction entries as [|[k d] entries IH]; intros acc Hacc; cbn [fold_left].
  - exists []. rewrite app_nil_r. repeat split; auto.
    + intros [?|(d & Hd & _)]; [done|]. by apply elem_of_nil in Hd.
  - cbn [fst snd].
    assert (Hstep : exists new,
               (if entryLocked d then set_add k acc else acc) = acc ++ new
               /\ NoDup (acc ++ new)
               /\ new `sublist_of` [k]
               /\ (forall path, path ∈ acc ++ new
                                <-> path ∈ acc \/ (path = k /\ entryLocked d = true))).
    { destruct (entryLocked d) eqn:Hd; unfold set_add; [case_bool_decide|].
      - exists []. rewrite app_nil_r. repeat split; auto.
        + apply sublist_nil_l.
        + intros [?|[-> _]]; done.
      - exists [k]. repeat split; auto.
        + apply NoDup_app. repeat split; auto.
          * intros x Hx Hk. apply list_elem_of_singleton in Hk. by subst.
          * apply NoDup_singleton.
        + rewrite elem_of_app, list_elem_of_singleton. tauto.
        + rewrite elem_of_app, list_elem_of_singleton. tauto.
      - exists []. rewrite app_nil_r. repeat split; auto.
        + apply sublist_nil_l.
        + intros [?|[_ ?]]; [done|discriminate]. }
    destruct Hstep as (new & -> & Hnd & Hsub & Hmem).
    destruct (IH _ Hnd) as (extra & Heq & Hnd' & Hsub' & Hmem').
    exists (new ++ extra). rewrite Heq, <- app_assoc. repeat split.
    + by rewrite app_assoc, <- Heq.
    + cbn [map fst]. change (k :: map fst entries) with ([k] ++ map fst entries).
      by apply sublist_app.
    + rewrite app_assoc, <- Heq. intros Hp. apply Hmem' in Hp.
      destruct Hp as [Hp|(d' & Hd' & Hl)].
      * apply Hmem in Hp. destruct Hp as [?|[-> Hl]]; [by left|].
        right. exists d. split; [apply elem_of_cons; by left|done].
      * right. exists d'. split; [apply elem_of_cons; by right|done].
    + rewrite app_assoc, <- Heq. intros Hp. apply Hmem'.
      destruct Hp as [Hp|(d' & Hd' & Hl)].
      * left. apply Hmem. by left.
      * apply elem_of_cons in Hd'. destruct Hd' as [[= -> ->]|Hd'].
        -- left. apply Hmem. by right.
        -- right. by exists d'.
Qed.

Lemma effectiveLockedFilePaths_spec (entries : FileMap) :
  let paths := effectiveLockedFilePaths (Some entries) in
  NoDup paths
  /\ (forall path, path ∈ paths <-> lockedPath entries path)
  /\ paths `sublist_of` map fst entries.
Proof.
  destruct (locked_paths_fold entries [] (NoDup_nil_2))
    as (extra & Heq & Hnd & Hsub & Hmem).
  cbn [effectiveLockedFilePaths]. cbv zeta in *. repeat split.
  - exact Hnd.
  - intros Hp. apply Hmem in Hp. destruct Hp as [Hp|Hp]; [|done].
    by apply elem_of_nil in Hp.
  - intros Hp. apply Hmem. by right.
  - rewrite Heq. exact Hsub.
Qed.

(** When the keys of the file map are distinct, as those of an object
    are, the set lists the locked keys as [Object.entries] orders them. *)
Lemma effectiveLockedFilePaths_distinct_keys (entries : FileMap) :
  NoDup (map fst entries) ->
  effectiveLockedFilePaths (Some entries)
  = map fst (List.filter (fun e => entryLocked e.2) entries).
Proof.
  intros Hkeys. cbn [effectiveLockedFilePaths].
  enough (Hgen : forall acc,
             (forall k, k ∈ acc -> k ∉ map fst entries) ->
             fold_left
               (fun s (e : jsstring * option Dirent) =>
                  if entryLocked e.2 then set_add e.1 s else s)
               entries acc
             = acc ++ map fst (List.filter (fun e => entryLocked e.2) entries)).
  { apply (Hgen []). intros k Hk. by apply elem_of_nil in Hk. }
  induction entries as [|[k d] entries IH]; intros acc Hacc; cbn.
  - by rewrite app_nil_r.
  - cbn in Hkeys. apply NoDup_cons in Hkeys as [Hk Hkeys].
    destruct (entryLocked d).
    + unfold set_add. rewrite bool_decide_eq_false_2.
      2:{ intros Hin. apply (Hacc _ Hin). cbn. apply elem_of_cons. by left. }
      rewrite IH; [by rewrite <- app_assoc|done|].
      intros k' Hk'. apply elem_of_app in Hk' as [Hk'|Hk'].
      * intros Hin. apply (Hacc _ Hk'). cbn. apply elem_of_cons. by right.
      * apply list_elem_of_singleton in Hk'. by subst.
    + apply IH; [done|]. intros k' Hk' Hin.
      apply (Hacc _ Hk'). cbn. apply elem_of_cons. by right.
Qed.

Section PromptProofs.
Context {host : Host}.

Lemma streamText_locals_prompt props l :
  outcome (streamText_locals props) = Ok l ->
  let st := appendContext props (beforeContext props) in
  let paths := effectiveLockedFilePaths (files props) in
  l_processedMessages l = st.2
  /\ l_systemPrompt l
     = if bool_decide (0 < length paths)%nat
       then st.1 ++ lockedFilesBlock paths else st.1.
Proof.
  intros Hl. destruct (streamText_locals_Ok _ _ Hl) as (md & _ & Ha).
  rewrite assemble_eq in Ha. cbn in Ha. injection Ha as <-. by split.
Qed.

(** C4.  In every chat mode, when an entry of the file map is flagged
    locked, the system prompt ends with the notice of line 231: it is the
    prompt as the mode and the context step left it, followed by the
    notice and by nothing else.  The notice lists one line for each path
    of the set; every path is in the set once, the set holds the keys of
    the locked entries and nothing else, and it lists them in the order in
    which the file map enumerates them. *)
Theorem locked_files_notice_last (props : Props) (entries : FileMap) (l : Locals) :
  files props = Some entries ->
  (exists path, lockedPath entries path) ->
  outcome (streamText_locals props) = Ok l ->
  let paths := effectiveLockedFilePaths (files props) in
  l_systemPrompt l
  = (appendContext props (beforeContext props)).1
    ++ nl ++ nl
    ++ js "IMPORTANT: The following files are locked and MUST NOT be modified in any way. Do not suggest or make any changes to these files. You can proceed with the request but DO NOT make any changes to these files specifically:"
    ++ nl ++ join nl (map (fun filePath => js "- " ++ filePath) paths)
    ++ nl ++ js "---"
  /\ NoDup paths
  /\ (forall path, path ∈ paths <-> lockedPath entries path)
  /\ paths `sublist_of` map fst entries.
Proof.
  intros Hfiles [path Hlocked] Hl paths.
  destruct (streamText_locals_prompt _ _ Hl) as [_ Hprompt].
  unfold paths in *. rewrite Hfiles in *.
  destruct (effectiveLockedFilePaths_spec entries) as (Hnd & Hmem & Hsub).
  cbv zeta in *. split; [|split; [exact Hnd|split; [exact Hmem|exact Hsub]]].
  rewrite Hprompt, bool_decide_eq_true_2.
  - reflexivity.
  - apply Hmem in Hlocked.
    destruct (effectiveLockedFilePaths (Some entries)); [|cbn; lia].
    by apply elem_of_nil in Hlocked.
Qed.

(** ** Context buffer and summary *)

(** An empty summary counts as none, and an index of zero as none. *)
Lemma appendContext_empty_summary props st cf :
  contextEnabled props = Some cf ->
  summary props = Some [] ->
  appendContext props st
  = (st.1 ++ contextBufferBlock (createFilesContext cf true), st.2).
Proof.
  intros Hc Hs. unfold appendContext, truthySummary. destruct st.
  by rewrite Hc, Hs.
Qed.

Lemma appendContext_zero_index props st cf s :
  contextEnabled props = Some cf ->
  truthySummary props = Some s ->
  messageSliceId props = Some 0 ->
  appendContext props st
  = (st.1 ++ contextBufferBlock (createFilesContext cf true) ++ chatSummaryBlock s,
     keepLast st.2).
Proof.
  intros Hc Hs Hk. unfold appendContext, truthySliceId. destruct st.
  rewrite Hc, Hs, Hk. cbn. by rewrite <- app_assoc.
Qed.

Lemma slice_from_positive {A} (k : Z) (xs : list A) :
  0 < k -> slice_from k xs = drop (Z.to_nat k) xs.
Proof.
  intros Hk. unfold slice_from.
  destruct (k <? 0) eqn:Hneg; [apply Z.ltb_lt in Hneg; lia|].
  destruct (Z_le_gt_dec k (Z.of_nat (length xs))) as [Hle|Hgt].
  - by rewrite Z.min_l.
  - rewrite Z.min_r by lia. rewrite Nat2Z.id.
    rewrite !drop_ge; [reflexivity|lia|lia].
Qed.

Lemma slice_from_negative {A} (k : Z) (xs : list A) :
  k < 0 -> slice_from k xs = drop (length xs - Z.to_nat (- k)) xs.
Proof.
  intros Hk. unfold slice_from.
  destruct (k <? 0) eqn:Hneg; [|apply Z.ltb_ge in Hneg; lia].
  f_equal. lia.
Qed.

Lemma keepLast_last (ms : list Message) :
  keepLast ms = match last ms with Some m => [m] | None => [] end.
Proof.
  unfold keepLast. destruct (last ms) eqn:Hl; [reflexivity|].
  by apply last_None in Hl.
Qed.

(** C5, amended.  In build and patch mode, when [contextOptimization] is
    true and [contextFiles] is supplied, [streamText] appends the context
    buffer of line 201 to the system prompt, whatever the summary and the
    index are.  Without a summary (or with the empty string for one)
    nothing more is appended here and the messages are not cut.  With a
    summary that is not the empty string the chat summary block of line
    204 follows the buffer, and the processed messages are cut to the
    slice that starts at [messageSliceId] when that is supplied and is not
    zero (from the front for a positive index, from the end for a
    negative one), and to the last message when no index is supplied.  In
    discuss mode or without a chat mode, or when [contextOptimization] is
    not true or [contextFiles] is absent, nothing is appended here and the
    messages are not cut.  Behind this step only the notice of the locked
    files is appended. *)
Theorem context_buffer_and_summary (props : Props) (l : Locals) :
  outcome (streamText_locals props) = Ok l ->
  let processed := (processMessages initialCurrent (messages props)).2 in
  let buffer (cf : FileMap) : jsstring :=
    nl ++ nl
       ++ js "Below is the artifact containing the context loaded into context buffer for you to have knowledge of and might need changes to fullfill current user request."
       ++ nl ++ js "CONTEXT BUFFER:" ++ nl ++ js "---" ++ nl
       ++ createFilesContext cf true ++ nl ++ js "---" in
  let chatSummary (s : jsstring) : jsstring :=
    nl ++ nl ++ js "_below is the chat history till now_" ++ nl
       ++ js "CHAT SUMMARY:" ++ nl ++ js "---" ++ nl ++ s ++ nl ++ js "---" in
  exists notice,
    (notice = []
     \/ notice = lockedFilesBlock (effectiveLockedFilePaths (files props)))
    /\ (forall cf,
          chatMode props = Some build \/ chatMode props = Some patch ->
          contextOptimization props = Some true ->
          contextFiles props = Some cf ->
          (selectSystemPrompt props ++ buffer cf) `prefix_of` l_systemPrompt l
          /\ (summary props = None \/ summary props = Some [] ->
              l_systemPrompt l = selectSystemPrompt props ++ buffer cf ++ notice
              /\ l_processedMessages l = processed)
          /\ (forall s,
                summary props = Some s -> s <> [] ->
                l_systemPrompt l
                = selectSystemPrompt props ++ buffer cf ++ chatSummary s ++ notice
                /\ (forall k, messageSliceId props = Some k -> 0 < k ->
                      l_processedMessages l = drop (Z.to_nat k) processed)
                /\ (forall k, messageSliceId props = Some k -> k < 0 ->
                      l_processedMessages l
                      = drop (length processed - Z.to_nat (- k)) processed)
                /\ (messageSliceId props = None ->
                      l_processedMessages l
                      = match last processed with
                        | Some lastMessage => [lastMessage]
                        | None => []
                        end)))
    /\ (chatMode props = Some discuss \/ chatMode props = None
        \/ contextOptimization props <> Some true \/ contextFiles props = None ->
        l_systemPrompt l = selectSystemPrompt props ++ notice
        /\ l_processedMessages l = processed).
Proof.
  intros Hl processed buffer chatSummary.
  destruct (streamText_locals_prompt _ _ Hl) as [Hm Hp]. cbv zeta in Hm, Hp.
  set (paths := effectiveLockedFilePaths (files props)) in *.
  exists (if bool_decide (0 < length paths)%nat then lockedFilesBlock paths else []).
  assert (Hprompt : l_systemPrompt l
                    = (appendContext props (beforeContext props)).1
                      ++ (if bool_decide (0 < length paths)%nat
                          then lockedFilesBlock paths else [])).
  { rewrite Hp. destruct (bool_decide _); [reflexivity|by rewrite app_nil_r]. }
  clear Hp. split; [destruct (bool_decide _); auto|].
  generalize dependent (if bool_decide (0 < length paths)%nat
                        then lockedFilesBlock paths else []).
  intros notice Hprompt.
  unfold beforeContext in Hm, Hprompt. fold processed in Hm, Hprompt.
  unfold appendContext, contextEnabled, truthySummary, truthySliceId,
    contextBufferBlock, chatSummaryBlock in Hm, Hprompt.
  subst buffer chatSummary. cbv beta.
  split.
  - intros cf Hmode Hopt Hcf. rewrite Hopt, Hcf in Hm, Hprompt.
    assert (Hsel : match chatMode props with
                   | Some discuss => None
                   | Some build => Some cf
                   | Some patch => Some cf
                   | None => None
                   end = Some cf) by (destruct Hmode as [-> | ->]; reflexivity).
    rewrite Hsel in Hm, Hprompt. clear Hsel. split; [|split].
    + rewrite Hprompt.
      destruct (summary props) as [[|c s]|]; cbn [str_truthy fst];
        try (destruct (match messageSliceId props with
                       | Some k => if k =? 0 then None else Some k
                       | None => None
                       end)); cbn [fst];
        rewrite <- ?app_assoc; eexists; rewrite <- ?app_assoc; reflexivity.
    + intros Hnone. rewrite Hprompt, Hm.
      destruct Hnone as [-> | ->]; cbn [str_truthy fst snd];
        by rewrite <- ?app_assoc.
    + intros s Hs Hne. rewrite Hs in Hm, Hprompt.
      destruct s as [|c s]; [done|]. cbn [str_truthy] in Hm, Hprompt.
      split; [|split; [|split]].
      * rewrite Hprompt.
        destruct (match messageSliceId props with
                  | Some k => if k =? 0 then None else Some k
                  | None => None
                  end); cbn [fst]; by rewrite <- ?app_assoc.
      * intros k Hk Hpos. rewrite Hm, Hk.
        destruct (Z.eqb_spec k 0); [lia|]. cbn [snd].
        by apply slice_from_positive.
      * intros k Hk Hneg. rewrite Hm, Hk.
        destruct (Z.eqb_spec k 0); [lia|]. cbn [snd].
        by apply slice_from_negative.
      * intros Hk. rewrite Hm, Hk. cbn [snd]. apply keepLast_last.
  - intros Hoff.
    assert (Hnone : match chatMode props, contextFiles props, contextOptimization props with
                    | Some build, Some cf, Some true => Some cf
                    | Some patch, Some cf, Some true => Some cf
                    | _, _, _ => None
                    end = None).
    { destruct Hoff as [->|[->|[H|H]]]; [done|done|..].
      - destruct (chatMode props) as [[]|]; try done;
          destruct (contextFiles props); try done;
          destruct (contextOptimization props) as [[]|]; done.
      - rewrite H. by destruct (chatMode props) as [[]|]. }
    rewrite Hnone in Hm, Hprompt. by split.
Qed.

End PromptProofs.

(** At a request with four entries in its file map, two of them locked. *)
Lemma locked_files_notice_last_witness :
  let props := Demo.with_files Demo.lockedFiles (Demo.request Demo.conversation) in
  exists l,
    outcome (streamText_locals (host:=Demo.host) props) = Ok l
    /\ l_systemPrompt l
       = js "LIBRARY PROMPT" ++ nl ++ nl
         ++ js "IMPORTANT: The following files are locked and MUST NOT be modified in any way. Do not suggest or make any changes to these files. You can proceed with the request but DO NOT make any changes to these files specifically:"
         ++ nl ++ js "- /home/project/a.ts" ++ nl ++ js "- /home/project/c.ts"
         ++ nl ++ js "---".
Proof.
  cbv zeta. eexists. split; [vm_compute; reflexivity|].
  refine (proj1 (locked_files_notice_last (host:=Demo.host)
                   (Demo.with_files Demo.lockedFiles (Demo.request Demo.conversation))
                   Demo.lockedFiles _ eq_refl _ _)).
  - exists (js "/home/project/a.ts"), (Demo.file true).
    split; [apply elem_of_cons; by left|reflexivity].
  - vm_compute. reflexivity.
Defined.

(** At a request in build mode with a context file, a summary and the
    index 2: the last two of the four messages are kept. *)
Lemma context_buffer_and_summary_witness :
  let props :=
    Demo.with_context [(js "a.ts", Demo.file false)] (Some (js "S")) (Some 2)
      (Demo.request Demo.conversation) in
  exists l,
    outcome (streamText_locals (host:=Demo.host) props) = Ok l
    /\ map content (l_processedMessages l) = [js "be brief"; js "make it red"].
Proof.
  cbv zeta.
  pose proof (context_buffer_and_summary (host:=Demo.host)
                (Demo.with_context [(js "a.ts", Demo.file false)]
                   (Some (js "S")) (Some 2) (Demo.request Demo.conversation)))
    as Hthm.
  destruct (outcome (streamText_locals (host:=Demo.host) _)) as [l|e] eqn:Hout;
    [|vm_compute in Hout; discriminate].
  exists l. split; [reflexivity|].
  destruct (Hthm l eq_refl) as (notice & _ & Hon & _).
  destruct (Hon [(js "a.ts", Demo.file false)] (or_introl eq_refl) eq_refl eq_refl)
    as (_ & _ & Hsum).
  destruct (Hsum (js "S") eq_refl) as (_ & Hpos & _); [discriminate|].
  rewrite (Hpos 2 eq_refl) by lia. vm_compute. reflexivity.
Defined.

(** C5, as it is stated, fails on a supplied index of zero and on a
    supplied summary that is empty.  With the index 0 the slice that
    starts there is the whole history of four messages, and lines 206-212
    keep the last message only; with the summary [""] the prompt ends with
    the context buffer, without a chat summary block, and nothing is
    cut. *)
Lemma context_zero_index_empty_summary :
  let zero :=
    Demo.with_context [(js "a.ts", Demo.file false)] (Some (js "S")) (Some 0)
      (Demo.request Demo.conversation) in
  let empty :=
    Demo.with_context [(js "a.ts", Demo.file false)] (Some []) None
      (Demo.request Demo.conversation) in
  (exists l,
     outcome (streamText_locals (host:=Demo.host) zero) = Ok l
     /\ map content (l_processedMessages l) = [js "make it red"]
     /\ map content
          (drop (Z.to_nat 0)
             (processMessages (host:=Demo.host) (initialCurrent (host:=Demo.host))
                (messages zero)).2)
        = [js "make a button"; js "done"; js "be brief"; js "make it red"])
  /\ (exists l,
        outcome (streamText_locals (host:=Demo.host) empty) = Ok l
        /\ l_systemPrompt l
           = js "LIBRARY PROMPT" ++ nl ++ nl
             ++ js "Below is the artifact containing the context loaded into context buffer for you to have knowledge of and might need changes to fullfill current user request."
             ++ nl ++ js "CONTEXT BUFFER:" ++ nl ++ js "---" ++ nl ++ js "a.ts"
             ++ nl ++ js "---"
        /\ includes (l_systemPrompt l) (js "CHAT SUMMARY:") = false
        /\ map content (l_processedMessages l)
           = [js "make a button"; js "done"; js "be brief"; js "make it red"]).
Proof.
  cbv zeta. split.
  - eexists. split; [vm_compute; reflexivity|]. split; vm_compute; reflexivity.
  - eexists. split; [vm_compute; reflexivity|].
    split; [vm_compute; reflexivity|]. split; vm_compute; reflexivity.
Qed.

(** ** Strings: prefixes, cuts and matches *)

Section StringProofs.
Implicit Types p s pre post o c r : jsstring.

Lemma is_prefix_length p s : is_prefix p s = true -> (length p <= length s)%nat.
Proof.
  revert s. induction p as [|a p IH]; intros [|b s]; cbn; try lia; try discriminate.
  intros [_ Hp]%andb_prop. specialize (IH _ Hp). lia.
Qed.

Lemma is_prefix_app_r p s r : is_prefix p s = true -> is_prefix p (s ++ r) = true.
Proof.
  revert s. induction p as [|a p IH]; intros [|b s]; cbn; try done.
  intros [-> Hp]%andb_prop. cbn. auto.
Qed.

Lemma is_prefix_app_l p s r :
  (length p <= length s)%nat -> is_prefix p (s ++ r) = is_prefix p s.
Proof.
  revert s. induction p as [|a p IH]; intros [|b s]; cbn; try done; try lia.
  intros Hl. rewrite IH by lia. reflexivity.
Qed.

Lemma is_prefix_spec p s : is_prefix p s = true -> s = p ++ drop (length p) s.
Proof.
  revert s. induction p as [|a p IH]; intros [|b s]; cbn; try done.
  intros [Hab Hp]%andb_prop. apply N.eqb_eq in Hab. subst b.
  f_equal. apply IH, Hp.
Qed.

Lemma cut_spec p s pre post : cut p s = Some (pre, post) -> s = pre ++ p ++ post.
Proof.
  revert pre post. induction s as [|x s IH]; intros pre post; cbn [cut].
  - destruct p as [|a p]; cbn; [|discriminate]. by intros [= <- <-].
  - destruct (is_prefix p (x :: s)) eqn:Hp.
    + intros [= <- <-]. apply is_prefix_spec, Hp.
    + destruct (cut p s) as [[pre' post']|] eqn:Hc; [|discriminate].
      intros [= <- <-]. cbn. f_equal. by apply IH.
Qed.

Lemma cut_drop p s pre post :
  cut p s = Some (pre, post) -> post = drop (length pre + length p) s.
Proof.
  intros Hc. rewrite (cut_spec _ _ _ _ Hc) at 1.
  rewrite app_assoc, drop_app_length'; [reflexivity|].
  rewrite length_app. lia.
Qed.

Lemma cut_None_cons p x s : cut p (x :: s) = None -> cut p s = None.
Proof.
  cbn [cut]. destruct (is_prefix p (x :: s)); [discriminate|].
  destruct (cut p s) as [[? ?]|]; [discriminate|reflexivity].
Qed.

Lemma cut_None_drop p s n : cut p s = None -> cut p (drop n s) = None.
Proof.
  revert s. induction n as [|n IH]; intros s Hs; [by rewrite drop_0|].
  destruct s as [|x s]; [exact Hs|]. cbn. apply IH. eapply cut_None_cons, Hs.
Qed.

(** The first occurrence in [s] is the first occurrence in [s ++ r]. *)
Lemma cut_app_Some p s r pre post :
  cut p s = Some (pre, post) -> cut p (s ++ r) = Some (pre, post ++ r).
Proof.
  revert pre post. induction s as [|x s IH]; intros pre post; cbn [cut app].
  - destruct p as [|a p]; cbn; [|discriminate]. intros [= <- <-].
    destruct r; reflexivity.
  - change (x :: s ++ r) with ((x :: s) ++ r).
    destruct (is_prefix p (x :: s)) eqn:Hp.
    + intros [= <- <-].
      rewrite (is_prefix_app_r _ _ r Hp).
      rewrite drop_app_le by (apply is_prefix_length, Hp). reflexivity.
    + destruct (cut p s) as [[pre' post']|] eqn:Hc; [|discriminate].
      intros [= <- <-].
      rewrite (IH _ _ eq_refl).
      rewrite is_prefix_app_l, Hp; [reflexivity|].
      apply cut_spec in Hc. rewrite Hc. cbn. rewrite !length_app. lia.
Qed.

Lemma cut_None_app p s r : cut p (s ++ r) = None -> cut p s = None.
Proof.
  intros Hn. destruct (cut p s) as [[pre post]|] eqn:Hc; [|reflexivity].
  rewrite (cut_app_Some _ _ r _ _ Hc) in Hn. discriminate.
Qed.

(** A string without a match has none in any of its parts. *)
Lemma lazy_match_None_cons o c x s :
  lazy_match o c (x :: s) = None -> lazy_match o c s = None.
Proof.
  unfold lazy_match. cbn [cut].
  destruct (is_prefix o (x :: s)) eqn:Hp.
  - intros Hn.
    destruct (cut c (drop (length o) (x :: s))) as [[? ?]|] eqn:Hc; [discriminate|].
    destruct (cut o s) as [[pre rest]|] eqn:Ho; [|reflexivity].
    apply cut_drop in Ho. subst rest.
    replace (drop (length pre + length o) s)
      with (drop (S (length pre)) (drop (length o) (x :: s))).
    + rewrite cut_None_drop by exact Hc. reflexivity.
    + rewrite drop_drop. replace (length o + S (length pre))%nat
        with (S (length pre + length o)) by lia. reflexivity.
  - destruct (cut o s) as [[pre rest]|]; [|reflexivity].
    destruct (cut c rest) as [[? ?]|]; [discriminate|reflexivity].
Qed.

Lemma lazy_match_None_app o c s r :
  lazy_match o c (s ++ r) = None -> lazy_match o c s = None.
Proof.
  unfold lazy_match.
  destruct (cut o s) as [[pre rest]|] eqn:Ho; [|reflexivity].
  rewrite (cut_app_Some _ _ r _ _ Ho).
  destruct (cut c (rest ++ r)) as [[? ?]|] eqn:Hc; [discriminate|].
  intros _. rewrite (cut_None_app _ _ _ Hc). reflexivity.
Qed.

Lemma lazy_match_None_part o c l m r :
  lazy_match o c (l ++ m ++ r) = None -> lazy_match o c m = None.
Proof.
  induction l as [|x l IH]; cbn [app].
  - apply lazy_match_None_app.
  - intros Hn. apply IH. eapply lazy_match_None_cons, Hn.
Qed.

(** What a match leaves behind it is shorter than the string, so the
    bound [length s] of [replace_all] never cuts the replacement short. *)
Lemma lazy_match_shorter o c s pre post :
  o <> [] -> lazy_match o c s = Some (pre, post) ->
  (length post < length s)%nat.
Proof.
  intros Ho. unfold lazy_match.
  destruct (cut o s) as [[pre' rest]|] eqn:Hcut; [|discriminate].
  destruct (cut c rest) as [[mid post']|] eqn:Hcut'; [|discriminate].
  intros [= <- <-].
  apply cut_spec in Hcut, Hcut'. subst s rest. rewrite !length_app.
  destruct o; [done|]. cbn. lia.
Qed.

Lemma replace_all_upto_enough o c r : o <> [] -> forall n m s,
  (length s <= n)%nat -> (length s <= m)%nat ->
  replace_all_upto n o c r s = replace_all_upto m o c r s.
Proof.
  intros Ho. induction n as [|n IH]; intros m s Hn Hm.
  - destruct s; [|cbn in Hn; lia].
    destruct m; [reflexivity|]. cbn. unfold lazy_match. cbn.
    destruct o; [done|reflexivity].
  - destruct m as [|m].
    + destruct s; [|cbn in Hm; lia]. cbn. unfold lazy_match. cbn.
      destruct o; [done|reflexivity].
    + cbn. destruct (lazy_match o c s) as [[pre post]|] eqn:Hm'; [|reflexivity].
      pose proof (lazy_match_shorter _ _ _ _ _ Ho Hm').
      do 2 f_equal. apply IH; lia.
Qed.

Lemma replace_all_unfold o c r s :
  o <> [] ->
  replace_all o c r s =
  match lazy_match o c s with
  | Some (pre, post) => pre ++ r ++ replace_all o c r post
  | None => s
  end.
Proof.
  intros Ho. unfold replace_all.
  destruct (lazy_match o c s) as [[pre post]|] eqn:Hm.
  - pose proof (lazy_match_shorter _ _ _ _ _ Ho Hm).
    destruct (length s) as [|n] eqn:Hl; [lia|]. cbn. rewrite Hm.
    do 2 f_equal. apply replace_all_upto_enough; [done|lia|lia].
  - destruct (length s); cbn; [reflexivity|]. by rewrite Hm.
Qed.

Lemma replace_first_None o c r s :
  lazy_match o c s = None -> replace_first o c r s = s.
Proof. unfold replace_first. by intros ->. Qed.

Lemma replace_all_None o c r s :
  lazy_match o c s = None -> replace_all o c r s = s.
Proof.
  unfold replace_all. destruct (length s); cbn; [reflexivity|]. by intros ->.
Qed.

(** ** [trim] *)

Lemma trim_start_spec s : exists l, s = l ++ trim_start s.
Proof.
  induction s as [|x s [l IH]]; cbn.
  - by exists [].
  - destruct (is_ws x); [|by exists []].
    exists (x :: l). cbn. by f_equal.
Qed.

Lemma trim_end_spec s : exists r, s = trim_end s ++ r.
Proof.
  unfold trim_end. destruct (trim_start_spec (rev s)) as [l Hl].
  exists (rev l). rewrite <- rev_app_distr, <- Hl. by rewrite rev_involutive.
Qed.

Lemma trim_spec s : exists l r, s = l ++ trim s ++ r.
Proof.
  unfold trim. destruct (trim_start_spec s) as [l Hl].
  destruct (trim_end_spec (trim_start s)) as [r Hr].
  exists l, r. by rewrite <- Hr.
Qed.

Lemma trim_start_idem s : trim_start (trim_start s) = trim_start s.
Proof.
  induction s as [|x s IH]; cbn; [reflexivity|].
  destruct (is_ws x) eqn:Hx; [exact IH|]. cbn. by rewrite Hx.
Qed.

Lemma trim_start_snoc l x :
  is_ws x = false -> trim_start (l ++ [x]) = trim_start l ++ [x].
Proof.
  intros Hx. induction l as [|y l IH]; cbn.
  - by rewrite Hx.
  - destruct (is_ws y); [exact IH|reflexivity].
Qed.

Lemma trim_end_cons x s : is_ws x = false -> trim_end (x :: s) = x :: trim_end s.
Proof.
  intros Hx. unfold trim_end. cbn [rev].
  rewrite trim_start_snoc by exact Hx. rewrite rev_app_distr. reflexivity.
Qed.

Lemma trim_end_idem s : trim_end (trim_end s) = trim_end s.
Proof. unfold trim_end. by rewrite rev_involutive, trim_start_idem. Qed.

Lemma trim_start_trim s : trim_start (trim s) = trim s.
Proof.
  unfold trim. destruct (trim_start s) as [|x t] eqn:Ht; [reflexivity|].
  assert (Hx : is_ws x = false).
  { clear -Ht. induction s as [|y s IH]; cbn in Ht; [discriminate|].
    destruct (is_ws y) eqn:Hy; [auto|]. by injection Ht as -> _. }
  rewrite trim_end_cons by exact Hx. cbn. by rewrite Hx.
Qed.

Lemma trim_idem s : trim (trim s) = trim s.
Proof.
  unfold trim at 1. rewrite trim_start_trim. unfold trim. apply trim_end_idem.
Qed.

(** ** Every lock-file block is collapsed *)

Lemma is_prefix_cons_ne a q x s : a <> x -> is_prefix (a :: q) (x :: s) = false.
Proof. intros Hne. cbn. destruct (N.eqb_spec a x); [done|reflexivity]. Qed.

(** No occurrence starts before the cut. *)
Lemma cut_first p s pre post :
  cut p s = Some (pre, post) ->
  forall i, (i < length pre)%nat -> is_prefix p (drop i s) = false.
Proof.
  revert pre post. induction s as [|x s IH]; intros pre post; cbn [cut].
  - destruct (is_prefix p []); [|discriminate]. intros [= <- <-] i Hi. cbn in Hi. lia.
  - destruct (is_prefix p (x :: s)) eqn:Hp.
    + intros [= <- <-] i Hi. cbn in Hi. lia.
    + destruct (cut p s) as [[pre' post']|] eqn:Hc; [|discriminate].
      intros [= <- <-] i Hi. destruct i as [|i]; [exact Hp|].
      cbn in *. eapply IH; [reflexivity|lia].
Qed.

(** A cut behind a stretch in which no occurrence starts. *)
Lemma cut_app_shift p l s :
  (forall i, (i < length l)%nat -> is_prefix p (drop i (l ++ s)) = false) ->
  cut p (l ++ s)
  = match cut p s with
    | Some (pre, post) => Some (l ++ pre, post)
    | None => None
    end.
Proof.
  induction l as [|x l IH]; intros Hl; cbn [app].
  - destruct (cut p s) as [[? ?]|]; reflexivity.
  - cbn [cut].
    pose proof (Hl 0%nat ltac:(cbn; lia)) as H0. cbn in H0. rewrite H0.
    rewrite IH.
    + destruct (cut p s) as [[? ?]|]; reflexivity.
    + intros i Hi. apply (Hl (S i)). cbn. lia.
Qed.

(** A pattern that is a prefix of [l ++ x :: s] and longer than [l]
    holds [x]. *)
Lemma is_prefix_inner p l x s :
  is_prefix p (l ++ x :: s) = true -> (length l < length p)%nat -> x ∈ p.
Proof.
  revert p. induction l as [|y l IH]; intros [|a p]; cbn; try lia.
  - intros [Ha _]%andb_prop _. apply N.eqb_eq in Ha. subst.
    apply elem_of_cons. by left.
  - intros [_ Hp]%andb_prop Hl. apply elem_of_cons. right. apply IH; [done|lia].
Qed.

(** When the replacement cannot be taken for the start of a block (its
    first character is not in the opening pattern, and the first character
    of the opening pattern is not in it), no block is left behind
    [replace_all]. *)
Lemma replace_all_complete a o' c b r' : forall s,
  a ∉ b :: r' -> b ∉ a :: o' ->
  lazy_match (a :: o') c (replace_all (a :: o') c (b :: r') s) = None.
Proof.
  intros s Har Hbo.
  assert (Hne : a :: o' <> []) by done.
  remember (length s) as n eqn:Hn. revert s Hn.
  induction (lt_wf n) as [n _ IH]. intros s ->.
  rewrite replace_all_unfold by done.
  destruct (lazy_match (a :: o') c s) as [[pre post]|] eqn:Hm; [|exact Hm].
  pose proof (lazy_match_shorter _ _ _ _ _ Hne Hm) as Hshort.
  specialize (IH _ Hshort post eq_refl).
  set (R := replace_all (a :: o') c (b :: r') post) in *.
  unfold lazy_match in Hm.
  destruct (cut (a :: o') s) as [[pre' rest]|] eqn:Hcut; [|discriminate].
  destruct (cut c rest) as [[mid post']|] eqn:Hcut'; [|discriminate].
  injection Hm as -> ->.
  unfold lazy_match. rewrite app_assoc, cut_app_shift.
  - unfold lazy_match in IH.
    destruct (cut (a :: o') R) as [[pre1 rest1]|]; [|reflexivity].
    destruct (cut c rest1) as [[? ?]|]; [discriminate|reflexivity].
  - intros i Hi. rewrite length_app in Hi.
    destruct (decide (i < length pre)%nat) as [Hlt|Hge].
    + rewrite <- app_assoc, drop_app_le by lia.
      apply not_true_is_false. intros Hp.
      pose proof (cut_first _ _ _ _ Hcut i Hlt) as Hfirst.
      rewrite (cut_spec _ _ _ _ Hcut), drop_app_le in Hfirst by lia.
      destruct (decide (length (a :: o') <= length (drop i pre))%nat) as [Hlen|Hlen].
      * rewrite is_prefix_app_l in Hp by exact Hlen.
        rewrite is_prefix_app_l in Hfirst by exact Hlen. congruence.
      * apply Hbo. eapply is_prefix_inner; [exact Hp|lia].
    + rewrite drop_app_le by (rewrite length_app; lia).
      rewrite drop_app_ge by lia.
      destruct (drop (i - length pre) (b :: r')) as [|y d] eqn:Hd.
      { apply (f_equal length) in Hd. rewrite length_drop in Hd. cbn in Hd, Hi. lia. }
      cbn [app]. apply is_prefix_cons_ne. intros ->. apply Har.
      apply (subseteq_drop (i - length pre)). rewrite Hd.
      apply elem_of_cons. by left.
Qed.

(** ** The assistant branch *)

(** The content that the branch returns holds no lock-file block. *)
Lemma clean_no_lockfile_block s :
  lazy_match lockfile_open lockfile_close (cleanAssistantContent s) = None.
Proof.
  unfold cleanAssistantContent.
  set (s' := replace_first think_open think_close [] _).
  pose proof (replace_all_complete 60%N (tail lockfile_open) lockfile_close
                91%N (tail lockfile_placeholder) s') as Hnone.
  destruct (trim_spec (replace_all lockfile_open lockfile_close
                         lockfile_placeholder s')) as (l & r & Heq).
  eapply lazy_match_None_part. rewrite <- Heq. apply Hnone.
  - apply (bool_decide_unpack _). vm_compute. exact I.
  - apply (bool_decide_unpack _). vm_compute. exact I.
Qed.

Lemma clean_marker_free s : marker_free s -> cleanAssistantContent s = trim s.
Proof.
  intros (H1 & H2 & H3). unfold cleanAssistantContent.
  rewrite (replace_first_None _ _ _ _ H1), (replace_first_None _ _ _ _ H2),
    (replace_all_None _ _ _ _ H3). reflexivity.
Qed.

Lemma marker_free_trim s : marker_free s -> marker_free (trim s).
Proof.
  intros (H1 & H2 & H3). destruct (trim_spec s) as (l & r & Hs).
  rewrite Hs in H1, H2, H3.
  repeat split; eapply lazy_match_None_part; eassumption.
Qed.

(** A content that holds none of the three opening markers is free of
    markers. *)
Lemma no_opening_marker_free s :
  includes s boltThought_open = false ->
  includes s think_open = false ->
  includes s lockfile_open = false ->
  marker_free s.
Proof.
  unfold includes, marker_free, lazy_match. intros H1 H2 H3.
  destruct (cut boltThought_open s); [discriminate|].
  destruct (cut think_open s); [discriminate|].
  destruct (cut lockfile_open s); [discriminate|]. auto.
Qed.

(** What the branch returns has no white space around it. *)
Lemma clean_trimmed s : trim (cleanAssistantContent s) = cleanAssistantContent s.
Proof. unfold cleanAssistantContent. apply trim_idem. Qed.

(** C7.  On a content in which none of the three patterns matches, the
    assistant branch only trims, and applying it again changes nothing:
    the second result is the first, code unit for code unit.  In
    particular a content that the branch has produced and that is free of
    markers is returned as it is. *)
Theorem clean_idempotent_marker_free (content0 : jsstring) :
  marker_free content0 ->
  cleanAssistantContent content0 = trim content0
  /\ cleanAssistantContent (cleanAssistantContent content0)
     = cleanAssistantContent content0
  /\ (forall before, content0 = cleanAssistantContent before ->
                     cleanAssistantContent content0 = content0).
Proof.
  intros Hfree. split; [by apply clean_marker_free|]. split.
  - rewrite (clean_marker_free _ Hfree).
    rewrite (clean_marker_free _ (marker_free_trim _ Hfree)). apply trim_idem.
  - intros before ->. rewrite (clean_marker_free _ Hfree). apply clean_trimmed.
Qed.

End StringProofs.

Lemma clean_idempotent_marker_free_witness :
  cleanAssistantContent (js "  Done: the button is red.  ")
  = js "Done: the button is red."
  /\ cleanAssistantContent (cleanAssistantContent (js "  Done: the button is red.  "))
     = cleanAssistantContent (js "  Done: the button is red.  ").
Proof.
  assert (Hfree : marker_free (js "  Done: the button is red.  "))
    by (repeat split; vm_compute; reflexivity).
  split.
  - exact (proj1 (clean_idempotent_marker_free _ Hfree)).
  - exact (proj1 (proj2 (clean_idempotent_marker_free _ Hfree))).
Defined.

(** C6 at an assistant message with two thought blocks: lines 117-118
    replace without the flag [g], so the first block of each kind goes and
    the second [<think>] block stays in the content that is sent on,
    while line 121, with the flag, collapses both lock-file blocks. *)
Theorem thought_blocks_first_only :
  let m :=
    Demo.msg assistant
      " <think>plan A</think>Hello<think>plan B</think> world " in
  (processMessage (host:=Demo.host) (initialCurrent (host:=Demo.host)) m).2
  = Demo.msg assistant "Hello<think>plan B</think> world"
  /\ includes
       (content (processMessage (host:=Demo.host) (initialCurrent (host:=Demo.host)) m).2)
       think_open = true
  /\ cleanAssistantContent
       (lockfile_open ++ js "{1}" ++ lockfile_close ++ js " and "
          ++ lockfile_open ++ js "{2}" ++ lockfile_close)
     = lockfile_placeholder ++ js " and " ++ lockfile_placeholder.
Proof. cbv zeta. repeat split; vm_compute; reflexivity. Qed.

(** The first pattern has a backslash before each quote: a block whose
    quotes are not escaped is not matched. *)
Example boltThought_pattern_escaped :
  cleanAssistantContent
    (js "<div class=" ++ dq ++ js "__boltThought__" ++ dq ++ js ">plan</div>Hello")
  = js "<div class=" ++ dq ++ js "__boltThought__" ++ dq ++ js ">plan</div>Hello"
  /\ cleanAssistantContent (boltThought_open ++ js "plan</div>Hello") = js "Hello".
Proof. split; vm_compute; reflexivity. Qed.

(** ** The settings store *)

Section StoreProofs.
Context {host : Host} {browser : Browser}.
Import Settings.

(** Outside a browser, and without a stored value, the defaults are used
    and nothing is logged. *)
Lemma getInitialProviderSettings_absent (ls : Storage) :
  isBrowser = false \/ ls !! PROVIDER_SETTINGS_KEY = None
  \/ ls !! PROVIDER_SETTINGS_KEY = Some [] ->
  getInitialProviderSettings ls = ret defaultProviderSettings.
Proof.
  unfold getInitialProviderSettings.
  intros [->|[->| ->]]; [reflexivity| |]; destruct isBrowser; reflexivity.
Qed.

Lemma getInitialTabConfiguration_logs (ls : Storage) :
  logs (getInitialTabConfiguration ls) = [].
Proof.
  unfold getInitialTabConfiguration.
  destruct isBrowser; [|reflexivity].
  destruct (ls !! TAB_CONFIGURATION) as [saved|]; [|reflexivity].
  destruct (str_truthy saved); [|reflexivity].
  destruct (JSON_parse saved) as [parsed|]; [|reflexivity].
  destruct (parsedTabConfiguration parsed); reflexivity.
Qed.

(** Neither initializer throws. *)
Lemma getInitialProviderSettings_total (ls : Storage) :
  exists settings, outcome (getInitialProviderSettings ls) = Ok settings.
Proof.
  unfold getInitialProviderSettings.
  destruct isBrowser; [|by eexists].
  destruct (ls !! PROVIDER_SETTINGS_KEY) as [saved|]; [|by eexists].
  destruct (str_truthy saved); [|by eexists].
  destruct (JSON_parse saved) as [parsed|]; [|by eexists].
  destruct (object_entries parsed) as [entries|]; [|by eexists].
  destruct (applySaved entries defaultProviderSettings) as [settings [e|]];
    by eexists.
Qed.

Lemma getInitialTabConfiguration_total (ls : Storage) :
  exists config, outcome (getInitialTabConfiguration ls) = Ok config.
Proof.
  unfold getInitialTabConfiguration.
  destruct isBrowser; [|by eexists].
  destruct (ls !! TAB_CONFIGURATION) as [saved|]; [|by eexists].
  destruct (str_truthy saved); [|by eexists].
  destruct (JSON_parse saved) as [parsed|]; [|by eexists].
  destruct (parsedTabConfiguration parsed); by eexists.
Qed.

(** C8, amended.  In a browser, let [saved] be a stored string that is
    not empty and that [JSON.parse] rejects.  Stored under the key of the
    provider settings, it makes [getInitialProviderSettings] log the error
    once and return the default settings.  Stored under the key of the tab
    configuration, it makes [getInitialTabConfiguration] return the default
    configuration without logging anything.  Neither throws. *)
Theorem malformed_settings_recovered (ls : Storage) (saved : jsstring) :
  isBrowser = true ->
  saved <> [] ->
  JSON_parse saved = None ->
  (ls !! PROVIDER_SETTINGS_KEY = Some saved ->
   getInitialProviderSettings ls
   = ([ErrorParsingProviderSettings], Ok defaultProviderSettings))
  /\ (ls !! TAB_CONFIGURATION = Some saved ->
      getInitialTabConfiguration ls = ([], Ok defaultTabConfiguration)).
Proof.
  intros Hb Hs Hparse.
  assert (Ht : str_truthy saved = true) by (destruct saved; done).
  split; intros Hls.
  - unfold getInitialProviderSettings. by rewrite Hb, Hls, Ht, Hparse.
  - unfold getInitialTabConfiguration. by rewrite Hb, Hls, Ht, Hparse.
Qed.

End StoreProofs.

(** With the text [{oops] under both keys. *)
Lemma malformed_settings_recovered_witness :
  let ls : Settings.Storage :=
    <[Settings.PROVIDER_SETTINGS_KEY := js "{oops"]>
      (<[Settings.TAB_CONFIGURATION := js "{oops"]> ∅) in
  Settings.getInitialProviderSettings (host:=Demo.host) (browser:=Demo.browser) ls
  = ([ErrorParsingProviderSettings],
     Ok (Settings.defaultProviderSettings (host:=Demo.host)))
  /\ Settings.getInitialTabConfiguration (browser:=Demo.browser) ls
     = ([], Ok {| Settings.userTabs := [Demo.userTab];
                  Settings.developerTabs := [Demo.developerTab] |}).
Proof.
  cbv zeta.
  pose proof (malformed_settings_recovered (host:=Demo.host) (browser:=Demo.browser)
                (<[Settings.PROVIDER_SETTINGS_KEY := js "{oops"]>
                   (<[Settings.TAB_CONFIGURATION := js "{oops"]> ∅))
                (js "{oops") eq_refl) as Hthm.
  destruct Hthm as [Hp Ht]; [discriminate|reflexivity|].
  split.
  - apply Hp. vm_compute. reflexivity.
  - apply Ht. vm_compute. reflexivity.
Defined.

(** C8, as it is stated, fails for the tab configuration: the [catch] of
    [getInitialTabConfiguration] returns the default and logs nothing. *)
Lemma malformed_tab_configuration_not_logged :
  let ls : Settings.Storage := <[Settings.TAB_CONFIGURATION := js "{oops"]> ∅ in
  Demo.parse (js "{oops") = None
  /\ logs (Settings.getInitialTabConfiguration (browser:=Demo.browser) ls) = []
  /\ ~ recovered_and_logged
         (Settings.getInitialTabConfiguration (browser:=Demo.browser) ls)
         (Settings.defaultTabConfiguration (browser:=Demo.browser)).
Proof.
  cbv zeta. split; [reflexivity|].
  split; [apply getInitialTabConfiguration_logs|].
  intros [_ Hlogged]. by rewrite getInitialTabConfiguration_logs in Hlogged.
Qed.

(** ** The selector *)

Section SelectorProofs.
Context {host : Host} {browser : Browser}.
Import Settings Selector.

Lemma setSelectedProvider_store p w :
  providers (store (setSelectedProvider p w)) = providers (store w)
  /\ models (store (setSelectedProvider p w)) = models (store w)
  /\ selectedProvider (store (setSelectedProvider p w)) = Some p
  /\ selectedModel (store (setSelectedProvider p w)) = selectedModel (store w)
  /\ providerSettings (store (setSelectedProvider p w)) = providerSettings (store w).
Proof. unfold setSelectedProvider. case_bool_decide; cbn; auto. Qed.

Lemma setSelectedModel_store name w :
  providers (store (setSelectedModel name w)) = providers (store w)
  /\ models (store (setSelectedModel name w)) = models (store w)
  /\ selectedProvider (store (setSelectedModel name w)) = selectedProvider (store w)
  /\ selectedModel (store (setSelectedModel name w)) = name
  /\ providerSettings (store (setSelectedModel name w)) = providerSettings (store w).
Proof. unfold setSelectedModel. case_bool_decide; cbn; auto. Qed.

Lemma handleProviderSelect_store p w :
  providers (store (handleProviderSelect p w).1) = providers (store w)
  /\ models (store (handleProviderSelect p w).1) = models (store w)
  /\ selectedProvider (store (handleProviderSelect p w).1) = Some p
  /\ selectedModel (store (handleProviderSelect p w).1) = modelForProvider p.
Proof.
  cbn. destruct (setSelectedModel_store (modelForProvider p) (setSelectedProvider p w))
    as (-> & -> & -> & -> & _).
  destruct (setSelectedProvider_store p w) as (-> & -> & -> & _). auto.
Qed.

Lemma initialWorld_registry_selection ls : registry_selection (initialWorld ls).
Proof.
  split; [reflexivity|]. cbn. intros p Hp.
  apply find_some in Hp. apply list_elem_of_In, Hp.
Qed.

Lemma ui_step_registry_selection w e w' :
  registry_selection w -> ui_step w e = Some w' -> registry_selection w'.
Proof.
  intros [Hprov Hsel]. destruct e as [p|m|ms]; cbn [ui_step].
  - case_bool_decide as Hin; [|discriminate].
    destruct (isProviderConfigured _ _) as [[|]|]; intros [= <-]; try by split.
    destruct (handleProviderSelect_store p w) as (Hp & _ & Hs & _).
    unfold handleProviderSelect in Hp, Hs. cbn [fst] in Hp, Hs.
    split; [congruence|]. intros q Hq. rewrite Hs in Hq. injection Hq as <-.
    by rewrite <- Hprov.
  - destruct (selectedProvider (store w)) eqn:Hsp; [|discriminate].
    case_bool_decide; [|discriminate]. intros [= <-].
    destruct (setSelectedModel_store (mi_name m) w) as (Hp & _ & Hs & _).
    unfold handleModelSelect. split; [congruence|].
    intros q Hq. apply Hsel. congruence.
  - intros [= <-]. by split.
Qed.

Lemma run_registry_selection es : forall w w',
  registry_selection w -> run w es = Some w' -> registry_selection w'.
Proof.
  induction es as [|e es IH]; intros w w' Hw; cbn [run].
  - by intros [= <-].
  - destruct (ui_step w e) as [w1|] eqn:Hstep; [|discriminate].
    apply IH. eapply ui_step_registry_selection; eassumption.
Qed.

(** C2, amended.  In every state that the store reaches from its initial
    value by clicks on listed providers and models (and by the parent's
    updates of the model lists), at most one provider is selected, and it
    is a provider of the registry; one model name is held, which may be the
    empty string.  A click on a configured provider selects it together
    with its [defaultModel], else the name of the first of its [models],
    else the empty string.  A click on a listed model selects that model
    and leaves the provider as it is, and the model then is one of the
    models that the store lists for the selected provider. *)
Theorem selection_after_clicks (ls : Storage) (w : World) :
  reachable ls w ->
  providers (store w) = PROVIDER_LIST
  /\ (forall p, selectedProvider (store w) = Some p -> p ∈ PROVIDER_LIST)
  /\ (forall p w',
        ui_step w (ClickProvider p) = Some w' ->
        isProviderConfigured (providerSettings (store w)) (p_name p) = Ok true ->
        selectedProvider (store w') = Some p
        /\ selectedModel (store w')
           = opt_str_or (defaultModel p)
               (opt_str_or (mi_name <$> (p_models p ≫= head)) []))
  /\ (forall m w',
        ui_step w (ClickModel m) = Some w' ->
        selectedProvider (store w') = selectedProvider (store w)
        /\ selectedModel (store w') = mi_name m
        /\ exists p, selectedProvider (store w') = Some p
                     /\ m ∈ default [] (models (store w') !! p_name p)).
Proof.
  intros [es Hrun].
  destruct (run_registry_selection es _ _ (initialWorld_registry_selection ls) Hrun)
    as [Hprov Hsel].
  split; [exact Hprov|]. split; [exact Hsel|]. split.
  - intros p w'. cbn [ui_step]. case_bool_decide; [|discriminate].
    intros Hstep Hconf. rewrite Hconf in Hstep. injection Hstep as <-.
    destruct (handleProviderSelect_store p w) as (_ & _ & Hs & Hm).
    unfold handleProviderSelect in Hs, Hm. cbn [fst] in Hs, Hm. by split.
  - intros m w'. cbn [ui_step].
    destruct (selectedProvider (store w)) as [p|] eqn:Hsp; [|discriminate].
    case_bool_decide as Hin; [|discriminate]. intros [= <-].
    destruct (setSelectedModel_store (mi_name m) w) as (_ & Hms & Hs & Hm & _).
    unfold handleModelSelect. rewrite Hs, Hm, Hms, Hsp.
    split; [reflexivity|]. split; [reflexivity|].
    exists p. split; [reflexivity|].
    unfold currentModels in Hin. rewrite Hsp in Hin. cbn in Hin.
    unfold str_or in Hin. destruct (p_name p) eqn:Hn; exact Hin.
Qed.

End SelectorProofs.

(** A session on an empty storage: OpenAI is clicked, the parent loads its
    models, [gpt-4-turbo] is clicked. *)
Lemma selection_after_clicks_witness :
  let start := Settings.initialWorld (host:=Demo.host) (browser:=Demo.browser) ∅ in
  let es :=
    [Selector.ClickProvider Demo.openai;
     Selector.ModelsLoaded {[ js "OpenAI" := [Demo.gpt4o; Demo.gpt4turbo] ]};
     Selector.ClickModel Demo.gpt4turbo] in
  let w := default start (Selector.run (browser:=Demo.browser) start es) in
  Selector.run (browser:=Demo.browser) start es = Some w
  /\ Settings.providers (Settings.store w) = [Demo.openai; Demo.ollama]
  /\ Settings.selectedProvider (Settings.store w) = Some Demo.openai
  /\ Settings.selectedModel (Settings.store w) = js "gpt-4-turbo".
Proof.
  cbv zeta. split; [vm_compute; reflexivity|].
  split.
  - refine (proj1 (selection_after_clicks (host:=Demo.host) (browser:=Demo.browser)
                     ∅ _
                     (ex_intro _
                        [Selector.ClickProvider Demo.openai;
                         Selector.ModelsLoaded
                           {[ js "OpenAI" := [Demo.gpt4o; Demo.gpt4turbo] ]};
                         Selector.ClickModel Demo.gpt4turbo] _))).
    vm_compute. reflexivity.
  - split; vm_compute; reflexivity.
Defined.

(** C2, as it is stated, fails.  On an empty storage the first provider
    of the registry is selected with the empty model name, as it has no
    [defaultModel].  After OpenAI and one of its models are clicked the
    selection is as the invariant wants it, and the click on Ollama, which
    has neither a [defaultModel] nor [models], leaves Ollama selected with
    the empty model name.  On a storage that holds the name of a provider
    that the registry does not have, no provider is selected. *)
Lemma selection_invariant_broken :
  let start := Settings.initialWorld (host:=Demo.host) (browser:=Demo.browser) ∅ in
  let clicks :=
    [Selector.ClickProvider Demo.openai;
     Selector.ModelsLoaded {[ js "OpenAI" := [Demo.gpt4o; Demo.gpt4turbo] ]};
     Selector.ClickModel Demo.gpt4turbo] in
  let w := default start (Selector.run (browser:=Demo.browser) start clicks) in
  let w' :=
    default start
      (Selector.run (browser:=Demo.browser) start
         (clicks ++ [Selector.ClickProvider Demo.ollama])) in
  let stale :=
    Settings.initialWorld (host:=Demo.host) (browser:=Demo.browser)
      (<[Settings.SELECTED_PROVIDER := js "Mistral"]> ∅) in
  (Settings.selectedProvider (Settings.store start) = Some Demo.openai
   /\ Settings.selectedModel (Settings.store start) = []
   /\ ~ Selector.selection_invariant (Settings.store start))
  /\ (Selector.run (browser:=Demo.browser) start clicks = Some w
      /\ Selector.selection_invariant (Settings.store w))
  /\ (Selector.ui_step (browser:=Demo.browser) w (Selector.ClickProvider Demo.ollama)
      = Some w'
      /\ Settings.selectedProvider (Settings.store w') = Some Demo.ollama
      /\ Settings.selectedModel (Settings.store w') = []
      /\ ~ Selector.selection_invariant (Settings.store w'))
  /\ (Settings.selectedProvider (Settings.store stale) = None
      /\ ~ Selector.selection_invariant (Settings.store stale)).
Proof.
  cbv zeta. split; [|split; [|split]].
  - split; [vm_compute; reflexivity|]. split; [vm_compute; reflexivity|].
    intros (p & _ & Hm & _). apply Hm. vm_compute. reflexivity.
  - split; [vm_compute; reflexivity|].
    exists Demo.openai. split; [vm_compute; reflexivity|].
    split; [vm_compute; discriminate|].
    apply (bool_decide_unpack _). vm_compute. exact I.
  - split; [vm_compute; reflexivity|].
    split; [vm_compute; reflexivity|]. split; [vm_compute; reflexivity|].
    intros (p & _ & Hm & _). apply Hm. vm_compute. reflexivity.
  - split; [vm_compute; reflexivity|].
    intros (p & Hp & _). vm_compute in Hp. discriminate.
Qed.

(** ** The patch prompt *)

Section CountingProofs.
Implicit Types p q s t l : jsstring.

Lemma occurrences_cons a q x s :
  occurrences (a :: q) (x :: s)
  = ((if (a =? x)%N && is_prefix q s then 1 else 0) + occurrences (a :: q) s)%nat.
Proof. reflexivity. Qed.

Lemma occurrences_hit a q s :
  occurrences (a :: q) (a :: s)
  = ((if is_prefix q s then 1 else 0) + occurrences (a :: q) s)%nat.
Proof. rewrite occurrences_cons, N.eqb_refl. reflexivity. Qed.

(** No occurrence starts in a stretch without the first character. *)
Lemma occurrences_skip a q l s :
  forallb (fun x => negb (a =? x)%N) l = true ->
  occurrences (a :: q) (l ++ s) = occurrences (a :: q) s.
Proof.
  induction l as [|x l IH]; cbn [forallb app]; [reflexivity|].
  intros [Hx Hl]%andb_prop. rewrite occurrences_cons.
  destruct (a =? x)%N; [discriminate|]. cbn. auto.
Qed.

Lemma occurrences_none a q l :
  forallb (fun x => negb (a =? x)%N) l = true ->
  occurrences (a :: q) l = 0%nat.
Proof.
  intros Hl. rewrite <- (app_nil_r l), occurrences_skip by done. reflexivity.
Qed.

(** Text in front never removes an occurrence, and a copy of the pattern
    in front adds one. *)
Lemma occurrences_app_ge p l s :
  (occurrences p s <= occurrences p (l ++ s))%nat.
Proof.
  induction l as [|x l IH]; cbn [app]; [lia|].
  cbn [occurrences]. lia.
Qed.

Lemma is_prefix_app p q s : is_prefix (p ++ q) (p ++ s) = is_prefix q s.
Proof. induction p as [|x p IH]; cbn; [reflexivity|]. rewrite N.eqb_refl. auto. Qed.

Lemma is_prefix_self p s : is_prefix p (p ++ s) = true.
Proof. induction p as [|x p IH]; cbn; [reflexivity|]. by rewrite N.eqb_refl. Qed.

Lemma occurrences_copy_ge a q l s :
  (1 + occurrences (a :: q) s <= occurrences (a :: q) (l ++ (a :: q) ++ s))%nat.
Proof.
  etransitivity; [|apply occurrences_app_ge].
  cbn [app]. rewrite occurrences_hit, is_prefix_self.
  pose proof (occurrences_app_ge (a :: q) q s). lia.
Qed.

Lemma is_prefix_cons_eq a q s : is_prefix (a :: q) (a :: s) = is_prefix q s.
Proof. cbn. rewrite N.eqb_refl. reflexivity. Qed.

Lemma name_chars_skip a t :
  is_name_char a = false -> forallb is_name_char t = true ->
  forallb (fun x => negb (a =? x)%N) t = true.
Proof.
  intros Ha. induction t as [|x t IH]; cbn; [reflexivity|].
  intros [Hx Ht]%andb_prop. rewrite IH by done.
  destruct (N.eqb_spec a x); [congruence|reflexivity].
Qed.

(** A name followed by [b], which is no name character, is a prefix of [s]
    only if it is the run of name characters that [s] starts with and [b]
    stands behind that run. *)
Lemma is_prefix_name t b q s :
  forallb is_name_char t = true -> is_name_char b = false ->
  is_prefix (t ++ b :: q) s = true ->
  t = name_prefix s /\ head (after_name s) = Some b.
Proof.
  intros Ht Hb. revert s. induction t as [|x t IH]; intros s; cbn.
  - destruct s as [|y s]; [discriminate|].
    intros [Hy _]%andb_prop. apply N.eqb_eq in Hy. subst y. cbn. rewrite Hb. done.
  - apply andb_prop in Ht as [Hx Ht].
    destruct s as [|y s]; [discriminate|].
    intros [Hxy Hp]%andb_prop. apply N.eqb_eq in Hxy. subst y.
    cbn. rewrite Hx. destruct (IH Ht _ Hp) as [-> ?]. done.
Qed.

Lemma is_prefix_name_false t b q s :
  forallb is_name_char t = true -> is_name_char b = false ->
  t <> name_prefix s \/ head (after_name s) <> Some b ->
  is_prefix (t ++ b :: q) s = false.
Proof.
  intros Ht Hb Hs. apply not_true_is_false. intros Hp.
  destruct (is_prefix_name _ _ _ _ Ht Hb Hp). tauto.
Qed.

Lemma is_prefix_not_name a q t b s :
  is_name_char a = false -> a <> b -> forallb is_name_char t = true ->
  is_prefix (a :: q) (t ++ b :: s) = false.
Proof.
  intros Ha Hab Ht. destruct t as [|x t]; cbn [app].
  - apply is_prefix_cons_ne, Hab.
  - apply is_prefix_cons_ne. intros ->. cbn in Ht. rewrite Ha in Ht. discriminate.
Qed.

(** A line of [join] is a part of the joined text. *)
Lemma join_elem sep (xs : list jsstring) x :
  x ∈ xs -> exists before after, join sep xs = before ++ x ++ after.
Proof.
  induction xs as [|y xs IH]; intros Hx; [by apply elem_of_nil in Hx|].
  apply elem_of_cons in Hx as [->|Hx].
  - destruct xs as [|z xs].
    + exists [], []. cbn. by rewrite app_nil_r.
    + exists [], (sep ++ join sep (z :: xs)). reflexivity.
  - destruct (IH Hx) as (before & after & Heq).
    destruct xs as [|z xs]; [by apply elem_of_nil in Hx|].
    exists (y ++ sep ++ before), after.
    change (join sep (y :: z :: xs)) with (y ++ sep ++ join sep (z :: xs)).
    rewrite Heq. by rewrite <- !app_assoc.
Qed.

End CountingProofs.

(** The split of a list term at the first constant [a]. *)
Ltac split_at a l :=
  lazymatch l with
  | a :: ?r => constr:((@nil N, l))
  | ?x :: ?r =>
      lazymatch split_at a r with
      | (?pre, ?post) => constr:((x :: pre, post))
      end
  | _ => constr:((@nil N, l))
  end.

(** Skip the constant characters in front of the next [a]. *)
Ltac skip_to a :=
  lazymatch goal with
  | |- context [occurrences (a :: ?q) (?x :: ?r)] =>
      lazymatch split_at a (x :: r) with
      | (@nil N, _) => fail
      | (?pre, ?post) =>
          change (occurrences (a :: q) (x :: r))
            with (occurrences (a :: q) (pre ++ post));
          rewrite (occurrences_skip a q pre post) by (vm_compute; reflexivity)
      end
  end.

Ltac prefix_true :=
  rewrite is_prefix_app;
  match goal with
  | |- context [is_prefix [?b] (?b :: ?r)] =>
      change (is_prefix [b] (b :: r)) with true
  end.

Ltac prefix_false Htag Hdiff :=
  first
    [ rewrite is_prefix_cons_ne by discriminate
    | rewrite is_prefix_not_name by (reflexivity || discriminate || exact Htag)
    | rewrite is_prefix_name_false;
      [ | exact Htag | reflexivity
        | first [ left; exact Hdiff | right; cbn; discriminate ] ] ].

(** One step of the count: over the tag, over the directory, at a [<],
    or over constant text up to the next [<]. *)
Ltac count_step Htag Hdiff Htag60 Hcwd :=
  first
    [ rewrite (occurrences_skip 60%N _ _ _ Htag60)
    | rewrite (occurrences_skip 60%N _ _ _ Hcwd)
    | rewrite occurrences_hit;
      try rewrite is_prefix_cons_eq;
      first [ prefix_true | prefix_false Htag Hdiff ]
    | skip_to 60%N ].

(** The prompt as a list of constant characters around the tag and the
    directory. *)
Ltac prompt_normal_form :=
  cbv [getPatchPrompt patchPromptLines tag_open tag_close join js
       list_ascii_of_string map N_of_ascii N_of_digits nl dq
       N.add N.mul Pos.add Pos.mul Pos.succ app];
  fold (@app N);
  rewrite <- ?app_assoc; cbn [app].

Lemma patch_prompt_open_count tag cwd :
  forallb is_name_char tag = true ->
  tag <> js "diff" ->
  forallb (fun x => negb (60 =? x)%N) cwd = true ->
  occurrences (tag_open tag) (getPatchPrompt tag cwd) = 2%nat.
Proof.
  intros Htag Hdiff Hcwd.
  assert (Htag60 : forallb (fun x => negb (60 =? x)%N) tag = true)
    by (apply name_chars_skip; [reflexivity|done]).
  prompt_normal_form.
  repeat count_step Htag Hdiff Htag60 Hcwd.
  rewrite occurrences_none by (vm_compute; reflexivity).
  reflexivity.
Qed.

Lemma patch_prompt_close_count tag cwd :
  forallb is_name_char tag = true ->
  tag <> js "diff" ->
  forallb (fun x => negb (60 =? x)%N) cwd = true ->
  occurrences (tag_close tag) (getPatchPrompt tag cwd) = 1%nat.
Proof.
  intros Htag Hdiff Hcwd.
  assert (Htag60 : forallb (fun x => negb (60 =? x)%N) tag = true)
    by (apply name_chars_skip; [reflexivity|done]).
  prompt_normal_form.
  repeat count_step Htag Hdiff Htag60 Hcwd.
  rewrite occurrences_none by (vm_compute; reflexivity).
  reflexivity.
Qed.

(** X22.  For every tag name made of letters, digits, [_] and [-] other
    than [diff], and every directory without a [<], the patch prompt
    holds the opening modification tag at exactly two places (in rule 4
    and at the head of the example response) and the closing tag at
    exactly one (the end of the example response). *)
Theorem patch_prompt_tag_counts (tag cwd : jsstring) :
  forallb is_name_char tag = true ->
  tag <> js "diff" ->
  forallb (fun x => negb (60 =? x)%N) cwd = true ->
  occurrences (tag_open tag) (getPatchPrompt tag cwd) = 2%nat
  /\ occurrences (tag_close tag) (getPatchPrompt tag cwd) = 1%nat.
Proof.
  intros Htag Hdiff Hcwd. split.
  - by apply patch_prompt_open_count.
  - by apply patch_prompt_close_count.
Qed.

Lemma patch_prompt_tag_counts_witness :
  occurrences (tag_open (js "bolt_file_modifications"))
    (getPatchPrompt (js "bolt_file_modifications") (js "/home/project")) = 2%nat
  /\ occurrences (tag_close (js "bolt_file_modifications"))
       (getPatchPrompt (js "bolt_file_modifications") (js "/home/project")) = 1%nat.
Proof.
  apply (patch_prompt_tag_counts (js "bolt_file_modifications") (js "/home/project")).
  - reflexivity.
  - discriminate.
  - reflexivity.
Defined.

(** With the tag name [diff] the tags of the example's file block count
    as well. *)
Example patch_prompt_diff_tag :
  occurrences (tag_open (js "diff"))
    (getPatchPrompt (js "diff") (js "/home/project")) = 3%nat
  /\ occurrences (tag_close (js "diff"))
       (getPatchPrompt (js "diff") (js "/home/project")) = 2%nat.
Proof. split; vm_compute; reflexivity. Qed.

(** The split of a list term at the first [<] that the tag follows. *)
Ltac split_at_tag l :=
  lazymatch l with
  | 60%N :: (?t ++ ?r) => constr:((@nil N, l))
  | ?x :: ?r =>
      lazymatch split_at_tag r with
      | (?pre, ?post) => constr:((x :: pre, post))
      end
  end.

Lemma occurrences_tag_ge a t b l s :
  (1 + occurrences (a :: t ++ [b]) s
   <= occurrences (a :: t ++ [b]) (l ++ a :: t ++ b :: s))%nat.
Proof.
  pose proof (occurrences_copy_ge a (t ++ [b]) l s) as Hge.
  cbn [app] in Hge. by rewrite <- app_assoc in Hge.
Qed.

(** Whatever the tag name and the directory are, the opening tag stands
    at two places of the prompt at least. *)
Lemma patch_prompt_open_at_least (tag cwd : jsstring) :
  (2 <= occurrences (tag_open tag) (getPatchPrompt tag cwd))%nat.
Proof.
  prompt_normal_form.
  lazymatch goal with
  | |- (_ <= occurrences ?p ?l)%nat =>
      lazymatch split_at_tag l with
      | (?pre, 60%N :: (?t ++ 62%N :: ?post)) =>
          change l with (pre ++ 60%N :: t ++ 62%N :: post);
          etransitivity; [|apply occurrences_tag_ge];
          lazymatch split_at_tag post with
          | (?pre', 60%N :: (?t' ++ 62%N :: ?post')) =>
              change post with (pre' ++ 60%N :: t' ++ 62%N :: post');
              pose proof (occurrences_tag_ge 60%N tag 62%N pre' post')
          end
      end
  end.
  lia.
Qed.

(* ===================================================================== *)
(** * Further properties of the code                                      *)
(* ===================================================================== *)

(** ** The resolver, beyond the fallback *)

Lemma findModel_Some name (l : list ModelInfo) :
  name ∈ map mi_name l ->
  exists md, find (fun m => str_eqb (mi_name m) name) l = Some md
             /\ mi_name md = name /\ md ∈ l.
Proof.
  induction l as [|m l IH]; cbn; [by intros ?%elem_of_nil|].
  intros Hin. unfold str_eqb at 1. case_bool_decide as Hm.
  - exists m. split; [done|]. split; [done|]. apply elem_of_cons. by left.
  - apply elem_of_cons in Hin as [Hin|Hin]; [congruence|].
    destruct (IH Hin) as (md & Hf & Hn & Hl).
    exists md. split; [done|]. split; [done|]. apply elem_of_cons. by right.
Qed.

Lemma find_app_Some {A} (f : A -> bool) l1 l2 x :
  find f l1 = Some x -> find f (l1 ++ l2) = Some x.
Proof.
  induction l1 as [|y l1 IH]; cbn; [discriminate|]. destruct (f y); auto.
Qed.

Lemma find_app_None {A} (f : A -> bool) l1 l2 :
  find f l1 = None -> find f (l1 ++ l2) = find f l2.
Proof.
  induction l1 as [|y l1 IH]; cbn; [done|]. destruct (f y); [discriminate|auto].
Qed.

Section ResolverMore.
Context {host : Host}.

(** The resolver when the registry answers and one of the provider's
    models has the name. *)
Lemma resolveModel_present creds provider name fetched :
  getModelListFromProvider provider creds = Ok fetched ->
  name ∈ map mi_name (default [] (staticModels provider) ++ fetched) ->
  exists md,
    resolveModel creds provider name = ([], Ok md)
    /\ findModel name (default [] (staticModels provider) ++ fetched) = Some md.
Proof.
  intros Hfetch Hin.
  destruct (findModel_Some _ _ Hin) as (md & Hfind & _ & Hmem).
  exists md. split; [|exact Hfind].
  unfold resolveModel, getStaticModelListFromProvider, findModel in *.
  destruct (find _ (default [] (staticModels provider))) as [md'|] eqn:Hs.
  - rewrite (find_app_Some _ _ fetched _ Hs) in Hfind. by injection Hfind as ->.
  - rewrite Hfetch. cbn. rewrite Hfind.
    case_bool_decide as Hlen; [|reflexivity].
    apply length_zero_iff_nil in Hlen. rewrite Hlen in Hmem.
    by apply elem_of_nil in Hmem.
Qed.

Lemma resolveModel_static creds provider name :
  name ∈ map mi_name (default [] (staticModels provider)) ->
  exists md,
    resolveModel creds provider name = ([], Ok md)
    /\ findModel name (default [] (staticModels provider)) = Some md.
Proof.
  intros Hin. destruct (findModel_Some _ _ Hin) as (md & Hfind & _).
  exists md. split; [|exact Hfind].
  unfold resolveModel, getStaticModelListFromProvider, findModel. by rewrite Hfind.
Qed.

(** X1.  A model name that one of the provider's static models has is
    resolved to the first static model of that name without asking the
    registry for more models: whatever [getModelListFromProvider] would
    answer, also a rejection, [streamText] goes on with that model and
    logs no warning. *)
Theorem static_model_needs_no_fetch (props : Props) :
  let cur := directivesOf (messages props) in
  let provider := resolveProvider (currentProvider cur) in
  currentModel cur ∈ map mi_name (default [] (staticModels provider)) ->
  exists l,
    outcome (streamText_locals props) = Ok l
    /\ findModel (currentModel cur) (default [] (staticModels provider))
       = Some (l_modelDetails l)
    /\ mi_name (l_modelDetails l) = currentModel cur
    /\ outcome (streamText props) = Ok (sdkCall props l)
    /\ List.filter is_warning (logs (streamText props)) = [].
Proof.
  intros cur provider Hin.
  destruct (resolveModel_static (credentialsOf props) provider _ Hin)
    as (md & Hres & Hfind).
  unfold streamText. rewrite streamText_locals_eq. cbv zeta.
  fold cur provider. rewrite Hres.
  cbv beta iota delta [bind]. rewrite assemble_eq. cbv zeta.
  eexists. split; [reflexivity|]. cbn.
  split; [exact Hfind|]. split.
  - apply find_some in Hfind as [_ Hn]. unfold str_eqb in Hn.
    by apply bool_decide_eq_true in Hn.
  - split; [reflexivity|]. destruct (bool_decide _); reflexivity.
Qed.

(** X2.  When no static model has the name and the registry's fetch is
    rejected, [streamText] is rejected with the same error, before it has
    logged anything or built a prompt. *)
Theorem fetch_rejection_propagates (props : Props) (e : Error) :
  let cur := directivesOf (messages props) in
  let provider := resolveProvider (currentProvider cur) in
  currentModel cur ∉ map mi_name (default [] (staticModels provider)) ->
  getModelListFromProvider provider (credentialsOf props) = Throw e ->
  streamText props = ([], Throw e).
Proof.
  intros cur provider Habsent Hfetch.
  unfold streamText. rewrite streamText_locals_eq. cbv zeta. fold cur provider.
  unfold resolveModel, getStaticModelListFromProvider, findModel.
  rewrite (findModel_None _ _ Habsent), Hfetch. reflexivity.
Qed.

(** X3.  When the registry answers and the combined list (static models,
    then fetched models) has a model of the requested name, the resolver
    takes the first model of that name in the combined list, and
    [streamText] logs no warning. *)
Theorem resolver_takes_first_match (props : Props) (fetched : list ModelInfo) :
  let cur := directivesOf (messages props) in
  let provider := resolveProvider (currentProvider cur) in
  let modelsList := default [] (staticModels provider) ++ fetched in
  getModelListFromProvider provider (credentialsOf props) = Ok fetched ->
  currentModel cur ∈ map mi_name modelsList ->
  exists l,
    outcome (streamText_locals props) = Ok l
    /\ findModel (currentModel cur) modelsList = Some (l_modelDetails l)
    /\ mr_model (sdk_model (sdkCall props l)) = currentModel cur
    /\ List.filter is_warning (logs (streamText props)) = [].
Proof.
  intros cur provider modelsList Hfetch Hin.
  destruct (resolveModel_present _ _ _ _ Hfetch Hin) as (md & Hres & Hfind).
  unfold streamText. rewrite streamText_locals_eq. cbv zeta.
  fold cur provider. rewrite Hres.
  cbv beta iota delta [bind]. rewrite assemble_eq. cbv zeta.
  eexists. split; [reflexivity|]. cbn.
  split; [exact Hfind|]. split.
  - apply find_some in Hfind as [_ Hn]. unfold str_eqb in Hn.
    by apply bool_decide_eq_true in Hn.
  - destruct (bool_decide _); reflexivity.
Qed.

(** X4.  The provider of a request is the first provider of the registry
    with the requested name, and [DEFAULT_PROVIDER] when the registry has
    no provider of that name. *)
Theorem provider_or_default (name : jsstring) :
  ((name ∉ map p_name PROVIDER_LIST) /\ resolveProvider name = DEFAULT_PROVIDER)
  \/ (exists before after,
        PROVIDER_LIST = before ++ resolveProvider name :: after
        /\ p_name (resolveProvider name) = name
        /\ (name ∉ map p_name before)).
Proof.
  unfold resolveProvider.
  induction PROVIDER_LIST as [|p ps IH]; cbn.
  - left. split; [apply not_elem_of_nil|reflexivity].
  - destruct (str_eqb (p_name p) name) eqn:Hp; unfold str_eqb in Hp;
      [apply bool_decide_eq_true in Hp|apply bool_decide_eq_false in Hp]; cbn.
    + right. exists [], ps. cbn. split; [done|]. split; [done|]. apply not_elem_of_nil.
    + destruct IH as [[Hn Hd]|(before & after & Heq & Hname & Hb)].
      * left. split; [|exact Hd]. apply not_elem_of_cons. by split.
      * right. exists (p :: before), after. cbn. split; [by f_equal|].
        split; [done|]. apply not_elem_of_cons. by split.
Qed.

End ResolverMore.

(** With a registry whose fetch is always rejected. *)
Lemma static_model_needs_no_fetch_witness :
  exists l,
    outcome (streamText_locals (host:=Samples.offline)
               (Demo.request [Demo.msg user "gpt-4-turbo|OpenAI|hello"])) = Ok l
    /\ mi_name (l_modelDetails l) = js "gpt-4-turbo".
Proof.
  destruct (static_model_needs_no_fetch (host:=Samples.offline)
              (Demo.request [Demo.msg user "gpt-4-turbo|OpenAI|hello"]))
    as (l & Hl & _ & Hn & _).
  - apply (bool_decide_unpack _). vm_compute. exact I.
  - exists l. split; [exact Hl|exact Hn].
Defined.

Lemma fetch_rejection_propagates_witness :
  streamText (host:=Samples.offline)
    (Demo.request [Demo.msg user "llama3|Ollama|hello"])
  = ([], Throw (MkError (js "fetch failed"))).
Proof.
  apply (fetch_rejection_propagates (host:=Samples.offline)).
  - apply (bool_decide_unpack _). vm_compute. exact I.
  - reflexivity.
Defined.

(** Ollama has no static model; with a server environment the registry
    answers with [llama3]. *)
Lemma resolver_takes_first_match_witness :
  exists l,
    outcome (streamText_locals (host:=Demo.host)
               (Samples.with_env []
                  (Demo.request [Demo.msg user "llama3|Ollama|hello"]))) = Ok l
    /\ l_modelDetails l = Demo.llama3.
Proof.
  destruct (resolver_takes_first_match (host:=Demo.host)
              (Samples.with_env []
                 (Demo.request [Demo.msg user "llama3|Ollama|hello"]))
              [Demo.llama3])
    as (l & Hl & Hf & _).
  - reflexivity.
  - apply (bool_decide_unpack _). vm_compute. exact I.
  - exists l. split; [exact Hl|].
    vm_compute in Hf. injection Hf as Hf. symmetry. exact Hf.
Defined.

(** ** What [messages.map] keeps *)

Lemma trim_start_head s :
  match head (trim_start s) with Some c => is_ws c = false | None => True end.
Proof.
  induction s as [|x s IH]; cbn; [exact I|].
  destruct (is_ws x) eqn:Hx; [exact IH|exact Hx].
Qed.

Lemma trim_ends s :
  match head (trim s) with Some c => is_ws c = false | None => True end
  /\ match last (trim s) with Some c => is_ws c = false | None => True end.
Proof.
  split.
  - rewrite <- trim_start_trim. apply trim_start_head.
  - unfold trim, trim_end. generalize (rev (trim_start s)). intros t.
    pose proof (trim_start_head t) as Ht.
    destruct (trim_start t) as [|x u]; [exact I|].
    cbn [rev]. by rewrite last_snoc.
Qed.

Section MessagesProofs.
Context {host : Host}.

Lemma processMessages_shape (ms : list Message) (cur : Current) :
  Forall2
    (fun m m' =>
       role m' = role m /\ other m' = other m
       /\ content m'
          = match role m with
            | user => ex_content (extractPropertiesFromMessage m)
            | assistant => cleanAssistantContent (content m)
            | _ => content m
            end)
    ms (processMessages cur ms).2.
Proof.
  revert cur. induction ms as [|m ms IH]; intros cur; cbn [processMessages].
  - constructor.
  - destruct (processMessage cur m) as [cur1 m'] eqn:Hm.
    specialize (IH cur1). destruct (processMessages cur1 ms) as [cur2 rest'].
    cbn [snd] in *. constructor; [|exact IH].
    unfold processMessage in Hm.
    destruct (role m) eqn:Hr; injection Hm as <- <-; cbn; by rewrite ?Hr.
Qed.

(** X6.  No assistant message leaves [messages.map] with a lock-file block
    in it (an opening [boltAction] tag for [package-lock.json] followed
    somewhere by a closing tag), and none begins or ends with white
    space. *)
Theorem assistant_messages_clean (ms : list Message) (cur : Current) :
  Forall
    (fun m' =>
       role m' = assistant ->
       lazy_match lockfile_open lockfile_close (content m') = None
       /\ match head (content m') with Some c => is_ws c = false | None => True end
       /\ match last (content m') with Some c => is_ws c = false | None => True end)
    (processMessages cur ms).2.
Proof.
  pose proof (processMessages_shape ms cur) as H.
  induction H as [|m m' ms ms' (Hr & _ & Hc) _ IH]; constructor; [|exact IH].
  intros Ha. rewrite Hr in Ha. rewrite Ha in Hc. rewrite Hc. split.
  - apply clean_no_lockfile_block.
  - apply trim_ends.
Qed.

End MessagesProofs.

(** ** How the prompt and the history are put together *)

Lemma keepLast_suffix (ms : list Message) : keepLast ms `suffix_of` ms.
Proof.
  unfold keepLast. destruct (last ms) as [x|] eqn:Hl; [|done].
  apply last_Some in Hl as [l' ->]. by exists l'.
Qed.

Lemma slice_from_suffix {A} k (xs : list A) : slice_from k xs `suffix_of` xs.
Proof. unfold slice_from. apply suffix_drop. Qed.

Section AssemblyProofs.
Context {host : Host}.

Lemma appendContext_monotone props st :
  st.1 `prefix_of` (appendContext props st).1
  /\ (appendContext props st).2 `suffix_of` st.2.
Proof.
  destruct st as [sp pm]. unfold appendContext. cbn [fst snd].
  destruct (contextEnabled props) as [cf|]; [|done].
  destruct (truthySummary props) as [s|]; [|split; [by eexists|done]].
  destruct (truthySliceId props) as [k|]; cbn [fst snd].
  - split; [rewrite <- app_assoc; by eexists|apply slice_from_suffix].
  - split; [rewrite <- app_assoc; by eexists|apply keepLast_suffix].
Qed.

Lemma appendContext_disabled props st :
  contextEnabled props = None -> appendContext props st = st.
Proof. intros H. destruct st. unfold appendContext. by rewrite H. Qed.

Lemma streamText_Ok_inv props call :
  outcome (streamText props) = Ok call ->
  exists l, outcome (streamText_locals props) = Ok l /\ call = sdkCall props l.
Proof.
  unfold streamText. intros H. apply bind_Ok_inv in H as (l & Hl & Hc).
  exists l. split; [exact Hl|]. cbn in Hc. by injection Hc.
Qed.

(** X7.  Whatever the request, the [system] of the SDK call is the one
    that [options] carries when it carries one (the spread replaces the
    assembled prompt, also by [undefined]), and otherwise a prompt that
    begins with the prompt chosen for the chat mode: the context step and
    the locked-files step only append.  The [messages] of the call are
    the ones that [options] carries when it carries some, and otherwise
    the conversion of a suffix of the preprocessed history: the context
    step only drops messages from the front. *)
Theorem assembly_only_appends (props : Props) (call : SdkCall) :
  outcome (streamText props) = Ok call ->
  exists systemPrompt processedMessages,
    selectSystemPrompt props `prefix_of` systemPrompt
    /\ processedMessages
       `suffix_of` (processMessages initialCurrent (messages props)).2
    /\ sdk_system call
       = match options props ≫= o_system with
         | Some given => given
         | None => Some systemPrompt
         end
    /\ sdk_messages call
       = match options props ≫= o_messages with
         | Some given => given
         | None => Some (convertToCoreMessages processedMessages)
         end.
Proof.
  intros Hcall. destruct (streamText_Ok_inv _ _ Hcall) as (l & Hl & ->).
  destruct (streamText_locals_prompt _ _ Hl) as [Hm Hp]. cbv zeta in *.
  destruct (appendContext_monotone props (beforeContext props)) as [Hpre Hsuf].
  cbn [beforeContext fst snd] in Hpre, Hsuf.
  exists (l_systemPrompt l), (l_processedMessages l). split; [|split; [|split]].
  - rewrite Hp. destruct (bool_decide _); [|exact Hpre].
    by apply prefix_app_r.
  - by rewrite Hm.
  - unfold sdkCall. cbn [sdk_system]. by destruct (options props ≫= o_system).
  - unfold sdkCall. cbn [sdk_messages]. by destruct (options props ≫= o_messages).
Qed.

(** X8.  The context buffer, the summary and the cut of the history need
    chat mode [build] or [patch]: with no chat mode (the prompt is then the
    one of [build]) or with [discuss], and also without context files or
    without the optimisation flag set to [true], the SDK call carries the
    conversion of the whole preprocessed history, and for its [system] the
    mode's prompt followed only by the locked-files notice when there is
    one; a [system] or [messages] that [options] carries replaces
    these. *)
Theorem context_needs_mode_files_flag (props : Props) (call : SdkCall) :
  chatMode props = None \/ chatMode props = Some discuss
  \/ contextFiles props = None \/ contextOptimization props <> Some true ->
  outcome (streamText props) = Ok call ->
  let paths := effectiveLockedFilePaths (files props) in
  sdk_system call
  = match options props ≫= o_system with
    | Some given => given
    | None =>
        Some (selectSystemPrompt props
                ++ (if bool_decide (0 < length paths)%nat
                    then lockedFilesBlock paths else []))
    end
  /\ sdk_messages call
     = match options props ≫= o_messages with
       | Some given => given
       | None =>
           Some (convertToCoreMessages
                   (processMessages initialCurrent (messages props)).2)
       end.
Proof.
  intros Hoff Hcall paths. destruct (streamText_Ok_inv _ _ Hcall) as (l & Hl & ->).
  destruct (streamText_locals_prompt _ _ Hl) as [Hm Hp].
  assert (Hd : contextEnabled props = None).
  { unfold contextEnabled.
    destruct Hoff as [->|[->|[H|H]]]; [done|done|..].
    - rewrite H. by destruct (chatMode props) as [[]|].
    - destruct (chatMode props) as [[]|]; [done|..];
        destruct (contextFiles props); try done;
        destruct (contextOptimization props) as [[]|]; done. }
  cbv zeta in *. rewrite (appendContext_disabled _ _ Hd) in Hm, Hp.
  cbn [beforeContext fst snd] in Hm, Hp.
  unfold sdkCall. cbn [sdk_system sdk_messages]. split.
  - destruct (options props ≫= o_system); [reflexivity|]. cbn [default].
    rewrite Hp. fold paths.
    destruct (bool_decide _); [reflexivity|]. by rewrite app_nil_r.
  - destruct (options props ≫= o_messages); [reflexivity|]. cbn [default].
    by rewrite Hm.
Qed.

(** X9.  [streamText] logs that there are no locked files exactly when no
    entry of the file map is flagged locked (in particular when there is
    no file map); the prompt is then what the context step left. *)
Theorem no_locked_files_logged (props : Props) (l : Locals) :
  outcome (streamText_locals props) = Ok l ->
  let unlocked :=
    forall entries path, files props = Some entries -> ~ lockedPath entries path in
  (LogNoLockedFiles ∈ logs (streamText props) <-> unlocked)
  /\ (unlocked ->
      l_systemPrompt l = (appendContext props (beforeContext props)).1).
Proof.
  intros Hl unlocked.
  assert (Hiff : effectiveLockedFilePaths (files props) = [] <-> unlocked).
  { unfold unlocked. destruct (files props) as [entries|] eqn:Hf.
    - destruct (effectiveLockedFilePaths_spec entries) as (_ & Hmem & _).
      cbv zeta in Hmem. split.
      + intros Hnil es path [= <-] Hp. apply Hmem in Hp. rewrite Hnil in Hp.
        by apply elem_of_nil in Hp.
      + intros Hu. destruct (effectiveLockedFilePaths (Some entries)) as [|p ps] eqn:Hp;
          [reflexivity|].
        exfalso. apply (Hu entries p eq_refl). apply Hmem. by left.
    - split; [by intros _ es path [=]|reflexivity]. }
  destruct (streamText_locals_prompt _ _ Hl) as [_ Hp]. cbv zeta in Hp.
  destruct (streamText_locals_Ok _ _ Hl) as (md & Hres & Ha). cbv zeta in *.
  split.
  - rewrite <- Hiff. unfold streamText.
    rewrite (bind_logs_Ok _ _ _ Hl). cbn [ret logs fst]. rewrite app_nil_r.
    rewrite streamText_locals_eq. cbv zeta.
    rewrite (bind_logs_Ok _ _ _ Hres). rewrite assemble_eq. cbv zeta. cbn [logs fst].
    assert (Hw : LogNoLockedFiles ∉ logs
                   (resolveModel (credentialsOf props)
                      (resolveProvider (currentProvider (directivesOf (messages props))))
                      (currentModel (directivesOf (messages props))))).
    { clear. unfold resolveModel.
      destruct (findModel _ _); [apply not_elem_of_nil|].
      destruct (getModelListFromProvider _ _) as [fetched|e];
        [|apply not_elem_of_nil].
      cbn. destruct (bool_decide _); [apply not_elem_of_nil|].
      destruct (findModel _ _); [apply not_elem_of_nil|].
      destruct (head _); cbn; [|apply not_elem_of_nil].
      intros Hin. apply elem_of_cons in Hin as [Hin|Hin];
        [discriminate|by apply elem_of_nil in Hin]. }
    rewrite elem_of_app. split.
    + intros [Hin|Hin]; [done|].
      destruct (effectiveLockedFilePaths (files props)) as [|p ps]; [reflexivity|].
      rewrite bool_decide_eq_true_2 in Hin by (cbn; lia).
      cbn in Hin. rewrite !elem_of_cons in Hin.
      destruct Hin as [Hin|[Hin|Hin]]; try discriminate. by apply elem_of_nil in Hin.
    + intros ->. right. cbn. apply elem_of_cons. right. apply elem_of_cons. by left.
  - intros Hu. apply Hiff in Hu. rewrite Hp, Hu. reflexivity.
Qed.

End AssemblyProofs.

Lemma assembly_only_appends_witness :
  exists call systemPrompt,
    outcome (streamText (host:=Demo.host)
               (Demo.with_context [(js "/home/project/a.ts", Demo.file false)]
                  (Some (js "so far")) (Some 2)
                  (Demo.with_files Demo.lockedFiles
                     (Demo.request Demo.conversation)))) = Ok call
    /\ sdk_system call = Some systemPrompt
    /\ js "LIBRARY PROMPT" `prefix_of` systemPrompt.
Proof.
  pose proof (assembly_only_appends (host:=Demo.host)
                (Demo.with_context [(js "/home/project/a.ts", Demo.file false)]
                   (Some (js "so far")) (Some 2)
                   (Demo.with_files Demo.lockedFiles
                      (Demo.request Demo.conversation)))) as Hthm.
  destruct (outcome (streamText (host:=Demo.host) _)) as [call|e] eqn:Hout;
    [|vm_compute in Hout; discriminate].
  destruct (Hthm call eq_refl) as (systemPrompt & ms & Hpre & _ & Hsys & _).
  exists call, systemPrompt. split; [reflexivity|]. split; [exact Hsys|exact Hpre].
Defined.

(** Context files, a summary and the flag, but no chat mode. *)
Lemma context_needs_mode_files_flag_witness :
  exists call,
    outcome (streamText (host:=Demo.host)
               (Samples.with_mode None
                  (Demo.with_context [(js "/home/project/a.ts", Demo.file false)]
                     (Some (js "so far")) None
                     (Demo.request Demo.conversation)))) = Ok call
    /\ sdk_system call = Some (js "LIBRARY PROMPT")
    /\ (length <$> sdk_messages call) = Some 4%nat.
Proof.
  pose proof (context_needs_mode_files_flag (host:=Demo.host)
                (Samples.with_mode None
                   (Demo.with_context [(js "/home/project/a.ts", Demo.file false)]
                      (Some (js "so far")) None
                      (Demo.request Demo.conversation)))) as Hthm.
  destruct (outcome (streamText (host:=Demo.host) _)) as [call|e] eqn:Hout;
    [|vm_compute in Hout; discriminate].
  destruct (Hthm call (or_introl eq_refl) eq_refl) as [Hsys Hms].
  exists call. split; [reflexivity|]. split.
  - rewrite Hsys. vm_compute. reflexivity.
  - rewrite Hms. vm_compute. reflexivity.
Defined.

Lemma no_locked_files_logged_witness :
  LogNoLockedFiles
  ∈ logs (streamText (host:=Demo.host)
            (Demo.with_files [(js "/home/project/b.ts", Demo.file false)]
               (Demo.request Demo.conversation))).
Proof.
  destruct (no_locked_files_logged (host:=Demo.host)
              (Demo.with_files [(js "/home/project/b.ts", Demo.file false)]
                 (Demo.request Demo.conversation)) _ eq_refl) as [[_ Hlog] _].
  apply Hlog. intros entries path [= <-] (d & Hin & Hd).
  apply elem_of_cons in Hin as [[= -> ->]|Hin]; [discriminate|].
  by apply elem_of_nil in Hin.
Defined.

(** ** The provider settings that the store starts with *)

Section ProviderSettingsProofs.
Import Settings.
Context {host : Host} {browser : Browser}.

(** The settings of a provider named [name] before anything stored is
    applied. *)
Lemma defaults_fold (ps : list Provider) (acc : ProviderSetting) (k : jsstring) :
  pc_settings <$>
    (fold_left
       (fun (acc : ProviderSetting) provider =>
          <[p_name provider :=
              {| pc_provider := provider;
              pc_settings :=
                Some (JObj [(js "enabled",
                             JBool (negb (bool_decide
                                            (p_name provider ∈ LOCAL_PROVIDERS))))]);
              pc_extra := None |}]>
            acc) ps acc !! k)
  = (if bool_decide (k ∈ map p_name ps)
     then Some (Some (JObj [(js "enabled",
                             JBool (negb (bool_decide (k ∈ LOCAL_PROVIDERS))))]))
     else pc_settings <$> (acc !! k))
  /\ (forall cfg,
        fold_left
          (fun (acc : ProviderSetting) provider =>
             <[p_name provider :=
              {| pc_provider := provider;
              pc_settings :=
                Some (JObj [(js "enabled",
                             JBool (negb (bool_decide
                                            (p_name provider ∈ LOCAL_PROVIDERS))))]);
              pc_extra := None |}]>
            acc) ps acc !! k = Some cfg ->
        acc !! k = Some cfg
        \/ (pc_provider cfg ∈ ps /\ p_name (pc_provider cfg) = k
            /\ pc_extra cfg = None)).
Proof.
  revert acc. induction ps as [|p ps IH]; intros acc; cbn [fold_left map].
  - split; [reflexivity|]. intros cfg H. by left.
  - destruct (IH (<[p_name p :=
                    {| pc_provider := p;
                       pc_settings :=
                         Some (JObj [(js "enabled",
                                      JBool (negb (bool_decide
                                                     (p_name p ∈ LOCAL_PROVIDERS))))]);
                       pc_extra := None |}]> acc)) as [IH1 IH2].
    split.
    + rewrite IH1. destruct (decide (k ∈ map p_name ps)) as [Hin|Hin].
      * rewrite (bool_decide_eq_true_2 _ Hin).
        rewrite (bool_decide_eq_true_2 (k ∈ p_name p :: map p_name ps))
          by (apply elem_of_cons; by right).
        reflexivity.
      * rewrite (bool_decide_eq_false_2 _ Hin).
        destruct (decide (p_name p = k)) as [<-|Hne].
        -- rewrite lookup_insert_eq.
           rewrite (bool_decide_eq_true_2 (p_name p ∈ p_name p :: map p_name ps))
             by (apply elem_of_cons; by left).
           reflexivity.
        -- rewrite lookup_insert_ne by exact Hne.
           rewrite (bool_decide_eq_false_2 (k ∈ p_name p :: map p_name ps));
             [reflexivity|].
           rewrite not_elem_of_cons. split; [congruence|exact Hin].
    + intros cfg Hcfg. destruct (IH2 cfg Hcfg) as [Hacc|(Hin & Hname & Hex)].
      * destruct (decide (p_name p = k)) as [<-|Hne].
        -- rewrite lookup_insert_eq in Hacc. injection Hacc as <-. right.
           split; [apply elem_of_cons; by left|by split].
        -- rewrite lookup_insert_ne in Hacc by exact Hne. by left.
      * right. split; [apply elem_of_cons; by right|by split].
Qed.

Lemma defaultProviderSettings_lookup (k : jsstring) :
  pc_settings <$> (defaultProviderSettings !! k)
  = (if bool_decide (k ∈ map p_name PROVIDER_LIST)
     then Some (Some (JObj [(js "enabled",
                             JBool (negb (bool_decide (k ∈ LOCAL_PROVIDERS))))]))
     else None)
  /\ (forall cfg, defaultProviderSettings !! k = Some cfg ->
        pc_provider cfg ∈ PROVIDER_LIST /\ p_name (pc_provider cfg) = k
        /\ pc_extra cfg = None).
Proof.
  destruct (defaults_fold PROVIDER_LIST ∅ k) as [H1 H2]. split.
  - unfold defaultProviderSettings. rewrite H1. by rewrite lookup_empty.
  - intros cfg Hcfg. destruct (H2 cfg Hcfg) as [H|H]; [|exact H].
    by rewrite lookup_empty in H.
Qed.

(** ** What the loop over the stored entries keeps *)

Lemma assignEntry_providers key cfg r st k :
  ap_settings st !! key = Some cfg ->
  pc_provider <$> (ap_settings (assignEntry key cfg r st) !! k)
  = pc_provider <$> (ap_settings st !! k).
Proof.
  intros Hkey. unfold assignEntry.
  destruct r as [x|]; [|destruct (ap_inherited st)]; cbn [ap_settings];
    (destruct (decide (key = k)) as [<-|Hne];
     [by rewrite lookup_insert_eq, Hkey|by rewrite lookup_insert_ne]).
Qed.

Lemma retarget_providers shared st k :
  pc_provider <$> (ap_settings (retarget shared st) !! k)
  = pc_provider <$> (ap_settings st !! k).
Proof.
  unfold retarget. cbn [ap_settings]. rewrite map_lookup_imap.
  destruct (ap_settings st !! k) as [cfg|]; [|reflexivity]. cbn.
  by destruct (bool_decide _).
Qed.

(** The loop changes no provider and no key. *)
Lemma applySavedFrom_providers entries : forall st k,
  pc_provider <$> (ap_settings (applySavedFrom entries st).1 !! k)
  = pc_provider <$> (ap_settings st !! k).
Proof.
  induction entries as [|[key value] rest IH]; intros st k; cbn [applySavedFrom];
    [reflexivity|].
  destruct (ap_settings st !! key) as [cfg|] eqn:Hkey.
  - destruct (readSettings value) as [r|e]; [|reflexivity].
    rewrite IH. by apply assignEntry_providers.
  - destruct (str_eqb key PROTO).
    { destruct (readSettings value) as [[x|]|e]; [|apply IH|reflexivity].
      by rewrite IH. }
    destruct (bool_decide (key ∈ OBJECT_PROTOTYPE_FUNCTIONS)).
    { destruct (readSettings value) as [r|e]; [apply IH|reflexivity]. }
    destruct (str_eqb key (js "settings")); [|apply IH].
    destruct (ap_inherited st) as [shared|]; [|apply IH].
    destruct (truthy (sh_value shared)); [|apply IH].
    destruct (readSettings value) as [r|e]; [|reflexivity].
    destruct (assignShared shared r) as [shared'|e]; [|reflexivity].
    rewrite IH. apply retarget_providers.
Qed.

Lemma applySaved_providers entries acc k :
  pc_provider <$> ((applySaved entries acc).1 !! k) = pc_provider <$> (acc !! k).
Proof.
  unfold applySaved.
  pose proof (applySavedFrom_providers entries
                {| ap_settings := acc; ap_inherited := None; ap_aliases := [] |} k)
    as H.
  by destruct (applySavedFrom entries _) as [st e].
Qed.

Lemma applySavedFrom_app before rest st :
  (applySavedFrom before st).2 = None ->
  applySavedFrom (before ++ rest) st
  = applySavedFrom rest (applySavedFrom before st).1.
Proof.
  revert st. induction before as [|[key value] before IH]; intros st;
    cbn [applySavedFrom app]; [reflexivity|].
  destruct (ap_settings st !! key) as [cfg|].
  - destruct (readSettings value); [apply IH|discriminate].
  - destruct (str_eqb key PROTO).
    { destruct (readSettings value) as [[x|]|e]; [apply IH|apply IH|discriminate]. }
    destruct (bool_decide (key ∈ OBJECT_PROTOTYPE_FUNCTIONS)).
    { destruct (readSettings value); [apply IH|discriminate]. }
    destruct (str_eqb key (js "settings")); [|apply IH].
    destruct (ap_inherited st) as [shared|]; [|apply IH].
    destruct (truthy (sh_value shared)); [|apply IH].
    destruct (readSettings value) as [r|e]; [|discriminate].
    destruct (assignShared shared r); [apply IH|discriminate].
Qed.

Lemma readSettings_not_null value :
  value <> JNull ->
  readSettings value
  = Ok match get_opt (js "settings") value with
       | Some x => Own x
       | None => Inherited
       end.
Proof. by destruct value. Qed.

Lemma assoc_fresh {A} k (kvs : list (jsstring * A)) :
  k ∉ map fst kvs -> assoc k kvs = None.
Proof.
  induction kvs as [|[k' v'] kvs IH]; [reflexivity|]. cbn.
  rewrite not_elem_of_cons. intros [Hne Hk].
  unfold str_eqb. rewrite bool_decide_eq_false_2 by congruence. by apply IH.
Qed.

(** The loop on entries with distinct keys, none of them [null] and none
    under a name that [initialSettings] inherits: every entry under the
    name of a provider is applied, [Object.prototype] stays as it is, and
    a value without a [settings] of its own gets what
    [Object.prototype.settings] holds. *)
Lemma applySavedFrom_lookup entries : forall st,
  NoDup (map fst entries) ->
  Forall (fun e : jsstring * JSON =>
            e.2 <> JNull /\ e.1 <> PROTO /\ (e.1 ∉ OBJECT_PROTOTYPE_FUNCTIONS)
            /\ (ap_inherited st <> None -> e.1 <> js "settings")) entries ->
  (applySavedFrom entries st).2 = None
  /\ ap_inherited (applySavedFrom entries st).1 = ap_inherited st
  /\ forall k,
       ap_settings (applySavedFrom entries st).1 !! k
       = match ap_settings st !! k with
         | Some cfg =>
             Some match assoc k entries with
                  | Some value =>
                      {| pc_provider := pc_provider cfg;
                         pc_settings :=
                           match get_opt (js "settings") value with
                           | Some x => Some x
                           | None => sh_value <$> ap_inherited st
                           end;
                         pc_extra :=
                           match get_opt (js "settings") value with
                           | Some _ => None
                           | None => ap_inherited st ≫= sh_extra
                           end |}
                  | None => cfg
                  end
         | None => None
         end.
Proof.
  induction entries as [|[key value] rest IH]; intros st Hnd Hok.
  - split; [reflexivity|]. split; [reflexivity|].
    intros k. cbn. by destruct (ap_settings st !! k).
  - cbn in Hnd. apply NoDup_cons in Hnd as [Hkey Hnd].
    apply Forall_cons in Hok as [(Hv & Hproto & Hfun & Hset) Hok].
    cbn [fst snd] in Hv, Hproto, Hfun, Hset.
    pose proof (assoc_fresh key rest Hkey) as Hfresh.
    destruct (ap_settings st !! key) as [cfg|] eqn:Hacc.
    + set (r := match get_opt (js "settings") value with
                | Some x => Own x
                | None => Inherited
                end).
      assert (Hstep : applySavedFrom ((key, value) :: rest) st
                      = applySavedFrom rest (assignEntry key cfg r st)).
      { cbn [applySavedFrom]. by rewrite Hacc, (readSettings_not_null _ Hv). }
      rewrite Hstep.
      assert (Hinh : ap_inherited (assignEntry key cfg r st) = ap_inherited st).
      { unfold assignEntry. destruct r; [|destruct (ap_inherited st)]; reflexivity. }
      destruct (IH (assignEntry key cfg r st) Hnd) as (IH1 & IH2 & IH3).
      { by rewrite Hinh. }
      split; [exact IH1|]. split; [by rewrite IH2|].
      intros k. rewrite IH3, Hinh. cbn [assoc]. unfold str_eqb.
      assert (Hnew : ap_settings (assignEntry key cfg r st) !! key
                     = Some {| pc_provider := pc_provider cfg;
                               pc_settings :=
                                 match get_opt (js "settings") value with
                                 | Some x => Some x
                                 | None => sh_value <$> ap_inherited st
                                 end;
                               pc_extra :=
                                 match get_opt (js "settings") value with
                                 | Some _ => None
                                 | None => ap_inherited st ≫= sh_extra
                                 end |}).
      { unfold assignEntry, r.
        destruct (get_opt (js "settings") value); [|destruct (ap_inherited st)];
          cbn [ap_settings]; by rewrite lookup_insert_eq. }
      assert (Hold : forall k, key <> k ->
                ap_settings (assignEntry key cfg r st) !! k = ap_settings st !! k).
      { intros k0 Hne. unfold assignEntry.
        destruct r; [|destruct (ap_inherited st)]; cbn [ap_settings];
          by rewrite lookup_insert_ne. }
      destruct (decide (key = k)) as [<-|Hne].
      * rewrite Hnew, Hacc, Hfresh, bool_decide_eq_true_2 by reflexivity.
        reflexivity.
      * rewrite (Hold _ Hne), (bool_decide_eq_false_2 _ Hne). reflexivity.
    + assert (Hstep : applySavedFrom ((key, value) :: rest) st
                      = applySavedFrom rest st).
      { cbn [applySavedFrom]. rewrite Hacc. unfold str_eqb.
        rewrite (bool_decide_eq_false_2 _ Hproto), (bool_decide_eq_false_2 _ Hfun).
        case_bool_decide as Hs; [|reflexivity].
        destruct (ap_inherited st) as [shared|] eqn:Hi; [|reflexivity].
        exfalso. by apply Hset. }
      rewrite Hstep. destruct (IH st Hnd Hok) as (IH1 & IH2 & IH3).
      split; [exact IH1|]. split; [exact IH2|].
      intros k. rewrite IH3. cbn [assoc]. unfold str_eqb.
      destruct (decide (key = k)) as [<-|Hne].
      * by rewrite Hacc.
      * by rewrite (bool_decide_eq_false_2 _ Hne).
Qed.

Lemma getInitialProviderSettings_providers (ls : Storage) :
  exists s,
    outcome (getInitialProviderSettings ls) = Ok s
    /\ forall k, pc_provider <$> (s !! k)
                 = pc_provider <$> (defaultProviderSettings !! k).
Proof.
  unfold getInitialProviderSettings.
  destruct isBrowser; [|by eexists].
  destruct (ls !! PROVIDER_SETTINGS_KEY) as [saved|]; [|by eexists].
  destruct (str_truthy saved); [|by eexists].
  destruct (JSON_parse saved) as [parsed|]; [|by eexists].
  destruct (object_entries parsed) as [entries|e]; [|by eexists].
  pose proof (applySaved_providers entries defaultProviderSettings) as H.
  destruct (applySaved entries defaultProviderSettings) as [s [e|]];
    exists s; (split; [reflexivity|exact H]).
Qed.

Lemma getInitialProviderSettings_keys (ls : Storage) :
  exists s,
    outcome (getInitialProviderSettings ls) = Ok s
    /\ (forall k, is_Some (s !! k) <-> k ∈ map p_name PROVIDER_LIST)
    /\ (forall k cfg, s !! k = Some cfg ->
          pc_provider cfg ∈ PROVIDER_LIST /\ p_name (pc_provider cfg) = k).
Proof.
  destruct (getInitialProviderSettings_providers ls) as (s & Hs & Hp).
  exists s. split; [exact Hs|]. split.
  - intros k. specialize (Hp k).
    destruct (defaultProviderSettings_lookup k) as [Hd _].
    rewrite <- !fmap_is_Some with (f := pc_provider) at 1. rewrite Hp.
    rewrite fmap_is_Some, <- fmap_is_Some with (f := pc_settings), Hd.
    case_bool_decide; [by split|].
    split; [by intros [? [=]]|done].
  - intros k cfg Hcfg. specialize (Hp k). rewrite Hcfg in Hp. cbn in Hp.
    destruct (defaultProviderSettings !! k) as [cfg0|] eqn:Hd; [|discriminate].
    injection Hp as ->.
    destruct (defaultProviderSettings_lookup k) as [_ Hk].
    destruct (Hk _ Hd) as (H1 & H2 & _). by split.
Qed.

(** X10.  Whatever the storage holds and whatever [JSON.parse] makes of it,
    [providersStore] starts with exactly one entry for each provider name
    of the registry, and the entry under a name holds a provider of the
    registry with that name: stored entries never add, remove or replace
    a provider. *)
Theorem provider_settings_follow_registry (ls : Storage) :
  exists s,
    outcome (getInitialProviderSettings ls) = Ok s
    /\ (forall k, is_Some (s !! k) <-> k ∈ map p_name PROVIDER_LIST)
    /\ (forall k cfg, s !! k = Some cfg ->
          pc_provider cfg ∈ PROVIDER_LIST /\ p_name (pc_provider cfg) = k).
Proof. apply getInitialProviderSettings_keys. Qed.

(** The settings that the loop leaves for a provider, from the default
    settings on. *)
Lemma applied_lookup entries k :
  NoDup (map fst entries) ->
  Forall (fun e : jsstring * JSON =>
            e.2 <> JNull /\ e.1 <> PROTO /\ (e.1 ∉ OBJECT_PROTOTYPE_FUNCTIONS))
    entries ->
  k ∈ map p_name PROVIDER_LIST ->
  (applySaved entries defaultProviderSettings).2 = None
  /\ pc_settings <$> ((applySaved entries defaultProviderSettings).1 !! k)
     = Some match assoc k entries with
            | Some value => get_opt (js "settings") value
            | None =>
                Some (JObj [(js "enabled",
                            JBool (negb (bool_decide (k ∈ LOCAL_PROVIDERS))))])
            end
  /\ pc_extra <$> ((applySaved entries defaultProviderSettings).1 !! k) = Some None.
Proof.
  intros Hnd Hok Hk. unfold applySaved.
  destruct (applySavedFrom_lookup entries
              {| ap_settings := defaultProviderSettings;
                 ap_inherited := None; ap_aliases := [] |} Hnd)
    as (H1 & _ & H3).
  { eapply Forall_impl; [exact Hok|]. intros e (? & ? & ?). by repeat split. }
  destruct (applySavedFrom entries _) as [st e]. cbn [fst snd] in *.
  split; [exact H1|]. rewrite H3. cbn [ap_settings ap_inherited].
  destruct (defaultProviderSettings_lookup k) as [Hd Hex].
  rewrite (bool_decide_eq_true_2 _ Hk) in Hd.
  destruct (defaultProviderSettings !! k) as [cfg|] eqn:Hcfg; [|discriminate].
  destruct (Hex cfg eq_refl) as (_ & _ & Hextra).
  cbn [fmap option_fmap option_map] in Hd. injection Hd as Hd.
  cbn [fmap option_fmap option_map mbind option_bind].
  destruct (assoc k entries) as [value|]; cbn [pc_settings pc_extra].
  - split; by destruct (get_opt (js "settings") value).
  - by rewrite Hd, Hextra.
Qed.

(** X11.  In a browser, when the stored provider settings parse to an
    object with distinct keys, no [null] entry and no key that is the
    name of a property of [Object.prototype], every provider of the
    registry gets the [settings] stored under its name ([undefined] when
    the stored entry has none), a provider without a stored entry keeps
    the default (enabled unless it is a local provider), and nothing is
    logged. *)
Theorem stored_provider_settings_applied (ls : Storage)
    (saved : jsstring) (entries : list (jsstring * JSON)) :
  isBrowser = true ->
  ls !! PROVIDER_SETTINGS_KEY = Some saved ->
  saved <> [] ->
  JSON_parse saved = Some (JObj entries) ->
  NoDup (map fst entries) ->
  Forall (fun e : jsstring * JSON =>
            e.2 <> JNull /\ e.1 <> PROTO /\ (e.1 ∉ OBJECT_PROTOTYPE_FUNCTIONS))
    entries ->
  exists s,
    getInitialProviderSettings ls = ([], Ok s)
    /\ forall k, k ∈ map p_name PROVIDER_LIST ->
         pc_settings <$> (s !! k)
         = Some match assoc k entries with
                | Some value => get_opt (js "settings") value
                | None =>
                    Some (JObj [(js "enabled",
                                JBool (negb (bool_decide (k ∈ LOCAL_PROVIDERS))))])
                end
         /\ pc_extra <$> (s !! k) = Some None.
Proof.
  intros Hb Hls Hne Hparse Hnd Hok.
  unfold getInitialProviderSettings. rewrite Hb, Hls, Hparse.
  destruct saved as [|c saved]; [done|]. cbn [str_truthy object_entries].
  destruct (applySaved entries defaultProviderSettings) as [s err] eqn:Happ.
  assert (Herr : err = None).
  { unfold applySaved in Happ.
    destruct (applySavedFrom_lookup entries
                {| ap_settings := defaultProviderSettings;
                   ap_inherited := None; ap_aliases := [] |} Hnd)
      as (H1 & _).
    { eapply Forall_impl; [exact Hok|]. intros e (? & ? & ?). by repeat split. }
    destruct (applySavedFrom entries _) as [st e]. cbn in H1.
    by injection Happ as _ <-. }
  subst err. exists s. split; [reflexivity|].
  intros k Hk. destruct (applied_lookup entries k Hnd Hok Hk) as (_ & H & Hex).
  rewrite Happ in H, Hex. by split.
Qed.

(** X12.  A [null] entry stops the loop when its key is the name of a
    provider of the registry or of a property of [Object.prototype]: the
    entries in front of it are applied, the providers of the entries
    behind it keep what they had, and the failure is logged once. *)
Theorem null_entry_stops_applying (ls : Storage) (saved key : jsstring)
    (before rest : list (jsstring * JSON)) :
  isBrowser = true ->
  ls !! PROVIDER_SETTINGS_KEY = Some saved ->
  saved <> [] ->
  JSON_parse saved = Some (JObj (before ++ (key, JNull) :: rest)) ->
  key ∈ map p_name PROVIDER_LIST ++ PROTO :: OBJECT_PROTOTYPE_FUNCTIONS ->
  NoDup (map fst before) ->
  Forall (fun e : jsstring * JSON =>
            e.2 <> JNull /\ e.1 <> PROTO /\ (e.1 ∉ OBJECT_PROTOTYPE_FUNCTIONS))
    before ->
  exists s,
    getInitialProviderSettings ls = ([ErrorParsingProviderSettings], Ok s)
    /\ forall k, k ∈ map p_name PROVIDER_LIST ->
         pc_settings <$> (s !! k)
         = Some match assoc k before with
                | Some value => get_opt (js "settings") value
                | None =>
                    Some (JObj [(js "enabled",
                                JBool (negb (bool_decide (k ∈ LOCAL_PROVIDERS))))])
                end.
Proof.
  intros Hb Hls Hne Hparse Hkey Hnd Hok.
  unfold getInitialProviderSettings. rewrite Hb, Hls, Hparse.
  destruct saved as [|c saved]; [done|]. cbn [str_truthy object_entries].
  assert (Hlook : forall k, k ∈ map p_name PROVIDER_LIST ->
            pc_settings <$> ((applySaved before defaultProviderSettings).1 !! k)
            = Some match assoc k before with
                   | Some value => get_opt (js "settings") value
                   | None =>
                       Some (JObj [(js "enabled",
                                   JBool (negb (bool_decide (k ∈ LOCAL_PROVIDERS))))])
                   end).
  { intros k Hk. by destruct (applied_lookup before k Hnd Hok Hk) as (_ & H & _). }
  unfold applySaved in *.
  destruct (applySavedFrom_lookup before
              {| ap_settings := defaultProviderSettings;
                 ap_inherited := None; ap_aliases := [] |} Hnd)
    as (H1 & H2 & H3).
  { eapply Forall_impl; [exact Hok|]. intros e (? & ? & ?). by repeat split. }
  rewrite (applySavedFrom_app _ _ _ H1).
  destruct (applySavedFrom before _) as [st e]. cbn [fst snd] in *.
  assert (Hstop : applySavedFrom ((key, JNull) :: rest) st = (st, Some typeError)).
  { cbn [applySavedFrom readSettings].
    destruct (ap_settings st !! key) as [cfg|] eqn:Hcfg; [reflexivity|].
    unfold str_eqb. case_bool_decide as Hp; [reflexivity|].
    case_bool_decide as Hf; [reflexivity|]. exfalso.
    apply elem_of_app in Hkey as [Hkey|Hkey].
    - destruct (defaultProviderSettings_lookup key) as [Hd _].
      rewrite (bool_decide_eq_true_2 _ Hkey) in Hd.
      rewrite H3 in Hcfg. cbn [ap_settings] in Hcfg.
      by destruct (defaultProviderSettings !! key).
    - apply elem_of_cons in Hkey as [Hkey|Hkey]; [by apply Hp|by apply Hf]. }
  rewrite Hstop. eexists. split; [reflexivity|]. exact Hlook.
Qed.


End ProviderSettingsProofs.

(** With the stored settings of [Samples.savedProviders]. *)
Lemma stored_provider_settings_applied_witness :
  let ls : Settings.Storage :=
    <[Settings.PROVIDER_SETTINGS_KEY :=
        Samples.print_json (JObj Samples.savedProviders)]> ∅ in
  exists s,
    Settings.getInitialProviderSettings (host:=Demo.host) (browser:=Samples.browser) ls
    = ([], Ok s)
    /\ Settings.pc_settings <$> (s !! js "OpenAI")
       = Some (Some (JObj [(js "enabled", JBool true);
                           (js "apiKey", JStr (js "sk-1"))]))
    /\ Settings.pc_settings <$> (s !! js "Ollama")
       = Some (Some (JObj [(js "enabled", JBool false)])).
Proof.
  cbv zeta.
  destruct (stored_provider_settings_applied
              (host:=Demo.host) (browser:=Samples.browser)
              (<[Settings.PROVIDER_SETTINGS_KEY :=
                   Samples.print_json (JObj Samples.savedProviders)]> ∅)
              (Samples.print_json (JObj Samples.savedProviders))
              Samples.savedProviders eq_refl)
    as (s & Hs & Hk).
  - vm_compute. reflexivity.
  - discriminate.
  - vm_compute. reflexivity.
  - apply (bool_decide_unpack _). vm_compute. exact I.
  - repeat constructor; try discriminate;
      apply (bool_decide_unpack _); vm_compute; exact I.
  - exists s. split; [exact Hs|]. split.
    + apply (Hk (js "OpenAI")). apply (bool_decide_unpack _). vm_compute. exact I.
    + apply (Hk (js "Ollama")). apply (bool_decide_unpack _). vm_compute. exact I.
Defined.

(** With the stored settings of [Samples.inheritedNull]: the [null] under
    [toString] stops the loop before the entry of OpenAI is read. *)
Lemma null_entry_stops_applying_witness :
  let ls : Settings.Storage :=
    <[Settings.PROVIDER_SETTINGS_KEY :=
        Samples.print_json (JObj Samples.inheritedNull)]> ∅ in
  exists s,
    Settings.getInitialProviderSettings (host:=Demo.host) (browser:=Samples.browser) ls
    = ([ErrorParsingProviderSettings], Ok s)
    /\ Settings.pc_settings <$> (s !! js "OpenAI")
       = Some (Some (JObj [(js "enabled", JBool true)])).
Proof.
  cbv zeta.
  destruct (null_entry_stops_applying
              (host:=Demo.host) (browser:=Samples.browser)
              (<[Settings.PROVIDER_SETTINGS_KEY :=
                   Samples.print_json (JObj Samples.inheritedNull)]> ∅)
              (Samples.print_json (JObj Samples.inheritedNull))
              (js "toString")
              []
              [(js "OpenAI",
                JObj [(js "settings",
                       JObj [(js "enabled", JBool true);
                             (js "apiKey", JStr (js "sk-1"))])])]
              eq_refl)
    as (s & Hs & Hk).
  - vm_compute. reflexivity.
  - discriminate.
  - vm_compute. reflexivity.
  - apply (bool_decide_unpack _). vm_compute. exact I.
  - constructor.
  - constructor.
  - exists s. split; [exact Hs|].
    apply (Hk (js "OpenAI")). apply (bool_decide_unpack _). vm_compute. exact I.
Defined.


(** ** The flags and the prompt identifier *)

Section AtomsProofs.
Import Settings Updates.
Context {host : Host} {browser : Browser} {serializer : Serializer}.

Lemma stored_bool_insert_eq (ls : Storage) k b d :
  isBrowser = true -> getStoredBoolean (<[k := stringify_bool b]> ls) k d = b.
Proof.
  intros Hb. unfold getStoredBoolean. rewrite Hb, lookup_insert_eq.
  destruct b; by apply bool_decide_eq_true_2 || apply bool_decide_eq_false_2.
Qed.

Lemma stored_bool_insert_ne (ls : Storage) k k' v d :
  k <> k' -> getStoredBoolean (<[k := v]> ls) k' d = getStoredBoolean ls k' d.
Proof. intros Hne. unfold getStoredBoolean. by rewrite lookup_insert_ne. Qed.

Lemma stored_string_insert_eq (ls : Storage) k v d :
  isBrowser = true -> getStoredString (<[k := v]> ls) k d = str_or v d.
Proof. intros Hb. unfold getStoredString. by rewrite Hb, lookup_insert_eq. Qed.

Lemma stored_string_insert_ne (ls : Storage) k k' v d :
  k <> k' -> getStoredString (<[k := v]> ls) k' d = getStoredString ls k' d.
Proof. intros Hne. unfold getStoredString. by rewrite lookup_insert_ne. Qed.

Lemma str_or_idem s d : str_or (str_or s d) d = str_or s d.
Proof. unfold str_or. destruct s; cbn; [by destruct d|reflexivity]. Qed.

Ltac atoms_simpl :=
  cbn [latestBranchStore autoSelectStarterTemplate enableContextOptimizationStore
       isEventLogsEnabled promptStore developerModeStore
       latestBranch autoSelectTemplate Settings.contextOptimization eventLogs
       Settings.promptId developerMode fst snd] in *.

Lemma initialAtoms_afterReload (ls : Storage) :
  initialAtoms ls = afterReload (initialAtoms ls).
Proof.
  unfold afterReload, initialAtoms, getInitialSettings. atoms_simpl. f_equal.
  unfold getStoredString. destruct isBrowser; [|reflexivity].
  destruct (ls !! PROMPT_ID) as [s|]; [|reflexivity].
  symmetry. apply str_or_idem.
Qed.

Lemma applyUpdate_afterReload (st : Atoms * Storage) (u : Update) :
  isBrowser = true ->
  initialAtoms st.2 = afterReload st.1 ->
  initialAtoms (applyUpdate st u).2 = afterReload (applyUpdate st u).1.
Proof.
  intros Hb Hinv. destruct st as [a ls]. cbn [fst snd] in Hinv.
  pose proof (f_equal latestBranchStore Hinv) as H1.
  pose proof (f_equal autoSelectStarterTemplate Hinv) as H2.
  pose proof (f_equal enableContextOptimizationStore Hinv) as H3.
  pose proof (f_equal isEventLogsEnabled Hinv) as H4.
  pose proof (f_equal promptStore Hinv) as H5.
  pose proof (f_equal developerModeStore Hinv) as H6.
  clear Hinv. unfold initialAtoms, afterReload, getInitialSettings in *.
  atoms_simpl.
  destruct u; cbn [applyUpdate updateLatestBranch updateAutoSelectTemplate
                   updateContextOptimization updateEventLogs updatePromptId
                   setDeveloperMode fst snd];
    rewrite ?Hb; atoms_simpl;
    rewrite ?stored_bool_insert_eq, ?stored_string_insert_eq by exact Hb;
    rewrite ?stored_bool_insert_ne, ?stored_string_insert_ne by (by vm_compute);
    rewrite ?H1, ?H2, ?H3, ?H4, ?H5, ?H6; reflexivity.
Qed.

(** X13.  In a browser, after any calls of the update functions of the
    flags, of the prompt identifier and of the developer mode, a page that
    is loaded next starts with the values that the atoms hold now; only an
    empty prompt identifier comes back as ['default'].  So every update is
    written to the storage under the key that [getInitialSettings] reads,
    in the form that it reads. *)
Theorem updates_survive_reload (ls : Storage) (us : list Update) :
  isBrowser = true ->
  initialAtoms (runUpdates (initialAtoms ls, ls) us).2
  = afterReload (runUpdates (initialAtoms ls, ls) us).1.
Proof.
  intros Hb. unfold runUpdates.
  assert (Hinv : initialAtoms (initialAtoms ls, ls).2
                 = afterReload (initialAtoms ls, ls).1)
    by apply initialAtoms_afterReload.
  revert Hinv. generalize (initialAtoms ls, ls).
  induction us as [|u us IH]; intros st Hinv; cbn [fold_left]; [exact Hinv|].
  apply IH. by apply applyUpdate_afterReload.
Qed.

End AtomsProofs.

Lemma updates_survive_reload_witness :
  let us := [Updates.UpdateAutoSelectTemplate true; Updates.UpdatePromptId [];
             Updates.SetDeveloperMode true; Updates.UpdateAutoSelectTemplate false] in
  let st := Updates.runUpdates (browser:=Demo.browser)
              (Updates.initialAtoms (host:=Demo.host) (browser:=Demo.browser) ∅, ∅)
              us in
  Updates.initialAtoms (host:=Demo.host) (browser:=Demo.browser) st.2
  = Updates.afterReload st.1
  /\ Updates.promptStore st.1 = []
  /\ Updates.promptStore
       (Updates.initialAtoms (host:=Demo.host) (browser:=Demo.browser) st.2)
     = js "default".
Proof.
  cbv zeta. split.
  - apply (updates_survive_reload (host:=Demo.host) (browser:=Demo.browser)). reflexivity.
  - split; vm_compute; reflexivity.
Defined.

(** ** The tab configuration *)

Section TabProofs.
Import Settings Updates.
Context {host : Host} {browser : Browser} {serializer : Serializer}.

Lemma tabInWindow_object name tab :
  tabInWindow name tab = Ok true ->
  exists props, tab = JObj props /\ assoc (js "window") props = Some (JStr name).
Proof.
  unfold tabInWindow, get, get_opt.
  destruct tab as [| | | | |props]; try discriminate.
  destruct (assoc (js "window") props) as [[| | |w| |]|] eqn:Ha; try discriminate.
  unfold str_eqb. case_bool_decide as Hw; [|discriminate].
  intros _. exists props. by rewrite <- Hw.
Qed.

Lemma filterTabs_windows name tabs r :
  filterTabs name tabs = Ok r ->
  Forall (fun tab => tabInWindow name tab = Ok true) r.
Proof.
  revert r. induction tabs as [|tab tabs IH]; intros r; cbn [filterTabs].
  - intros [= <-]. constructor.
  - destruct (tabInWindow name tab) as [b|e] eqn:Hb; [|discriminate].
    destruct (filterTabs name tabs) as [rest'|e]; [|discriminate].
    intros [= <-]. specialize (IH _ eq_refl).
    destruct b; [by constructor|exact IH].
Qed.

Lemma filterTabs_same name tabs :
  Forall (fun tab => tabInWindow name tab = Ok true) tabs ->
  filterTabs name tabs = Ok tabs.
Proof.
  induction 1 as [|tab tabs Htab _ IH]; cbn [filterTabs]; [reflexivity|].
  by rewrite Htab, IH.
Qed.

Lemma filter_inWindow name tabs :
  Forall (fun tab => tabInWindow name tab = Ok true)
    (List.filter (inWindow name) tabs).
Proof.
  apply Forall_forall. intros tab Hin. apply list_elem_of_In, filter_In in Hin as [_ Hw].
  unfold inWindow in Hw. by destruct (tabInWindow name tab) as [[]|].
Qed.

Lemma defaultTabConfiguration_windows : windows_ok defaultTabConfiguration.
Proof. split; apply filter_inWindow. Qed.

Lemma parsedTabConfiguration_windows parsed c :
  parsedTabConfiguration parsed = Ok c -> windows_ok c.
Proof.
  unfold parsedTabConfiguration, filterProperty.
  destruct (get (js "userTabs") parsed) as [[[| | | |u|]|]|]; try discriminate.
  destruct (filterTabs (js "user") u) as [u'|] eqn:Hu; [|discriminate].
  destruct (get (js "developerTabs") parsed) as [[[| | | |d|]|]|]; try discriminate.
  destruct (filterTabs (js "developer") d) as [d'|] eqn:Hd; [|discriminate].
  intros [= <-]. split; cbn; by eapply filterTabs_windows.
Qed.

Lemma getInitialTabConfiguration_windows (ls : Storage) :
  exists c, getInitialTabConfiguration ls = ([], Ok c) /\ windows_ok c.
Proof.
  pose proof defaultTabConfiguration_windows as Hd.
  unfold getInitialTabConfiguration.
  destruct isBrowser; [|by eexists].
  destruct (ls !! TAB_CONFIGURATION) as [saved|]; [|by eexists].
  destruct (str_truthy saved); [|by eexists].
  destruct (JSON_parse saved) as [parsed|]; [|by eexists].
  destruct (parsedTabConfiguration parsed) as [c|e] eqn:Hp; [|by eexists].
  exists c. split; [reflexivity|]. by eapply parsedTabConfiguration_windows.
Qed.

Lemma windows_not_null name tabs :
  Forall (fun tab => tabInWindow name tab = Ok true) tabs ->
  Forall (fun tab => tab <> JNull) tabs.
Proof.
  intros H. eapply Forall_impl; [exact H|]. intros tab Htab. cbn in Htab.
  by apply tabInWindow_object in Htab as (props & -> & _).
Qed.

Lemma get_not_null k tab : tab <> JNull -> get k tab = Ok (get_opt k tab).
Proof. by destruct tab. Qed.

Lemma replaceTab_not_null config id tabs :
  Forall (fun tab => tab <> JNull) tabs ->
  replaceTab config id tabs
  = Ok (map (fun tab => if strict_eq (get_opt (js "id") tab) id then config else tab)
          tabs).
Proof.
  induction 1 as [|tab tabs Htab _ IH]; cbn [replaceTab map]; [reflexivity|].
  by rewrite (get_not_null _ _ Htab), IH.
Qed.

Lemma someTab_not_null id tabs :
  Forall (fun tab => tab <> JNull) tabs ->
  someTab id tabs
  = Ok (existsb (fun tab => strict_eq (get_opt (js "id") tab) id) tabs).
Proof.
  induction 1 as [|tab tabs Htab _ IH]; cbn [someTab existsb]; [reflexivity|].
  rewrite (get_not_null _ _ Htab).
  destruct (strict_eq _ id); [reflexivity|exact IH].
Qed.

Lemma typedTab_window config :
  typedTab config = true ->
  exists props i w,
    config = JObj props /\ assoc (js "id") props = Some (JStr i)
    /\ assoc (js "window") props = Some (JStr w)
    /\ (w = js "user" \/ w = js "developer").
Proof.
  unfold typedTab, get_opt. destruct config as [| | | | |props]; try discriminate.
  destruct (assoc (js "id") props) as [[| | |i| |]|] eqn:Hi; try discriminate.
  unfold inWindow, tabInWindow, get, get_opt.
  destruct (assoc (js "window") props) as [[| | |w| |]|] eqn:Hw; try discriminate.
  unfold str_eqb. intros H. exists props, i, w.
  repeat split; try done.
  apply orb_true_iff in H as [H|H]; apply bool_decide_eq_true in H; auto.
Qed.

Lemma sameId_self config : typedTab config = true -> sameId config config = true.
Proof.
  intros Ht. destruct (typedTab_window _ Ht) as (props & i & w & -> & Hi & _).
  unfold sameId, get_opt. rewrite Hi. cbn. unfold str_eqb.
  by apply bool_decide_eq_true_2.
Qed.

Lemma existsb_replaced config tabs :
  sameId config config = true ->
  existsb (sameId config)
    (map (fun tab => if sameId config tab then config else tab) tabs)
  = existsb (sameId config) tabs.
Proof.
  intros Hc. induction tabs as [|tab tabs IH]; cbn [map existsb]; [reflexivity|].
  rewrite IH. destruct (sameId config tab) eqn:Ht; by rewrite ?Hc, ?Ht.
Qed.

(** The two steps of lines 212-215 on a list without [null]. *)
Lemma put_steps config tabs :
  typedTab config = true ->
  Forall (fun tab => tab <> JNull) tabs ->
  exists updatedTabs found,
    replaceTab config (get_opt (js "id") config) tabs = Ok updatedTabs
    /\ someTab (get_opt (js "id") config) updatedTabs = Ok found
    /\ (if found then updatedTabs else updatedTabs ++ [config]) = putTab config tabs.
Proof.
  intros Ht Hall. pose proof (sameId_self _ Ht) as Hself.
  exists (map (fun tab => if sameId config tab then config else tab) tabs),
         (existsb (sameId config) tabs).
  split; [by apply replaceTab_not_null|]. split.
  - rewrite someTab_not_null.
    + f_equal. by apply existsb_replaced.
    + apply Forall_map. eapply Forall_impl; [exact Hall|].
      intros tab Htab. cbn. destruct (sameId config tab); [|exact Htab].
      by destruct (typedTab_window _ Ht) as (props & ? & ? & -> & _).
  - unfold putTab. destruct (existsb (sameId config) tabs) eqn:He; [reflexivity|].
    f_equal. rewrite <- (map_id tabs) at 2. apply map_ext_in.
    intros tab Hin. destruct (sameId config tab) eqn:Hs; [|reflexivity].
    exfalso. assert (existsb (sameId config) tabs = true); [|congruence].
    apply existsb_exists. by exists tab.
Qed.

(** [updateTabConfiguration] on a typed tab and lists without [null]. *)
Lemma updateTabConfiguration_typed (config : JSON) (c : TabWindowConfig)
    (ls : Storage) :
  windows_ok c ->
  typedTab config = true ->
  let c' :=
    if inWindow (js "user") config
    then {| userTabs := putTab config (userTabs c);
            developerTabs := developerTabs c |}
    else {| userTabs := userTabs c;
            developerTabs := putTab config (developerTabs c) |} in
  updateTabConfiguration config (c, ls)
  = Ok (c', <[TAB_CONFIGURATION := JSON_stringify (tabConfigJSON c')]> ls).
Proof.
  intros [Hu Hd] Ht.
  apply windows_not_null in Hu, Hd.
  assert (Hwin : get (js "window") config = Ok (get_opt (js "window") config)
                 /\ get (js "id") config = Ok (get_opt (js "id") config)
                 /\ strict_eq (get_opt (js "window") config) (Some (JStr (js "user")))
                    = inWindow (js "user") config).
  { destruct (typedTab_window _ Ht) as (props & i & w & -> & Hi & Hw & _).
    unfold inWindow, tabInWindow. cbn [get get_opt]. by rewrite Hw. }
  destruct Hwin as (Hgw & Hgi & Hse).
  unfold updateTabConfiguration. rewrite Hgw, Hgi, Hse.
  destruct (inWindow (js "user") config).
  - destruct (put_steps config (userTabs c) Ht Hu) as (u & found & -> & -> & Hput).
    cbv zeta. by rewrite Hput.
  - destruct (put_steps config (developerTabs c) Ht Hd) as (u & found & -> & -> & Hput).
    cbv zeta. by rewrite Hput.
Qed.

Lemma putTab_windows name config tabs :
  tabInWindow name config = Ok true ->
  Forall (fun tab => tabInWindow name tab = Ok true) tabs ->
  Forall (fun tab => tabInWindow name tab = Ok true) (putTab config tabs).
Proof.
  intros Hc Hall. unfold putTab. destruct (existsb _ tabs).
  - apply Forall_map. eapply Forall_impl; [exact Hall|].
    intros tab Htab. cbn. by destruct (sameId config tab).
  - apply Forall_app. split; [exact Hall|]. by repeat constructor.
Qed.

Lemma typedTab_inWindow config :
  typedTab config = true ->
  if inWindow (js "user") config
  then tabInWindow (js "user") config = Ok true
  else tabInWindow (js "developer") config = Ok true.
Proof.
  unfold typedTab, inWindow. destruct (get_opt (js "id") config) as [[]|]; try done.
  destruct (tabInWindow (js "user") config) as [[]|]; [done|..];
    by destruct (tabInWindow (js "developer") config) as [[]|].
Qed.

Lemma updateTabConfiguration_windows (config : JSON) (c : TabWindowConfig)
    (ls : Storage) :
  windows_ok c ->
  typedTab config = true ->
  exists st, updateTabConfiguration config (c, ls) = Ok st /\ windows_ok st.1.
Proof.
  intros Hc Hop.
  rewrite (updateTabConfiguration_typed config c ls Hc Hop). cbv zeta.
  eexists. split; [reflexivity|]. cbn [fst].
  pose proof (typedTab_inWindow _ Hop) as Hw. destruct Hc as [Hu Hd].
  destruct (inWindow (js "user") config); split; cbn; try done;
    by apply putTab_windows.
Qed.

Lemma applyTabOp_windows (c : TabWindowConfig) (ls : Storage) (op : TabOp) :
  windows_ok c ->
  match op with UpdateTab config => typedTab config = true | ResetTabs => True end ->
  exists st, applyTabOp (c, ls) op = Ok st /\ windows_ok st.1.
Proof.
  intros Hc Hop. destruct op as [config|]; cbn [applyTabOp].
  - by apply updateTabConfiguration_windows.
  - eexists. split; [reflexivity|]. apply defaultTabConfiguration_windows.
Qed.

Lemma runTabOps_windows (ops : list TabOp) : forall (st0 : TabWindowConfig * Storage),
  windows_ok st0.1 ->
  Forall (fun op => match op with
                    | UpdateTab config => typedTab config = true
                    | ResetTabs => True
                    end) ops ->
  exists st, runTabOps st0 ops = Ok st /\ windows_ok st.1.
Proof.
  induction ops as [|op ops IH]; intros [c ls] Hc Hops; cbn [runTabOps].
  - by eexists.
  - apply Forall_cons in Hops as [Hop Hops].
    destruct (applyTabOp_windows c ls op Hc Hop) as (st1 & -> & H1).
    by apply IH.
Qed.

(** X14.  Whatever the storage holds, the tab configuration starts with
    every user tab in window ['user'] and every developer tab in window
    ['developer'], and calls of [updateTabConfiguration] with typed tabs
    and of [resetTabConfiguration] keep it so; on the way no call
    throws. *)
Theorem tabs_stay_in_their_window (ls : Storage) (ops : list TabOp) :
  Forall (fun op => match op with
                    | UpdateTab config => typedTab config = true
                    | ResetTabs => True
                    end) ops ->
  exists c0 st,
    getInitialTabConfiguration ls = ([], Ok c0)
    /\ windows_ok c0
    /\ runTabOps (c0, ls) ops = Ok st
    /\ windows_ok st.1.
Proof.
  intros Hops. destruct (getInitialTabConfiguration_windows ls) as (c0 & Hc0 & Hw0).
  destruct (runTabOps_windows ops (c0, ls) Hw0 Hops) as (st & Hst & Hw).
  by exists c0, st.
Qed.

Lemma putTab_spec config tabs :
  sameId config config = true ->
  config ∈ putTab config tabs
  /\ List.filter (fun tab => negb (sameId config tab)) (putTab config tabs)
     = List.filter (fun tab => negb (sameId config tab)) tabs
  /\ (forall tab, tab ∈ putTab config tabs -> sameId config tab = true ->
                  tab = config).
Proof.
  intros Hself. unfold putTab. destruct (existsb (sameId config) tabs) eqn:He.
  - split; [|split].
    + apply existsb_exists in He as (tab & Hin & Hs).
      apply list_elem_of_In, in_map_iff. exists tab. by rewrite Hs.
    + clear He. induction tabs as [|tab tabs IH]; [reflexivity|]. cbn [map List.filter].
      destruct (sameId config tab) eqn:Hs; cbn; rewrite ?Hself, ?Hs; cbn;
        by rewrite IH.
    + intros tab Hin Hs. apply list_elem_of_In, in_map_iff in Hin as (t0 & Hf & _).
      destruct (sameId config t0) eqn:H0; [done|]. subst. congruence.
  - assert (Hnone : forall tab, tab ∈ tabs -> sameId config tab = false).
    { intros tab Hin. destruct (sameId config tab) eqn:Hs; [|reflexivity].
      assert (existsb (sameId config) tabs = true); [|congruence].
      apply existsb_exists. exists tab. by rewrite <- list_elem_of_In. }
    split; [|split].
    + apply elem_of_app. right. by apply elem_of_cons; left.
    + rewrite List.filter_app. cbn. rewrite Hself. cbn. by rewrite app_nil_r.
    + intros tab Hin Hs. apply elem_of_app in Hin as [Hin|Hin].
      * rewrite (Hnone _ Hin) in Hs. discriminate.
      * apply elem_of_cons in Hin as [->|Hin]; [reflexivity|].
        by apply elem_of_nil in Hin.
Qed.

Lemma putTab_idem config tabs :
  sameId config config = true ->
  putTab config (putTab config tabs) = putTab config tabs.
Proof.
  intros Hself.
  assert (Hex : existsb (sameId config) (putTab config tabs) = true).
  { destruct (putTab_spec config tabs Hself) as (Hin & _).
    apply existsb_exists. exists config. by rewrite <- list_elem_of_In. }
  unfold putTab at 1. rewrite Hex.
  rewrite <- (map_id (putTab config tabs)) at 2. apply map_ext_in.
  intros tab Hin. destruct (sameId config tab) eqn:Hs; [|reflexivity].
  symmetry. destruct (putTab_spec config tabs Hself) as (_ & _ & H).
  apply H; [by apply list_elem_of_In|exact Hs].
Qed.

(** X15.  On a configuration whose tabs are in their windows,
    [updateTabConfiguration] with a typed tab changes only the list of
    the tab's window: afterwards the tab is in that list, every tab of
    the list with its [id] is the tab itself, and the tabs with another
    [id] are the ones that were there, in their order.  The other list is
    untouched, and the new configuration is what is written to the
    storage. *)
Theorem update_replaces_or_appends (config : JSON) (c : TabWindowConfig)
    (ls : Storage) :
  windows_ok c ->
  typedTab config = true ->
  let own (x : TabWindowConfig) :=
    if inWindow (js "user") config then userTabs x else developerTabs x in
  let other (x : TabWindowConfig) :=
    if inWindow (js "user") config then developerTabs x else userTabs x in
  exists c',
    updateTabConfiguration config (c, ls)
    = Ok (c', <[TAB_CONFIGURATION := JSON_stringify (tabConfigJSON c')]> ls)
    /\ config ∈ own c'
    /\ (forall tab, tab ∈ own c' -> sameId config tab = true -> tab = config)
    /\ List.filter (fun tab => negb (sameId config tab)) (own c')
       = List.filter (fun tab => negb (sameId config tab)) (own c)
    /\ other c' = other c.
Proof.
  intros Hc Ht own other.
  rewrite (updateTabConfiguration_typed config c ls Hc Ht). cbv zeta.
  eexists. split; [reflexivity|]. subst own other.
  pose proof (sameId_self _ Ht) as Hself.
  destruct (inWindow (js "user") config); cbn [userTabs developerTabs].
  - destruct (putTab_spec config (userTabs c) Hself) as (H1 & H2 & H3). by repeat split.
  - destruct (putTab_spec config (developerTabs c) Hself) as (H1 & H2 & H3).
    by repeat split.
Qed.

(** X16.  [updateTabConfiguration] is idempotent on typed tabs: a second
    call with the same tab leaves the configuration and the storage as
    the first call left them. *)
Theorem update_tab_idempotent (config : JSON) (c c' : TabWindowConfig)
    (ls ls' : Storage) :
  windows_ok c ->
  typedTab config = true ->
  updateTabConfiguration config (c, ls) = Ok (c', ls') ->
  updateTabConfiguration config (c', ls') = Ok (c', ls').
Proof.
  intros Hc Ht Hup.
  destruct (updateTabConfiguration_windows config c ls Hc Ht) as (st & Hst & Hw).
  rewrite Hup in Hst. injection Hst as <-. cbn [fst] in Hw.
  rewrite (updateTabConfiguration_typed config c ls Hc Ht) in Hup. cbv zeta in Hup.
  injection Hup as Hc' Hls'.
  rewrite (updateTabConfiguration_typed config c' ls' Hw Ht). cbv zeta.
  pose proof (sameId_self _ Ht) as Hself.
  assert (Hsame : (if inWindow (js "user") config
                   then {| userTabs := putTab config (userTabs c');
                           developerTabs := developerTabs c' |}
                   else {| userTabs := userTabs c';
                           developerTabs := putTab config (developerTabs c') |}) = c').
  { rewrite <- Hc'. destruct (inWindow (js "user") config); cbn;
      by rewrite putTab_idem. }
  rewrite Hsame. f_equal. f_equal. rewrite <- Hls', Hc'. apply insert_insert_eq.
Qed.

Lemma parsed_tabConfigJSON (c : TabWindowConfig) :
  windows_ok c -> parsedTabConfiguration (tabConfigJSON c) = Ok c.
Proof.
  intros [Hu Hd]. unfold parsedTabConfiguration, filterProperty, tabConfigJSON.
  assert (H1 : get (js "userTabs")
                 (JObj [(js "userTabs", JArr (userTabs c));
                        (js "developerTabs", JArr (developerTabs c))])
               = Ok (Some (JArr (userTabs c)))) by reflexivity.
  assert (H2 : get (js "developerTabs")
                 (JObj [(js "userTabs", JArr (userTabs c));
                        (js "developerTabs", JArr (developerTabs c))])
               = Ok (Some (JArr (developerTabs c)))) by reflexivity.
  rewrite H1, H2, (filterTabs_same _ _ Hu), (filterTabs_same _ _ Hd).
  by destruct c.
Qed.

(** X17.  In a browser, what [updateTabConfiguration] (with a typed tab)
    or [resetTabConfiguration] has written is read back as the same
    configuration by a page that is loaded next, provided [JSON.parse]
    reads what [JSON.stringify] wrote and that text is not empty. *)
Theorem tab_configuration_survives_reload (op : TabOp) (c c' : TabWindowConfig)
    (ls ls' : Storage) :
  isBrowser = true ->
  windows_ok c ->
  match op with UpdateTab config => typedTab config = true | ResetTabs => True end ->
  applyTabOp (c, ls) op = Ok (c', ls') ->
  JSON_stringify (tabConfigJSON c') <> [] ->
  JSON_parse (JSON_stringify (tabConfigJSON c')) = Some (tabConfigJSON c') ->
  getInitialTabConfiguration ls' = ([], Ok c').
Proof.
  intros Hb Hc Hop Happ Hne Hparse.
  destruct (applyTabOp_windows c ls op Hc Hop) as (st & Hst & Hw).
  rewrite Happ in Hst. injection Hst as <-. cbn [fst] in Hw.
  assert (Hls : ls' !! TAB_CONFIGURATION = Some (JSON_stringify (tabConfigJSON c'))).
  { destruct op as [config|]; cbn [applyTabOp] in Happ.
    - rewrite (updateTabConfiguration_typed config c ls Hc Hop) in Happ.
      cbv zeta in Happ. injection Happ as Hc' <-. rewrite Hc'.
      apply lookup_insert_eq.
    - unfold resetTabConfiguration in Happ. injection Happ as <- <-.
      apply lookup_insert_eq. }
  unfold getInitialTabConfiguration. rewrite Hb, Hls, Hparse.
  destruct (JSON_stringify (tabConfigJSON c')) as [|x t]; [done|]. cbn [str_truthy].
  by rewrite (parsed_tabConfigJSON c' Hw).
Qed.

End TabProofs.

(** From a storage with an unreadable tab configuration. *)
Lemma tabs_stay_in_their_window_witness :
  exists c0 st,
    Settings.getInitialTabConfiguration (browser:=Samples.browser)
      (<[Settings.TAB_CONFIGURATION := js "{oops"]> ∅) = ([], Ok c0)
    /\ Updates.runTabOps (browser:=Samples.browser) (serializer:=Samples.serializer)
         (c0, <[Settings.TAB_CONFIGURATION := js "{oops"]> ∅)
         [Updates.UpdateTab Samples.settingsTab; Updates.ResetTabs;
          Updates.UpdateTab Samples.hiddenTab] = Ok st
    /\ Updates.windows_ok st.1.
Proof.
  destruct (tabs_stay_in_their_window
              (browser:=Samples.browser) (serializer:=Samples.serializer)
              (<[Settings.TAB_CONFIGURATION := js "{oops"]> ∅)
              [Updates.UpdateTab Samples.settingsTab; Updates.ResetTabs;
               Updates.UpdateTab Samples.hiddenTab])
    as (c0 & st & H0 & _ & Hrun & Hw).
  - repeat constructor.
  - by exists c0, st.
Defined.

Lemma update_replaces_or_appends_witness :
  exists c',
    Updates.updateTabConfiguration (serializer:=Samples.serializer) Samples.hiddenTab
      ({| Settings.userTabs := [Demo.userTab];
          Settings.developerTabs := [Demo.developerTab] |}, ∅)
    = Ok (c', <[Settings.TAB_CONFIGURATION :=
                  Samples.print_json (Updates.tabConfigJSON c')]> ∅)
    /\ Samples.hiddenTab ∈ Settings.userTabs c'
    /\ Settings.developerTabs c' = [Demo.developerTab].
Proof.
  destruct (update_replaces_or_appends (serializer:=Samples.serializer)
              Samples.hiddenTab
              {| Settings.userTabs := [Demo.userTab];
                 Settings.developerTabs := [Demo.developerTab] |} ∅)
    as (c' & Hup & Hin & _ & _ & Hother).
  - split; repeat constructor.
  - reflexivity.
  - exists c'. split; [exact Hup|]. split; [exact Hin|exact Hother].
Defined.

Lemma update_tab_idempotent_witness :
  let c' := {| Settings.userTabs := [Samples.hiddenTab];
               Settings.developerTabs := [Demo.developerTab] |} in
  let ls' : Settings.Storage :=
    <[Settings.TAB_CONFIGURATION :=
        Samples.print_json (Updates.tabConfigJSON c')]> ∅ in
  Updates.updateTabConfiguration (serializer:=Samples.serializer) Samples.hiddenTab
    (c', ls') = Ok (c', ls').
Proof.
  cbv zeta.
  apply (update_tab_idempotent (serializer:=Samples.serializer) Samples.hiddenTab
           {| Settings.userTabs := [Demo.userTab];
              Settings.developerTabs := [Demo.developerTab] |} _ ∅).
  - split; repeat constructor.
  - reflexivity.
  - vm_compute. reflexivity.
Defined.

Lemma tab_configuration_survives_reload_witness :
  let c' := {| Settings.userTabs := [Demo.userTab; Samples.settingsTab];
               Settings.developerTabs := [Demo.developerTab] |} in
  Settings.getInitialTabConfiguration (browser:=Samples.browser)
    (<[Settings.TAB_CONFIGURATION :=
         Samples.print_json (Updates.tabConfigJSON c')]> ∅)
  = ([], Ok c').
Proof.
  cbv zeta.
  apply (tab_configuration_survives_reload
           (browser:=Samples.browser) (serializer:=Samples.serializer)
           (Updates.UpdateTab Samples.settingsTab)
           {| Settings.userTabs := [Demo.userTab];
              Settings.developerTabs := [Demo.developerTab] |} _ ∅).
  - reflexivity.
  - split; repeat constructor.
  - reflexivity.
  - vm_compute. reflexivity.
  - discriminate.
  - vm_compute. reflexivity.
Defined.

(** ** The selection and the storage *)

Section ReloadProofs.
Import Settings Updates Selector.
Context {host : Host} {browser : Browser}.

Lemma find_by_name (p : Provider) (ps : list Provider) :
  NoDup (map p_name ps) -> p ∈ ps ->
  find (fun q => str_eqb (p_name q) (p_name p)) ps = Some p.
Proof.
  induction ps as [|q ps IH]; intros Hnd Hin; [by apply elem_of_nil in Hin|].
  cbn in Hnd. apply NoDup_cons in Hnd as [Hq Hnd]. cbn [find]. unfold str_eqb.
  apply elem_of_cons in Hin as [->|Hin].
  - by rewrite bool_decide_eq_true_2.
  - rewrite bool_decide_eq_false_2; [by apply IH|].
    intros Heq. apply Hq. rewrite Heq. by apply list_elem_of_In, in_map, list_elem_of_In.
Qed.

Lemma find_head_name (ps : list Provider) :
  find (fun q => str_eqb (p_name q) (opt_str_or (p_name <$> head ps) [])) ps
  = head ps.
Proof.
  destruct ps as [|p ps]; [reflexivity|]. cbn. unfold str_or, str_eqb.
  destruct (str_truthy (p_name p)) eqn:Ht.
  - by rewrite bool_decide_eq_true_2.
  - destruct (p_name p); [|discriminate]. by rewrite bool_decide_eq_true_2.
Qed.

(** X19.  When the storage holds no provider name (or the empty name, or
    outside a browser), the first provider of the registry starts
    selected.  A stored name that no provider of the registry has leaves
    nothing selected: the store does not fall back to the first
    provider. *)
Theorem initial_selection (ls : Storage) :
  (isBrowser = false \/ ls !! SELECTED_PROVIDER = None
   \/ ls !! SELECTED_PROVIDER = Some [] ->
   selectedProvider (initialStore ls) = head PROVIDER_LIST)
  /\ (forall name,
        isBrowser = true -> ls !! SELECTED_PROVIDER = Some name ->
        name <> [] -> name ∉ map p_name PROVIDER_LIST ->
        selectedProvider (initialStore ls) = None).
Proof.
  unfold initialStore, getInitialSettings, getStoredString.
  cbn [selectedProvider selectedProviderName]. split.
  - intros H. destruct isBrowser; [|apply find_head_name].
    destruct H as [H|[H|H]]; [discriminate|..]; rewrite H; apply find_head_name.
  - intros name Hb Hls Hne Hnot. rewrite Hb, Hls.
    destruct name as [|c name]; [done|]. cbn [opt_str_or str_or str_truthy].
    destruct (find _ PROVIDER_LIST) as [p|] eqn:Hf; [|reflexivity].
    apply find_some in Hf as [Hin Hn]. unfold str_eqb in Hn.
    apply bool_decide_eq_true in Hn. exfalso. apply Hnot. rewrite <- Hn.
    by apply list_elem_of_In, in_map.
Qed.

Lemma listener_agrees (ls : Storage) (st : SettingsState) :
  isBrowser = true ->
  NoDup (map p_name PROVIDER_LIST) ->
  [] ∉ map p_name PROVIDER_LIST ->
  (forall p, selectedProvider st = Some p -> p ∈ PROVIDER_LIST) ->
  (selectedProvider st = None -> selectedProvider (initialStore ls) = None) ->
  reload_agrees {| storage := listener ls st; store := st |}.
Proof.
  intros Hb Hnd Hne Hreg Hnone.
  unfold reload_agrees, initialStore, getInitialSettings, listener in *.
  cbn [storage store selectedProvider selectedModel selectedProviderName
       selectedModelName] in *.
  rewrite Hb. split.
  - assert (Hprov :
      getStoredString
        (match selectedProvider st with
         | Some p => <[SELECTED_PROVIDER := p_name p]> ls
         | None => ls
         end) SELECTED_PROVIDER (opt_str_or (p_name <$> head PROVIDER_LIST) [])
      = match selectedProvider st with
        | Some p => p_name p
        | None => getStoredString ls SELECTED_PROVIDER
                    (opt_str_or (p_name <$> head PROVIDER_LIST) [])
        end).
    { destruct (selectedProvider st) as [p|] eqn:Hp; [|reflexivity].
      unfold getStoredString. rewrite Hb, lookup_insert_eq. cbn [opt_str_or].
      unfold str_or. destruct (p_name p) eqn:Hn; [|reflexivity].
      exfalso. apply Hne. rewrite <- Hn.
      by apply list_elem_of_In, in_map, list_elem_of_In, Hreg. }
    assert (Hsame : forall l0 : Storage,
      getStoredString
        (if str_truthy (selectedModel st)
         then <[SELECTED_MODEL := selectedModel st]> l0 else l0)
        SELECTED_PROVIDER (opt_str_or (p_name <$> head PROVIDER_LIST) [])
      = getStoredString l0 SELECTED_PROVIDER
          (opt_str_or (p_name <$> head PROVIDER_LIST) [])).
    { intros l0. destruct (str_truthy (selectedModel st)); [|reflexivity].
      unfold getStoredString. by rewrite lookup_insert_ne. }
    rewrite Hsame, Hprov. destruct (selectedProvider st) as [p|] eqn:Hp.
    + apply find_by_name; [exact Hnd|by apply Hreg].
    + by apply Hnone.
  - intros Hm. destruct (selectedModel st) as [|c m] eqn:Hsm; [done|].
    cbn [str_truthy]. unfold getStoredString. by rewrite Hb, lookup_insert_eq.
Qed.

Lemma setSelectedProvider_agrees p w :
  isBrowser = true ->
  NoDup (map p_name PROVIDER_LIST) ->
  [] ∉ map p_name PROVIDER_LIST ->
  p ∈ PROVIDER_LIST ->
  reload_agrees w -> reload_agrees (setSelectedProvider p w).
Proof.
  intros Hb Hnd Hne Hp Hw. unfold setSelectedProvider.
  case_bool_decide; [exact Hw|].
  apply listener_agrees; try done; cbn [selectedProvider];
    try discriminate; by intros q [= <-].
Qed.

Lemma setSelectedModel_agrees m w :
  isBrowser = true ->
  NoDup (map p_name PROVIDER_LIST) ->
  [] ∉ map p_name PROVIDER_LIST ->
  (forall p, selectedProvider (store w) = Some p -> p ∈ PROVIDER_LIST) ->
  reload_agrees w -> reload_agrees (setSelectedModel m w).
Proof.
  intros Hb Hnd Hne Hreg Hw. unfold setSelectedModel.
  case_bool_decide; [exact Hw|]. apply listener_agrees; try done;
    cbn [selectedProvider].
  intros Hnone. destruct Hw as [Hw _]. by rewrite Hw.
Qed.

Lemma setModels_agrees ms w :
  isBrowser = true ->
  NoDup (map p_name PROVIDER_LIST) ->
  [] ∉ map p_name PROVIDER_LIST ->
  (forall p, selectedProvider (store w) = Some p -> p ∈ PROVIDER_LIST) ->
  reload_agrees w -> reload_agrees (setModels ms w).
Proof.
  intros Hb Hnd Hne Hreg Hw. unfold setModels.
  apply listener_agrees; try done; cbn [selectedProvider].
  intros Hnone. destruct Hw as [Hw _]. by rewrite Hw.
Qed.

Lemma ui_step_agrees w e w' :
  isBrowser = true ->
  NoDup (map p_name PROVIDER_LIST) ->
  [] ∉ map p_name PROVIDER_LIST ->
  registry_selection w -> reload_agrees w ->
  ui_step w e = Some w' -> reload_agrees w'.
Proof.
  intros Hb Hnd Hne [Hprov Hsel] Hw. destruct e as [p|m|ms]; cbn [ui_step].
  - case_bool_decide as Hin; [|discriminate]. rewrite Hprov in Hin.
    destruct (isProviderConfigured _ _) as [[|]|]; intros [= <-]; try exact Hw.
    unfold handleProviderSelect. cbn [fst].
    apply setSelectedModel_agrees; try done.
    + intros q Hq.
      destruct (setSelectedProvider_store p w) as (_ & _ & Hs & _).
      rewrite Hs in Hq. by injection Hq as <-.
    + by apply setSelectedProvider_agrees.
  - intros Hstep. assert (w' = handleModelSelect (mi_name m) w) as ->.
    { destruct (selectedProvider (store w)); [|discriminate].
      destruct (bool_decide _); [|discriminate]. by injection Hstep. }
    by apply setSelectedModel_agrees.
  - intros [= <-]. by apply setModels_agrees.
Qed.

(** X20.  In a browser whose registry gives every provider a name of its
    own, none of them empty, the selection survives a reload: in every
    state that the selector reaches, a page that is loaded next starts
    with the provider that is selected now, and with the model that is
    selected now unless that is the empty string (the storage then keeps
    the model that was stored before). *)
Theorem selection_survives_reload (ls : Storage) (w : World) :
  isBrowser = true ->
  NoDup (map p_name PROVIDER_LIST) ->
  [] ∉ map p_name PROVIDER_LIST ->
  reachable ls w ->
  reload_agrees w.
Proof.
  intros Hb Hnd Hne [es Hrun].
  assert (H0 : reload_agrees (initialWorld ls)) by (by split).
  pose proof (initialWorld_registry_selection ls) as Hreg.
  revert Hrun H0 Hreg. generalize (initialWorld ls).
  induction es as [|e es IH]; intros w0; cbn [run].
  - by intros [= <-].
  - destruct (ui_step w0 e) as [w1|] eqn:Hstep; [|discriminate].
    intros Hrun H0 Hreg. apply (IH w1 Hrun).
    + by eapply ui_step_agrees.
    + by eapply ui_step_registry_selection.
Qed.

Lemma run_providerSettings es : forall w w',
  run w es = Some w' -> providerSettings (store w') = providerSettings (store w).
Proof.
  induction es as [|e es IH]; intros w w'; cbn [run]; [by intros [= <-]|].
  destruct (ui_step w e) as [w1|] eqn:Hstep; [|discriminate].
  intros Hrun. rewrite (IH _ _ Hrun). clear Hrun IH.
  destruct e as [p|m|ms]; cbn [ui_step] in Hstep.
  - case_bool_decide; [|discriminate].
    destruct (isProviderConfigured _ _) as [[|]|]; injection Hstep as <-; try done.
    unfold handleProviderSelect. cbn [fst].
    destruct (setSelectedModel_store (modelForProvider p) (setSelectedProvider p w))
      as (_ & _ & _ & _ & ->).
    by destruct (setSelectedProvider_store p w) as (_ & _ & _ & _ & ->).
  - destruct (selectedProvider (store w)); [|discriminate].
    case_bool_decide; [|discriminate]. injection Hstep as <-.
    unfold handleModelSelect.
    by destruct (setSelectedModel_store (mi_name m) w) as (_ & _ & _ & _ & ->).
  - by injection Hstep as <-.
Qed.

(** X21.  In every state that the selector reaches, whatever the storage
    held, [isProviderConfigured] returns for every provider of the
    registry: the settings have an entry under its name, so the read of
    [isConfigurable] does not throw.  The answer is [true] exactly when
    the entry's settings have a truthy [apiKey] or [isConfigured], or the
    provider is not configurable. *)
Theorem configured_check_never_throws (ls : Storage) (w : World) (p : Provider) :
  reachable ls w ->
  p ∈ PROVIDER_LIST ->
  exists cfg,
    providerSettings (store w) !! p_name p = Some cfg
    /\ p_name (pc_provider cfg) = p_name p
    /\ isProviderConfigured (providerSettings (store w)) (p_name p)
       = Ok (truthy_opt (pc_settings cfg ≫= get_opt (js "apiKey"))
             || truthy_opt (pc_settings cfg ≫= get_opt (js "isConfigured"))
             || negb (default false (isConfigurable (pc_provider cfg)))).
Proof.
  intros [es Hrun] Hp. rewrite (run_providerSettings _ _ _ Hrun).
  cbn [initialWorld store initialStore providerSettings].
  destruct (getInitialProviderSettings_keys ls) as (s & -> & Hdom & Hkeys).
  cbn [default].
  assert (Hsome : is_Some (s !! p_name p)).
  { by apply Hdom, list_elem_of_In, in_map, list_elem_of_In. }
  destruct Hsome as [cfg Hcfg]. exists cfg. split; [exact Hcfg|].
  split; [by apply (Hkeys _ _ Hcfg)|].
  unfold isProviderConfigured. cbv zeta. change (id s) with s.
  rewrite Hcfg. cbn [mbind option_bind].
  destruct (truthy_opt (pc_settings cfg ≫= get_opt (js "apiKey"))); [reflexivity|].
  by destruct (truthy_opt (pc_settings cfg ≫= get_opt (js "isConfigured"))).
Qed.

End ReloadProofs.

(** A session on an empty storage: Ollama is clicked, then OpenAI, the
    parent loads its models, and [gpt-4-turbo] is clicked. *)
Lemma selection_survives_reload_witness :
  let start := Settings.initialWorld (host:=Demo.host) (browser:=Demo.browser) ∅ in
  let es :=
    [Selector.ClickProvider Demo.ollama;
     Selector.ClickProvider Demo.openai;
     Selector.ModelsLoaded {[ js "OpenAI" := [Demo.gpt4o; Demo.gpt4turbo] ]};
     Selector.ClickModel Demo.gpt4turbo] in
  let w := default start (Selector.run (browser:=Demo.browser) start es) in
  Updates.reload_agrees (host:=Demo.host) (browser:=Demo.browser) w
  /\ Settings.storage w !! Settings.SELECTED_PROVIDER = Some (js "OpenAI")
  /\ Settings.storage w !! Settings.SELECTED_MODEL = Some (js "gpt-4-turbo").
Proof.
  cbv zeta. split.
  - apply (selection_survives_reload (host:=Demo.host) (browser:=Demo.browser) ∅).
    + reflexivity.
    + apply (bool_decide_unpack _). vm_compute. exact I.
    + apply (bool_decide_unpack _). vm_compute. exact I.
    + exists [Selector.ClickProvider Demo.ollama;
              Selector.ClickProvider Demo.openai;
              Selector.ModelsLoaded {[ js "OpenAI" := [Demo.gpt4o; Demo.gpt4turbo] ]};
              Selector.ClickModel Demo.gpt4turbo].
      vm_compute. reflexivity.
  - split; vm_compute; reflexivity.
Defined.

(** On a storage whose provider settings cannot be read. *)
Lemma configured_check_never_throws_witness :
  let ls : Settings.Storage := <[Settings.PROVIDER_SETTINGS_KEY := js "{oops"]> ∅ in
  let w := Settings.initialWorld (host:=Demo.host) (browser:=Demo.browser) ls in
  exists cfg,
    Settings.providerSettings (Settings.store w) !! js "Ollama" = Some cfg
    /\ Selector.isProviderConfigured (Settings.providerSettings (Settings.store w))
         (js "Ollama") = Ok true.
Proof.
  cbv zeta.
  destruct (configured_check_never_throws (host:=Demo.host) (browser:=Demo.browser)
              (<[Settings.PROVIDER_SETTINGS_KEY := js "{oops"]> ∅)
              (Settings.initialWorld (host:=Demo.host) (browser:=Demo.browser)
                 (<[Settings.PROVIDER_SETTINGS_KEY := js "{oops"]> ∅))
              Demo.ollama)
    as (cfg & Hcfg & Hname & Hok).
  - by exists [].
  - apply (bool_decide_unpack _). vm_compute. exact I.
  - exists cfg. split; [exact Hcfg|]. vm_compute. reflexivity.
Defined.
